(** * File Utility Tool: a shallow embedding of the job engine

    The development follows [Windows/fileutilitytoolgui.py]: the helpers on
    the sqlite tables ([hashvalues], [filegroups], [metadata]), the five
    generator jobs ([generate_sql], [generate_and_mark_duplicates],
    [delete_duplicates_generator], [group_files_generator],
    [delete_empty_folders_generator]) and the destination check of
    [App.run_filegroup].

    Conventions of the embedding.
    - A generator is a function from its arguments and the state it reads
      (database, file system) to the list of events it yields, in order,
      together with the state it leaves behind.
    - A table is the list of its rows in ascending [_rowid_] order; the
      [_rowid_] of a row is its position in that list.  Rows are only ever
      appended or updated in place by the program, never removed.
    - [cancel_event] is an optional polling function: [c k] is the answer of
      the [k]-th call of [is_set()] made by the running generator.
    - A file is known to the jobs only through the md5 hex digest of its
      bytes, so a file carries that digest as its content.
    - Paths follow the POSIX conventions of [os.path]. *)

From Stdlib Require Import ZArith String Ascii List Bool Lia.
From Stdlib Require Import DecimalString DecimalZ DecimalPos.
From Stdlib Require OrderedTypeEx.
From stdpp Require Import base option list strings gmap.
Import ListNotations.

Local Open Scope string_scope.
Local Open Scope list_scope.
Local Open Scope Z_scope.

(** ** Python built-ins used by the source *)

Module Py.

(** [str.upper()] on ASCII letters. *)
Definition upper_ascii (c : ascii) : ascii :=
  let n := nat_of_ascii c in
  if ((97 <=? n)%nat && (n <=? 122)%nat)%bool then ascii_of_nat (n - 32) else c.

Fixpoint upper (s : string) : string :=
  match s with
  | EmptyString => EmptyString
  | String c s' => String (upper_ascii c) (upper s')
  end.

(** [sub in s] for strings. *)
Fixpoint contains (sub s : string) : bool :=
  String.prefix sub s ||
  match s with
  | EmptyString => false
  | String _ s' => contains sub s'
  end.

(** [s.startswith(p)]. *)
Definition startswith (s p : string) : bool := String.prefix p s.

Definition last_char (s : string) : option ascii :=
  last (list_ascii_of_string s).

(** [str(n)] and [int(s)] for integers in decimal notation; [int] raises
    [ValueError] ([None]) on anything that is not a plain decimal numeral,
    the only form the program stores. *)
Definition str (z : Z) : string := NilZero.string_of_int (Z.to_int z).

Definition int (s : string) : option Z :=
  option_map Z.of_int (NilZero.int_of_string s).

(** Truthiness of an optional string: [None] and [''] are falsy. *)
Definition truthy (o : option string) : bool :=
  match o with
  | Some s => negb (String.eqb s "")
  | None => false
  end.

(** [list.sort()] on strings: ascending code-point order (insertion sort,
    stable). *)
Fixpoint insert_sorted {A} (key : A -> string) (x : A) (l : list A) : list A :=
  match l with
  | [] => [x]
  | y :: l' =>
      if String.leb (key x) (key y) then x :: y :: l'
      else y :: insert_sorted key x l'
  end.

Definition sort_on {A} (key : A -> string) (l : list A) : list A :=
  fold_right (insert_sorted key) [] l.

Definition sort (l : list string) : list string := sort_on id l.

End Py.

(** ** [os.path] *)

Module OsPath.

Definition sep : string := "/".

(** [os.path.join(a, b)] for a relative second component. *)
Definition join (a b : string) : string :=
  match Py.last_char a with
  | None => b
  | Some c => if Ascii.eqb c "/" then a +:+ b else a +:+ sep +:+ b
  end.

End OsPath.

(** ** Directory trees and [os.walk] *)

(** The directory below a root: the names of its files and its
    sub-directories, in the order [os.scandir] reports them. *)
#[warnings="-register-all"]
Inductive tree : Type :=
| Node (files : list string) (dirs : list (string * tree)).

Definition tree_files (t : tree) : list string :=
  match t with Node files _ => files end.

Definition tree_dirs (t : tree) : list (string * tree) :=
  match t with Node _ dirs => dirs end.

(** The loop

      for root, dirs, files in os.walk(top):
          dirs.sort(); files.sort()
          dirs[:] = [d for d in dirs if keep(d)]
          for f in files: file_list.append(os.path.join(root, f))

    Top-down [os.walk] descends only into the directories left in [dirs],
    in the order they are left there. *)
Fixpoint walk (keep : string -> bool) (root : string) (t : tree) : list string :=
  match t with
  | Node files dirs =>
      map (OsPath.join root) (Py.sort files) ++
      concat (map snd
        (List.filter (fun p => keep (fst p))
          (Py.sort_on fst
            (map (fun p => (fst p, walk keep (OsPath.join root (fst p)) (snd p)))
                 dirs))))
  end.

(** [generate_sql]: [d.upper() != "GIT" and d != ".git"]. *)
Definition keep_dir (d : string) : bool :=
  negb (String.eqb (Py.upper d) "GIT") && negb (String.eqb d ".git").

(** The file list built by the first pass of [generate_sql]. *)
Definition file_list (start_dir : string) (t : tree) : list string :=
  walk keep_dir start_dir t.

(** The file list built by the scan phase of [group_files_generator]: no
    directory is filtered out. *)
Definition file_list_all (origin_dir : string) (t : tree) : list string :=
  walk (fun _ => true) origin_dir t.

(** A file named [f] lies in the tree below the chain of directories [ds]. *)
Inductive file_at : tree -> list string -> string -> Prop :=
| file_here files dirs f :
    In f files -> file_at (Node files dirs) [] f
| file_below files dirs d sub ds f :
    In (d, sub) dirs -> file_at sub ds f ->
    file_at (Node files dirs) (d :: ds) f.

(** The path [os.walk] builds for that file. *)
Definition path_of (root : string) (ds : list string) (f : string) : string :=
  OsPath.join (fold_left OsPath.join ds root) f.

(** Induction on trees, with the hypothesis for every sub-directory. *)
Section tree_induction.
Variable P : tree -> Prop.
Hypothesis step : forall files dirs,
  Forall (fun p => P (snd p)) dirs -> P (Node files dirs).

Fixpoint tree_rect_nested (t : tree) : P t :=
  match t with
  | Node files dirs =>
      step files dirs
        ((fix children (l : list (string * tree)) :
            Forall (fun p => P (snd p)) l :=
            match l with
            | [] => @List.Forall_nil _ _
            | p :: l' => @List.Forall_cons _ _ p l' (tree_rect_nested (snd p)) (children l')
            end) dirs)
  end.
End tree_induction.

(** ** The store and the file system *)

(** A row of [hashvalues]. *)
Record hashrow : Type := HashRow {
  hv_row : Z;
  hv_path : string;
  hv_hash : option string;
  hv_duplicate : option Z;
  hv_deleted : Z
}.

(** A row of [filegroups]. *)
Record fgrow : Type := FgRow {
  fg_originpath : string;
  fg_destinationpath : option string;
  fg_filename : string;
  fg_extension : string;
  fg_hash : option string;
  fg_copied : Z;
  fg_duplicate : option Z;
  fg_created_at : string
}.

(** The sqlite database behind a connection. *)
Record database : Type := Database {
  hashvalues : list hashrow;
  filegroups : list fgrow;
  metadata : gmap string string
}.

Definition empty_db : database := Database [] [] ∅.

Definition with_hashvalues (db : database) (hv : list hashrow) : database :=
  Database hv (filegroups db) (metadata db).

Definition with_filegroups (db : database) (fg : list fgrow) : database :=
  Database (hashvalues db) fg (metadata db).

(** A regular file: the md5 hex digest of its bytes, whether it can be
    opened for reading, and whether [os.remove] is allowed on it. *)
Record file : Type := File {
  f_digest : string;
  f_readable : bool;
  f_removable : bool
}.

(** Events yielded by the generators.  [EProgress processed total] stands
    for [("progress", (processed / total) * 100.0)], cut at [100.0] where
    the source cuts it.  Where the source formats an exception into a
    message, the message keeps the text the source writes and leaves the
    text of the exception out. *)
Inductive event : Type :=
| EStatus (s : string)
| ELog (s : string)
| EProgress (processed total : Z)
| EFile (path : string)
| EGroupStart (path : string)
| EGroupDup (path : string)
| EDuplicateCount (n : Z)
| EDeleted (path : string)
| ECopied (path : string)
| ESkippedDuplicate (path : string)
| EDone
| EError (s : string).

(** How the body of a generator ended: it returned after [("done", None)],
    returned after reporting a cancellation, returned after reporting an
    error, or an exception escaped from it. *)
Inductive outcome : Type := Completed | Cancelled | Failed | Raised.

(** [cancel_event and cancel_event.is_set()], at the [k]-th poll. *)
Definition is_cancelled (cancel_event : option (nat -> bool)) (k : nat) : bool :=
  match cancel_event with
  | Some c => c k
  | None => false
  end.

(** ** Metadata helpers *)

Definition set_metadata (conn : database) (key value : string) : database :=
  Database (hashvalues conn) (filegroups conn) (<[key := value]> (metadata conn)).

Definition get_metadata (conn : database) (key : string) (default : option string)
  : option string :=
  match metadata conn !! key with
  | Some v => Some v
  | None => default
  end.

(** [int(get_metadata(conn, key, '0'))]. *)
Definition get_metadata_int (conn : database) (key : string) : option Z :=
  match get_metadata conn key (Some "0") with
  | Some v => Py.int v
  | None => None
  end.

(** The clamp applied to a resumed counter. *)
Definition clamp (n total : Z) : Z :=
  let n := if n <? 0 then 0 else n in
  if total <? n then total else n.

(** ** Utility helpers *)

(** [compute_md5(path)], and the inlined hashing of [generate_sql]: the
    digest of the whole file, or [None] when the file cannot be read. *)
Definition compute_md5 (fs : gmap string file) (path : string) : option string :=
  match fs !! path with
  | Some f => if f_readable f then Some (f_digest f) else None
  | None => None
  end.

(** ** [generate_sql] *)

Record gs_state : Type := GsState {
  gs_conn : database;
  gs_existing_paths : gset string;
  gs_processed : Z;
  gs_row_counter : Z
}.

Definition gs_checkpoint (conn : database) (filepath : string) (processed : Z)
  : database :=
  set_metadata (set_metadata conn "last_file" filepath)
               "processed_count" (Py.str processed).

(** One iteration of [for filepath in file_list] past the cancel check. *)
Definition gs_step (fs : gmap string file) (total_files : Z) (filepath : string)
  (st : gs_state) : list event * gs_state :=
  let processed := gs_processed st + 1 in
  let evs := [EProgress processed total_files; EFile filepath] in
  if bool_decide (filepath ∈ gs_existing_paths st) then
    (evs, GsState (gs_checkpoint (gs_conn st) filepath processed)
                  (gs_existing_paths st) processed (gs_row_counter st))
  else
    match compute_md5 fs filepath with
    | None =>
        (evs ++ [ELog ("[ERROR] Could not hash " +:+ filepath)],
         GsState (gs_checkpoint (gs_conn st) filepath processed)
                 (gs_existing_paths st) processed (gs_row_counter st))
    | Some filehash =>
        let conn :=
          with_hashvalues (gs_conn st)
            (hashvalues (gs_conn st) ++
             [HashRow (gs_row_counter st) filepath (Some filehash) None 0]) in
        let row_counter := gs_row_counter st + 1 in
        (evs,
         GsState (gs_checkpoint
                    (set_metadata conn "row_counter" (Py.str row_counter))
                    filepath processed)
                 ({[filepath]} ∪ gs_existing_paths st) processed row_counter)
    end.

(** The cancel branch of the loop. *)
Definition gs_cancel (filepath : string) (st : gs_state) : list event * gs_state :=
  ([ELog "Operation cancelled by user"; EStatus "cancelled"],
   GsState
     (set_metadata
        (set_metadata
           (set_metadata
              (set_metadata (gs_conn st) "operation_state" "cancelled")
              "last_operation" "generate_sql")
           "last_file" filepath)
        "processed_count" (Py.str (gs_processed st)))
     (gs_existing_paths st) (gs_processed st) (gs_row_counter st)).

(** [for filepath in file_list: ...], started at poll number [k]; the
    boolean tells whether the loop ended in the cancel branch. *)
Fixpoint gs_loop (fs : gmap string file) (cancel_event : option (nat -> bool))
  (total_files : Z) (k : nat) (files : list string) (st : gs_state)
  : list event * gs_state * bool :=
  match files with
  | [] => ([], st, false)
  | filepath :: rest =>
      if is_cancelled cancel_event k then
        let '(evs, st') := gs_cancel filepath st in (evs, st', true)
      else
        let '(evs, st') := gs_step fs total_files filepath st in
        let '(evs', st'', stopped) :=
          gs_loop fs cancel_event total_files (S k) rest st' in
        (evs ++ evs', st'', stopped)
  end.

(** The metadata handling before the loop; [None] when [int()] raises. *)
Definition gs_prepare (conn : database) (resume : bool) (total_files : Z)
  : option (database * Z) :=
  if negb resume then
    Some (set_metadata
            (set_metadata
               (set_metadata
                  (set_metadata
                     (set_metadata conn "operation_state" "generate_sql")
                     "last_operation" "generate_sql")
                  "last_file" "")
               "processed_count" (Py.str 0))
            "total_files" (Py.str total_files), 0)
  else
    match get_metadata_int conn "processed_count" with
    | None => None
    | Some processed =>
        Some (set_metadata
                (set_metadata
                   (set_metadata conn "total_files" (Py.str total_files))
                   "operation_state" "generate_sql")
                "last_operation" "generate_sql",
              clamp processed total_files)
    end.

(** [int(get_metadata(conn, 'row_counter', str(0)))
     if get_metadata(conn, 'row_counter') else 0]. *)
Definition gs_initial_row_counter (conn : database) : option Z :=
  if Py.truthy (get_metadata conn "row_counter" None)
  then get_metadata_int conn "row_counter"
  else Some 0.

Definition gs_finalize (conn : database) (processed total_files : Z) : database :=
  set_metadata
    (set_metadata
       (set_metadata
          (set_metadata
             (set_metadata conn "operation_state" "idle")
             "last_operation" "generate_sql")
          "last_file" "")
       "processed_count" (Py.str processed))
    "total_files" (Py.str total_files).

Record gs_result : Type := GsResult {
  gs_events : list event;
  gs_db : option database;
  gs_outcome : outcome
}.

(** [generate_sql(start_dir, db_path, resume, cancel_event)].  [dir] is the
    directory tree at [start_dir] ([None] when [start_dir] is not a
    directory), [fs] the files by path, [db] the database at [db_path]
    ([None] when it cannot be opened; a database that does not exist yet is
    [empty_db]). *)
Definition generate_sql (start_dir : string) (dir : option tree)
  (fs : gmap string file) (db : option database)
  (resume : bool) (cancel_event : option (nat -> bool)) : gs_result :=
  match dir with
  | None =>
      GsResult [EError ("Directory does not exist: " +:+ start_dir); EStatus "error"]
               db Failed
  | Some t =>
      let scan := [EStatus "Scanning filesystem";
                   ELog ("Starting directory scan: " +:+ start_dir)] in
      let files := file_list start_dir t in
      let total_files := Z.of_nat (length files) in
      if total_files =? 0 then
        GsResult (scan ++ [EError "Directory contains no files."; EStatus "error"])
                 db Failed
      else
        let found := [ELog ("Total files found: " +:+ Py.str total_files);
                      EStatus "Preparing database"] in
        match db with
        | None =>
            GsResult (scan ++ found ++ [EError "Database error"; EStatus "error"])
                     db Failed
        | Some conn =>
            let existing_paths : gset string :=
              list_to_set (map hv_path (hashvalues conn)) in
            match gs_prepare conn resume total_files with
            | None => GsResult (scan ++ found) (Some conn) Raised
            | Some (conn1, processed) =>
                let start :=
                  [ELog (if resume
                         then "Resuming: " +:+ Py.str (Z.of_nat (size existing_paths))
                              +:+ " files already recorded in DB"
                         else "Starting fresh generation")] in
                match gs_initial_row_counter conn1 with
                | None => GsResult (scan ++ found ++ start) (Some conn1) Raised
                | Some row_counter =>
                    let '(evs, st, stopped) :=
                      gs_loop fs cancel_event total_files 0 files
                        (GsState conn1 existing_paths processed row_counter) in
                    if stopped then
                      GsResult (scan ++ found ++ start ++ evs)
                               (Some (gs_conn st)) Cancelled
                    else
                      GsResult
                        (scan ++ found ++ start ++ evs ++
                         [EStatus "done"; ELog "Database generation complete.";
                          EDone])
                        (Some (gs_finalize (gs_conn st) (gs_processed st) total_files))
                        Completed
                end
            end
        end
  end.

(** ** Queries on [hashvalues] *)

(** A table with the [_rowid_] of every row. *)
Definition indexed {A} (rows : list A) : list (nat * A) :=
  imap (fun i r => (i, r)) rows.

(** [UPDATE hashvalues SET ... WHERE _rowid_ IN (ids)]. *)
Definition update_rows (f : hashrow -> hashrow) (ids : list nat)
  (hv : list hashrow) : list hashrow :=
  imap (fun i r => if bool_decide (i ∈ ids) then f r else r) hv.

Definition set_duplicate (r : hashrow) : hashrow :=
  HashRow (hv_row r) (hv_path r) (hv_hash r) (Some 1) (hv_deleted r).

Definition set_deleted (r : hashrow) : hashrow :=
  HashRow (hv_row r) (hv_path r) (hv_hash r) (hv_duplicate r) 1.

(** [duplicate = 1] and [duplicate IS NULL OR duplicate = 0]
    ([dup is None or dup == 0]). *)
Definition is_duplicate (r : hashrow) : bool :=
  bool_decide (hv_duplicate r = Some 1).

Definition is_unmarked (r : hashrow) : bool :=
  bool_decide (hv_duplicate r = None \/ hv_duplicate r = Some 0).

(** The order in which sqlite returns the groups of [GROUP BY hash]: by
    ascending key, [NULL] first, each key once. *)
Definition key_ltb (a b : option string) : bool :=
  match a, b with
  | None, None => false
  | None, Some _ => true
  | Some _, None => false
  | Some x, Some y => String.ltb x y
  end.

Fixpoint insert_key (k : option string) (l : list (option string))
  : list (option string) :=
  match l with
  | [] => [k]
  | y :: l' =>
      if bool_decide (k = y) then l
      else if key_ltb k y then k :: l
      else y :: insert_key k l'
  end.

Definition group_by_hash (hv : list hashrow) : list (option string) :=
  fold_right insert_key [] (map hv_hash hv).

(** The rows of one group ([NULL] is the group of the rows without hash). *)
Definition group_of (hv : list hashrow) (k : option string) : list hashrow :=
  List.filter (fun r => bool_decide (hv_hash r = k)) hv.

(** [... WHERE hash = ?]: no row matches a [NULL] parameter. *)
Definition where_hash (hv : list hashrow) (hash_value : option string)
  : list (nat * hashrow) :=
  match hash_value with
  | None => []
  | Some h => List.filter (fun p => bool_decide (hv_hash p.2 = Some h)) (indexed hv)
  end.

(** [ORDER BY row ASC, _rowid_ ASC] on rows listed in [_rowid_] order: a
    stable sort on [row]. *)
Fixpoint insert_by_row (x : nat * hashrow) (l : list (nat * hashrow))
  : list (nat * hashrow) :=
  match l with
  | [] => [x]
  | y :: l' =>
      if hv_row x.2 <=? hv_row y.2 then x :: y :: l'
      else y :: insert_by_row x l'
  end.

Definition order_by_row (l : list (nat * hashrow)) : list (nat * hashrow) :=
  fold_right insert_by_row [] l.

(** ['/GIT/' not in p.upper() and '.git' not in p]. *)
Definition visible_path (p : string) : bool :=
  negb (Py.contains "/GIT/" (Py.upper p)) && negb (Py.contains ".git" p).

Definition visible (rows : list (nat * hashrow)) : list (nat * hashrow) :=
  List.filter (fun p => visible_path (hv_path p.2)) rows.

(** [str(value)] for a hash handed to [set_metadata]. *)
Definition str_hash (hash_value : option string) : string :=
  match hash_value with
  | Some h => h
  | None => "None"
  end.

(** ** [generate_and_mark_duplicates] *)

(** The group query: hashes with more than one row, not all marked. *)
Definition gmd_hash_rows (hv : list hashrow) : list (option string) :=
  List.filter
    (fun k =>
       let g := group_of hv k in
       (1 <? length g)%nat &&
       (length (List.filter is_duplicate g) <? length g)%nat)
    (group_by_hash hv).

(** The rows fetched for one group, filtered. *)
Definition gmd_visible (hv : list hashrow) (hash_value : option string)
  : list (nat * hashrow) :=
  visible (order_by_row (where_hash hv hash_value)).

(** The rows of [visible[1:]] still to be marked. *)
Definition gmd_to_mark (hv : list hashrow) (hash_value : option string)
  : list (nat * hashrow) :=
  List.filter (fun p => is_unmarked p.2) (tail (gmd_visible hv hash_value)).

Record gmd_state : Type := GmdState {
  gmd_conn : database;
  gmd_processed_groups : Z;
  gmd_duplicate_count : Z;
  gmd_start_skipping : bool
}.

Definition gmd_checkpoint (conn : database) (hash_value : option string)
  (processed_groups : Z) : database :=
  set_metadata (set_metadata conn "dup_last_hash" (str_hash hash_value))
               "dup_processed_count" (Py.str processed_groups).

(** The events of the inner loop over [visible[1:]]: a [group_dup] and the
    running count for every row to mark. *)
Fixpoint gmd_mark_events (count : Z) (rows : list (nat * hashrow)) : list event :=
  match rows with
  | [] => []
  | p :: rows' =>
      EGroupDup (hv_path p.2) :: EDuplicateCount (count + 1)
        :: gmd_mark_events (count + 1) rows'
  end.

(** One iteration of the loop past the cancel check and the resume skip. *)
Definition gmd_group (total_groups : Z) (hash_value : option string)
  (st : gmd_state) : list event * gmd_state :=
  let processed_groups := gmd_processed_groups st + 1 in
  let progress := [EProgress processed_groups total_groups] in
  let conn := gmd_conn st in
  match gmd_visible (hashvalues conn) hash_value with
  | [] =>
      (progress,
       GmdState (gmd_checkpoint conn hash_value processed_groups)
                processed_groups (gmd_duplicate_count st) false)
  | base :: _ =>
      let to_mark := gmd_to_mark (hashvalues conn) hash_value in
      let dup_rowids := map fst to_mark in
      let conn' :=
        with_hashvalues conn (update_rows set_duplicate dup_rowids (hashvalues conn)) in
      (progress ++ [EGroupStart (hv_path base.2)]
         ++ gmd_mark_events (gmd_duplicate_count st) to_mark,
       GmdState (gmd_checkpoint conn' hash_value processed_groups)
                processed_groups
                (gmd_duplicate_count st + Z.of_nat (length to_mark)) false)
  end.

Definition gmd_cancel (hash_value : option string) (st : gmd_state)
  : list event * gmd_state :=
  ([ELog "Duplicate marking cancelled by user"; EStatus "cancelled"],
   GmdState
     (set_metadata
        (set_metadata
           (set_metadata
              (set_metadata (gmd_conn st) "operation_state" "cancelled")
              "last_operation" "calculate_duplicates")
           "dup_last_hash" (str_hash hash_value))
        "dup_processed_count" (Py.str (gmd_processed_groups st)))
     (gmd_processed_groups st) (gmd_duplicate_count st) (gmd_start_skipping st)).

(** [for hash_value in hash_rows: ...], started at poll number [k]. *)
Fixpoint gmd_loop (cancel_event : option (nat -> bool)) (total_groups : Z)
  (last_hash : string) (k : nat) (hash_rows : list (option string))
  (st : gmd_state) : list event * gmd_state * bool :=
  match hash_rows with
  | [] => ([], st, false)
  | hash_value :: rest =>
      if is_cancelled cancel_event k then
        let '(evs, st') := gmd_cancel hash_value st in (evs, st', true)
      else if gmd_start_skipping st then
        gmd_loop cancel_event total_groups last_hash (S k) rest
          (GmdState (gmd_conn st) (gmd_processed_groups st + 1)
             (gmd_duplicate_count st)
             (negb (bool_decide (hash_value = Some last_hash))))
      else
        let '(evs, st') := gmd_group total_groups hash_value st in
        let '(evs', st'', stopped) :=
          gmd_loop cancel_event total_groups last_hash (S k) rest st' in
        (evs ++ evs', st'', stopped)
  end.

Definition gmd_finalize (conn : database) (processed_groups total_groups : Z)
  : database :=
  set_metadata
    (set_metadata
       (set_metadata
          (set_metadata
             (set_metadata conn "operation_state" "idle")
             "last_operation" "calculate_duplicates")
          "dup_last_hash" "")
       "dup_processed_count" (Py.str processed_groups))
    "dup_total_groups" (Py.str total_groups).

Record gmd_result : Type := GmdResult {
  gmd_events : list event;
  gmd_db : option database;
  gmd_outcome : outcome
}.

(** [generate_and_mark_duplicates(db_path, resume, cancel_event)]; [db] is
    [None] when there is no file at [db_path]. *)
Definition generate_and_mark_duplicates (db_path : string) (db : option database)
  (resume : bool) (cancel_event : option (nat -> bool)) : gmd_result :=
  match db with
  | None =>
      GmdResult [EError ("Database not found: " +:+ db_path); EStatus "error"]
                None Failed
  | Some conn =>
      let opening := [EStatus "Preparing duplicate marking";
                      ELog ("Opening DB: " +:+ db_path)] in
      let baselineduplicates :=
        Z.of_nat (length (List.filter is_duplicate (hashvalues conn))) in
      let baseline := [EDuplicateCount baselineduplicates] in
      let hash_rows := gmd_hash_rows (hashvalues conn) in
      let total_groups := Z.of_nat (length hash_rows) in
      if total_groups =? 0 then
        GmdResult
          (opening ++ baseline ++
           [ELog "No duplicate groups to process."; EStatus "done";
            EDuplicateCount 0; EDone])
          (Some conn) Completed
      else
        let prepared : option (database * string * Z * list event) :=
          if resume then
            let last_hash := default "" (get_metadata conn "dup_last_hash" (Some "")) in
            match get_metadata_int conn "dup_processed_count" with
            | None => None
            | Some processed_groups =>
                Some (conn, last_hash, clamp processed_groups total_groups,
                      [ELog (if negb (String.eqb last_hash "")
                             then "Resuming duplicate marking at hash: " +:+ last_hash
                             else "Resuming duplicate marking")])
            end
          else
            Some (set_metadata
                    (set_metadata
                       (set_metadata
                          (set_metadata
                             (set_metadata conn
                                "operation_state" "calculating_duplicates")
                             "last_operation" "calculate_duplicates")
                          "dup_last_hash" "")
                       "dup_processed_count" "0")
                    "dup_total_groups" (Py.str total_groups),
                  "", 0, [])
        in
        match prepared with
        | None => GmdResult (opening ++ baseline) (Some conn) Raised
        | Some (conn1, last_hash, processed_groups, resuming) =>
            let start_skipping := resume && negb (String.eqb last_hash "") in
            let '(evs, st, stopped) :=
              gmd_loop cancel_event total_groups last_hash 0 hash_rows
                (GmdState conn1 processed_groups baselineduplicates start_skipping) in
            let head := opening ++ baseline ++ resuming
                        ++ [EStatus "Scanning duplicate groups"] in
            if stopped then
              GmdResult (head ++ evs) (Some (gmd_conn st)) Cancelled
            else
              GmdResult
                (head ++ evs ++
                 [EStatus "done"; EDuplicateCount (gmd_duplicate_count st);
                  ELog ("Duplicate marking complete. Total duplicates: "
                        +:+ Py.str (gmd_duplicate_count st));
                  EDone])
                (Some (gmd_finalize (gmd_conn st) (gmd_processed_groups st)
                         total_groups))
                Completed
        end
  end.

(** ** [delete_duplicates_generator] *)

(** [os.remove(path)]: the file system without the file, or [None] when
    the call raises (no such file, or removal not permitted). *)
Definition os_remove (fs : gmap string file) (path : string)
  : option (gmap string file) :=
  match fs !! path with
  | Some f => if f_removable f then Some (delete path fs) else None
  | None => None
  end.

(** [duplicate = 1 AND deleted = 0] ([dup == 1 and dflag == 0]). *)
Definition pending_delete (r : hashrow) : bool :=
  is_duplicate r && (hv_deleted r =? 0).

(** The group query: hashes with a row flagged duplicate and not deleted. *)
Definition del_hash_rows (hv : list hashrow) : list (option string) :=
  List.filter
    (fun k => (0 <? length (List.filter pending_delete (group_of hv k)))%nat)
    (group_by_hash hv).

(** The rows fetched for one group ([ORDER BY _rowid_ ASC]), filtered. *)
Definition del_visible (hv : list hashrow) (hash_value : option string)
  : list (nat * hashrow) :=
  visible (where_hash hv hash_value).

(** [to_delete]: the [(rid, path)] of the rows of [visible[1:]] that are
    flagged duplicate and not deleted. *)
Definition del_to_delete (hv : list hashrow) (hash_value : option string)
  : list (nat * string) :=
  map (fun p => (p.1, hv_path p.2))
      (List.filter (fun p => pending_delete p.2) (tail (del_visible hv hash_value))).

Record del_state : Type := DelState {
  del_conn : database;
  del_fs : gmap string file;
  del_processed_groups : Z;
  del_deleted_count : Z;
  del_start_skipping : bool
}.

Definition del_checkpoint (conn : database) (hash_value : option string)
  (processed_groups : Z) : database :=
  set_metadata (set_metadata conn "del_last_hash" (str_hash hash_value))
               "del_processed_count" (Py.str processed_groups).

(** [for (rid, path) in to_delete: ...]. *)
Fixpoint del_files (dry_run : bool) (to_delete : list (nat * string))
  (conn : database) (fs : gmap string file) (deleted_count : Z)
  : list event * database * gmap string file * Z :=
  match to_delete with
  | [] => ([], conn, fs, deleted_count)
  | (rid, path) :: rest =>
      if dry_run then
        let '(evs, conn', fs', n) := del_files dry_run rest conn fs (deleted_count + 1) in
        (EDeleted path :: evs, conn', fs', n)
      else
        match os_remove fs path with
        | Some fs1 =>
            let conn1 :=
              with_hashvalues conn (update_rows set_deleted [rid] (hashvalues conn)) in
            let '(evs, conn', fs', n) :=
              del_files dry_run rest conn1 fs1 (deleted_count + 1) in
            (EDeleted path :: evs, conn', fs', n)
        | None =>
            let '(evs, conn', fs', n) := del_files dry_run rest conn fs deleted_count in
            (ELog ("Failed to delete " +:+ path) :: evs, conn', fs', n)
        end
  end.

(** One iteration of the loop past the cancel check and the resume skip. *)
Definition del_group (dry_run : bool) (total_groups : Z)
  (hash_value : option string) (st : del_state) : list event * del_state :=
  let processed_groups := del_processed_groups st + 1 in
  let progress := [EProgress processed_groups total_groups] in
  let conn := del_conn st in
  match del_visible (hashvalues conn) hash_value with
  | [] =>
      (progress,
       DelState (del_checkpoint conn hash_value processed_groups) (del_fs st)
                processed_groups (del_deleted_count st) false)
  | base :: _ =>
      let to_delete := del_to_delete (hashvalues conn) hash_value in
      let '(evs, conn', fs', n) :=
        del_files dry_run to_delete conn (del_fs st) (del_deleted_count st) in
      (progress ++ evs,
       DelState (del_checkpoint conn' hash_value processed_groups) fs'
                processed_groups n false)
  end.

Definition del_cancel (hash_value : option string) (st : del_state)
  : list event * del_state :=
  ([ELog "Delete operation cancelled by user"; EStatus "cancelled"],
   DelState
     (set_metadata
        (set_metadata
           (set_metadata
              (set_metadata (del_conn st) "operation_state" "cancelled")
              "last_operation" "delete_duplicates")
           "del_last_hash" (str_hash hash_value))
        "del_processed_count" (Py.str (del_processed_groups st)))
     (del_fs st) (del_processed_groups st) (del_deleted_count st)
     (del_start_skipping st)).

(** [for hash_value in hash_rows: ...], started at poll number [k]. *)
Fixpoint del_loop (dry_run : bool) (cancel_event : option (nat -> bool))
  (total_groups : Z) (last_hash : string) (k : nat)
  (hash_rows : list (option string)) (st : del_state)
  : list event * del_state * bool :=
  match hash_rows with
  | [] => ([], st, false)
  | hash_value :: rest =>
      if is_cancelled cancel_event k then
        let '(evs, st') := del_cancel hash_value st in (evs, st', true)
      else if del_start_skipping st then
        del_loop dry_run cancel_event total_groups last_hash (S k) rest
          (DelState (del_conn st) (del_fs st) (del_processed_groups st + 1)
             (del_deleted_count st)
             (negb (bool_decide (hash_value = Some last_hash))))
      else
        let '(evs, st') := del_group dry_run total_groups hash_value st in
        let '(evs', st'', stopped) :=
          del_loop dry_run cancel_event total_groups last_hash (S k) rest st' in
        (evs ++ evs', st'', stopped)
  end.

Definition del_finalize (conn : database) (processed_groups total_groups : Z)
  : database :=
  set_metadata
    (set_metadata
       (set_metadata
          (set_metadata
             (set_metadata conn "operation_state" "idle")
             "last_operation" "delete_duplicates")
          "del_last_hash" "")
       "del_processed_count" (Py.str processed_groups))
    "del_total_groups" (Py.str total_groups).

Record del_result : Type := DelResult {
  del_events : list event;
  del_db : option database;
  del_files_after : gmap string file;
  del_outcome : outcome
}.

(** [delete_duplicates_generator(db_path, resume, cancel_event, dry_run)];
    [db] is [None] when there is no file at [db_path]. *)
Definition delete_duplicates_generator (db_path : string) (db : option database)
  (fs : gmap string file) (resume : bool) (cancel_event : option (nat -> bool))
  (dry_run : bool) : del_result :=
  match db with
  | None =>
      DelResult [EError ("Database not found: " +:+ db_path); EStatus "error"]
                None fs Failed
  | Some conn =>
      let opening := [EStatus "Preparing delete operation";
                      ELog ("Opening DB: " +:+ db_path)] in
      let hash_rows := del_hash_rows (hashvalues conn) in
      let total_groups := Z.of_nat (length hash_rows) in
      if total_groups =? 0 then
        DelResult
          (opening ++
           [ELog "No duplicate groups pending deletion."; EStatus "done"; EDone])
          (Some conn) fs Completed
      else
        let prepared : option (database * string * Z * list event) :=
          if resume then
            let last_hash := default "" (get_metadata conn "del_last_hash" (Some "")) in
            match get_metadata_int conn "del_processed_count" with
            | None => None
            | Some processed_groups =>
                Some (conn, last_hash, clamp processed_groups total_groups,
                      [ELog (if negb (String.eqb last_hash "")
                             then "Resuming delete at hash: " +:+ last_hash
                             else "Resuming delete")])
            end
          else
            Some (set_metadata
                    (set_metadata
                       (set_metadata
                          (set_metadata
                             (set_metadata conn
                                "operation_state" "delete_duplicates")
                             "last_operation" "delete_duplicates")
                          "del_last_hash" "")
                       "del_processed_count" "0")
                    "del_total_groups" (Py.str total_groups),
                  "", 0, [])
        in
        match prepared with
        | None => DelResult opening (Some conn) fs Raised
        | Some (conn1, last_hash, processed_groups, resuming) =>
            let start_skipping := resume && negb (String.eqb last_hash "") in
            let '(evs, st, stopped) :=
              del_loop dry_run cancel_event total_groups last_hash 0 hash_rows
                (DelState conn1 fs processed_groups 0 start_skipping) in
            let head := opening ++ resuming ++ [EStatus "Deleting duplicates"] in
            if stopped then
              DelResult (head ++ evs) (Some (del_conn st)) (del_fs st) Cancelled
            else
              DelResult
                (head ++ evs ++
                 [EStatus "done";
                  ELog ("Delete operation complete. Deleted "
                        +:+ Py.str (del_deleted_count st) +:+ " files.");
                  EDone])
                (Some (del_finalize (del_conn st) (del_processed_groups st)
                         total_groups))
                (del_fs st) Completed
        end
  end.

(** ** [pathlib] and [os.path] on names *)

Module PathName.

(** The list split around the last occurrence of [c]. *)
Fixpoint split_last (c : ascii) (l : list ascii)
  : option (list ascii * list ascii) :=
  match l with
  | [] => None
  | x :: l' =>
      match split_last c l' with
      | Some (a, b) => Some (x :: a, b)
      | None => if Ascii.eqb x c then Some ([], l') else None
      end
  end.

(** [os.path.basename(path)] and [Path(path).name]. *)
Definition basename (path : string) : string :=
  match split_last "/" (list_ascii_of_string path) with
  | Some (_, b) => string_of_list_ascii b
  | None => path
  end.

(** [Path(path).suffix]: from the last dot of the name, unless that dot is
    the first or the last character. *)
Definition suffix (path : string) : string :=
  match split_last "." (list_ascii_of_string (basename path)) with
  | Some (a :: _, (_ :: _) as b) => string_of_list_ascii ("."%char :: b)
  | _ => ""
  end.

(** [Path(path).stem]. *)
Definition stem (path : string) : string :=
  match split_last "." (list_ascii_of_string (basename path)) with
  | Some ((_ :: _) as a, _ :: _) => string_of_list_ascii a
  | _ => basename path
  end.

Definition lower_ascii (c : ascii) : ascii :=
  let n := nat_of_ascii c in
  if ((65 <=? n)%nat && (n <=? 90)%nat)%bool then ascii_of_nat (n + 32) else c.

Fixpoint lower (s : string) : string :=
  match s with
  | EmptyString => EmptyString
  | String c s' => String (lower_ascii c) (lower s')
  end.

(** [s.lstrip('.')]. *)
Fixpoint lstrip_dots (s : string) : string :=
  match s with
  | String c s' => if Ascii.eqb c "." then lstrip_dots s' else s
  | EmptyString => EmptyString
  end.

(** [s.replace(c, '_')] for a one-character [c]. *)
Fixpoint replace_char (c : ascii) (s : string) : string :=
  match s with
  | EmptyString => EmptyString
  | String x s' => String (if Ascii.eqb x c then "_"%char else x) (replace_char c s')
  end.

End PathName.

(** [get_extension_variant(path, mode)]. *)
Definition get_extension_variant (path : string) (mode : string) : string :=
  if String.eqb mode "filename" then
    (if String.eqb (PathName.stem path) "" then "Miscellaneous"
     else PathName.stem path)
  else
    let ext := PathName.lower (PathName.suffix path) in
    if String.eqb ext "" then "Miscellaneous"
    else if String.eqb mode "ext" then PathName.lstrip_dots ext
    else "dot " +:+ PathName.lstrip_dots ext.

(** ** Helpers on [filegroups] and [hashvalues] *)

(** [insert_filegroup_entry]; [now] is the clock reading. *)
Definition insert_filegroup_entry (conn : database)
  (originpath filename extension : string) (filehash : option string)
  (now : string) : database * bool :=
  if existsb (fun g => String.eqb (fg_originpath g) originpath) (filegroups conn)
  then (conn, false)
  else
    (with_filegroups conn
       (filegroups conn ++
        [FgRow originpath None filename extension filehash 0 None now]),
     true).

Definition update_filegroup_copied (conn : database)
  (originpath destinationpath : string) : database :=
  with_filegroups conn
    (map (fun g =>
            if String.eqb (fg_originpath g) originpath
            then FgRow (fg_originpath g) (Some destinationpath) (fg_filename g)
                       (fg_extension g) (fg_hash g) 1 (fg_duplicate g)
                       (fg_created_at g)
            else g)
         (filegroups conn)).

Definition set_filegroup_duplicate (conn : database) (originpath : string)
  : database :=
  with_filegroups conn
    (map (fun g =>
            if String.eqb (fg_originpath g) originpath
            then FgRow (fg_originpath g) (fg_destinationpath g) (fg_filename g)
                       (fg_extension g) (fg_hash g) (fg_copied g) (Some 1)
                       (fg_created_at g)
            else g)
         (filegroups conn)).

(** [get_hash_for_path]: the hash of the first row with that path. *)
Definition get_hash_for_path (conn : database) (path : string) : option string :=
  match List.find (fun r => String.eqb (hv_path r) path) (hashvalues conn) with
  | Some r => hv_hash r
  | None => None
  end.

(** [SELECT MAX(row) FROM hashvalues]. *)
Definition max_row (hv : list hashrow) : option Z :=
  match hv with
  | [] => None
  | r :: hv' => Some (fold_left Z.max (map hv_row hv') (hv_row r))
  end.

(** The [_rowid_] of the first row with that path. *)
Fixpoint find_rowid (path : string) (k : nat) (hv : list hashrow) : option nat :=
  match hv with
  | [] => None
  | r :: hv' =>
      if String.eqb (hv_path r) path then Some k else find_rowid path (S k) hv'
  end.

Definition set_hash (filehash : string) (r : hashrow) : hashrow :=
  HashRow (hv_row r) (hv_path r) (Some filehash) (hv_duplicate r) (hv_deleted r).

Definition insert_or_update_hashvalue (conn : database) (path filehash : string)
  : database :=
  match find_rowid path 0 (hashvalues conn) with
  | Some rid =>
      with_hashvalues conn (update_rows (set_hash filehash) [rid] (hashvalues conn))
  | None =>
      let rownum :=
        match max_row (hashvalues conn) with
        | None => 0
        | Some rowmax => rowmax + 1
        end in
      with_hashvalues conn
        (hashvalues conn ++ [HashRow rownum path (Some filehash) None 0])
  end.

(** [UPDATE hashvalues SET duplicate = 1
     WHERE hash = ? AND (duplicate IS NULL OR duplicate = 0)]. *)
Definition mark_hashvalues_duplicate (conn : database) (hash_value : string)
  : database :=
  with_hashvalues conn
    (map (fun r =>
            if bool_decide (hv_hash r = Some hash_value) && is_unmarked r
            then set_duplicate r else r)
         (hashvalues conn)).

(** [safe_copy(src, dst, overwrite=False)]: nothing is copied onto an
    existing destination; copying raises when the source cannot be read. *)
Definition safe_copy (fs : gmap string file) (src dst : string)
  : gmap string file * bool :=
  match fs !! dst with
  | Some _ => (fs, false)
  | None =>
      match fs !! src with
      | Some f => if f_readable f then (<[dst := f]> fs, true) else (fs, false)
      | None => (fs, false)
      end
  end.

(** [os.path.exists(path)]. *)
Definition path_exists (fs : gmap string file) (path : string) : bool :=
  bool_decide (is_Some (fs !! path)).

(** ** [group_files_generator] *)

(** The mode handed to [get_extension_variant]. *)
Definition fg_mode (grouping_mode : string) : string :=
  if String.eqb grouping_mode "Group by filename" then "filename"
  else if String.eqb grouping_mode "Group by Extension" then "ext"
  else "ext_with_dot".

(** The scan loop ([for path in file_list]), started at poll number [k];
    the boolean tells whether it ended in the cancel branch. *)
Fixpoint fg_scan (cancel_event : option (nat -> bool)) (grouping_mode now : string)
  (k : nat) (files : list string) (conn : database)
  : list event * database * bool :=
  match files with
  | [] => ([], conn, false)
  | path :: rest =>
      if is_cancelled cancel_event k then
        ([ELog "FileGrouper cancelled during build"; EStatus "cancelled"],
         set_metadata conn "fg_operation_state" "cancelled", true)
      else
        let filename := PathName.basename path in
        let extension := get_extension_variant path (fg_mode grouping_mode) in
        let stored_hash := get_hash_for_path conn path in
        let filehash := if Py.truthy stored_hash then stored_hash else None in
        let conn' :=
          (insert_filegroup_entry conn path filename extension filehash now).1 in
        fg_scan cancel_event grouping_mode now (S k) rest conn'
  end.

Record fg_state : Type := FgState {
  fgs_conn : database;
  fgs_fs : gmap string file;
  fgs_new_processed : Z;
  fgs_copied_count : Z;
  fgs_skipped_count : Z
}.

Definition fg_checkpoint (conn : database) (originpath : string)
  (processed_total : Z) : database :=
  set_metadata (set_metadata conn "fg_last_path" originpath)
               "fg_processed_count" (Py.str processed_total).

(** The hash used for an entry: the one stored with it, else the one
    recorded for its path, else the digest computed now (and recorded). *)
Definition fg_obtain_hash (conn : database) (fs : gmap string file)
  (originpath : string) (filehash : option string) : database * option string :=
  if Py.truthy filehash then (conn, filehash)
  else
    let recorded := get_hash_for_path conn originpath in
    if Py.truthy recorded then (conn, recorded)
    else
      match compute_md5 fs originpath with
      | Some h =>
          if Py.truthy (Some h)
          then (insert_or_update_hashvalue conn originpath h, Some h)
          else (conn, Some h)
      | None => (conn, None)
      end.

(** [cnt > 0] for [cnt] the number of rows of [hashvalues] with
    [hash = ?]. *)
Definition fg_is_duplicate (conn : database) (filehash : option string) : bool :=
  match filehash with
  | Some h =>
      Py.truthy filehash &&
      (0 <? length (List.filter (fun r => bool_decide (hv_hash r = Some h))
                                (hashvalues conn)))%nat
  | None => false
  end.

(** [os.path.join(os.path.join(dest_dir, safe_ext), filename)]. *)
Definition fg_destpath (dest_dir extension filename : string) : string :=
  let safe_ext :=
    PathName.replace_char ":" (PathName.replace_char "/" extension) in
  OsPath.join (OsPath.join dest_dir safe_ext) filename.

(** One iteration of the processing loop past the cancel check, for the
    entry [(originpath, filename, extension, filehash)] of the workset. *)
Definition fg_entry (dest_dir : string) (copy_duplicates dry_run : bool)
  (processed total : Z) (entry : fgrow) (st : fg_state) : list event * fg_state :=
  let originpath := fg_originpath entry in
  let new_processed := fgs_new_processed st + 1 in
  let processed_total := processed + new_processed in
  let progress := [EProgress processed_total total] in
  let '(conn, filehash) :=
    fg_obtain_hash (fgs_conn st) (fgs_fs st) originpath (fg_hash entry) in
  if fg_is_duplicate conn filehash && negb copy_duplicates then
    let conn := set_filegroup_duplicate conn originpath in
    let conn := mark_hashvalues_duplicate conn (default "" filehash) in
    (progress ++ [ESkippedDuplicate originpath],
     FgState (fg_checkpoint conn originpath processed_total) (fgs_fs st)
             new_processed (fgs_copied_count st) (fgs_skipped_count st + 1))
  else
    let destpath := fg_destpath dest_dir (fg_extension entry) (fg_filename entry) in
    let '(fs, copied) :=
      if dry_run then (fgs_fs st, false)
      else safe_copy (fgs_fs st) originpath destpath in
    if copied then
      let conn := update_filegroup_copied conn originpath destpath in
      let conn :=
        match filehash with
        | Some h =>
            if Py.truthy filehash
            then insert_or_update_hashvalue conn originpath h else conn
        | None => conn
        end in
      (progress ++ [ECopied originpath],
       FgState (fg_checkpoint conn originpath processed_total) fs
               new_processed (fgs_copied_count st + 1) (fgs_skipped_count st))
    else if path_exists fs destpath then
      let conn := update_filegroup_copied conn originpath destpath in
      (progress ++ [ECopied originpath],
       FgState (fg_checkpoint conn originpath processed_total) fs
               new_processed (fgs_copied_count st + 1) (fgs_skipped_count st))
    else
      (progress ++ [ELog ("Failed to copy: " +:+ originpath +:+ " -> " +:+ destpath)],
       FgState (fg_checkpoint conn originpath processed_total) fs
               new_processed (fgs_copied_count st) (fgs_skipped_count st)).

Definition fg_cancel (processed : Z) (entry : fgrow) (st : fg_state)
  : list event * fg_state :=
  ([ELog "FileGrouper cancelled by user"; EStatus "cancelled"],
   FgState
     (set_metadata
        (set_metadata
           (set_metadata (fgs_conn st) "fg_operation_state" "cancelled")
           "fg_last_path" (fg_originpath entry))
        "fg_processed_count" (Py.str (processed + fgs_new_processed st)))
     (fgs_fs st) (fgs_new_processed st) (fgs_copied_count st)
     (fgs_skipped_count st)).

(** [for (fg_id, originpath, filename, extension, filehash) in rows: ...],
    started at poll number [k]. *)
Fixpoint fg_loop (dest_dir : string) (copy_duplicates dry_run : bool)
  (cancel_event : option (nat -> bool)) (processed total : Z) (k : nat)
  (rows : list fgrow) (st : fg_state) : list event * fg_state * bool :=
  match rows with
  | [] => ([], st, false)
  | entry :: rest =>
      if is_cancelled cancel_event k then
        let '(evs, st') := fg_cancel processed entry st in (evs, st', true)
      else
        let '(evs, st') :=
          fg_entry dest_dir copy_duplicates dry_run processed total entry st in
        let '(evs', st'', stopped) :=
          fg_loop dest_dir copy_duplicates dry_run cancel_event processed total
            (S k) rest st' in
        (evs ++ evs', st'', stopped)
  end.

Record fg_result : Type := FgResult {
  fgr_events : list event;
  fgr_db : option database;
  fgr_fs : gmap string file;
  fgr_outcome : outcome
}.

(** The part of [group_files_generator] after the scan phase. *)
Definition fg_process (dest_dir : string) (copy_duplicates resume dry_run : bool)
  (cancel_event : option (nat -> bool)) (k : nat) (head : list event)
  (conn : database) (fs : gmap string file) : fg_result :=
  let rows := List.filter (fun g => fg_copied g =? 0) (filegroups conn) in
  if (length rows =? 0)%nat then
    FgResult (head ++ [ELog "No files to process (copied=0)"; EStatus "done"; EDone])
             (Some conn) fs Completed
  else
    let total := Z.of_nat (length rows) in
    match (if resume then get_metadata_int conn "fg_processed_count" else Some 0) with
    | None => FgResult head (Some conn) fs Raised
    | Some processed =>
        let processed := clamp processed total in
        let conn1 :=
          set_metadata (set_metadata conn "fg_operation_state" "running")
                       "fg_last_operation" "filegroup_copy" in
        let '(evs, st, stopped) :=
          fg_loop dest_dir copy_duplicates dry_run cancel_event processed total k
            rows (FgState conn1 fs 0 0 0) in
        let head :=
          head ++ [ELog ("Processing " +:+ Py.str total
                         +:+ " filegroup entries (resume="
                         +:+ (if resume then "True" else "False") +:+ ")")] in
        if stopped then
          FgResult (head ++ evs) (Some (fgs_conn st)) (fgs_fs st) Cancelled
        else
          FgResult
            (head ++ evs ++
             [EStatus "done";
              ELog ("FileGrouper complete. Copied: " +:+ Py.str (fgs_copied_count st)
                    +:+ ", Skipped: " +:+ Py.str (fgs_skipped_count st));
              EDone])
            (Some
               (set_metadata
                  (set_metadata
                     (set_metadata
                        (set_metadata
                           (set_metadata (fgs_conn st) "fg_operation_state" "idle")
                           "fg_last_operation" "filegroup_copy")
                        "fg_last_path" "")
                     "fg_processed_count"
                     (Py.str (processed + fgs_new_processed st)))
                  "fg_total_files" (Py.str total)))
            (fgs_fs st) Completed
    end.

(** [group_files_generator(origin_dir, dest_dir, db_path, grouping_mode,
    copy_duplicates, resume, cancel_event, dry_run)].  [dir] is the tree at
    [origin_dir] ([None] when it is not a directory), [dest_available]
    tells whether [dest_dir] is a directory or can be created, [db] is the
    database ([None] when it cannot be opened), [now] the clock reading. *)
Definition group_files_generator (origin_dir dest_dir : string)
  (dir : option tree) (dest_available : bool) (db : option database)
  (fs : gmap string file) (now : string) (grouping_mode : string)
  (copy_duplicates resume : bool) (cancel_event : option (nat -> bool))
  (dry_run : bool) : fg_result :=
  match dir with
  | None =>
      FgResult [EError ("Origin folder does not exist: " +:+ origin_dir);
                EStatus "error"] db fs Failed
  | Some t =>
      if negb dest_available then
        FgResult [EError "Cannot create destination"; EStatus "error"] db fs Failed
      else
        match db with
        | None => FgResult [EError "Database error"; EStatus "error"] db fs Failed
        | Some conn =>
            let head := [EStatus "Preparing filegroup operation";
                         ELog ("Origin: " +:+ origin_dir +:+ " -> Destination: "
                               +:+ dest_dir)] in
            if negb resume then
              let files := file_list_all origin_dir t in
              let total_files := Z.of_nat (length files) in
              let head := head ++ [ELog ("Files found: " +:+ Py.str total_files)] in
              let '(evs, conn1, stopped) :=
                fg_scan cancel_event grouping_mode now 0 files conn in
              if stopped then FgResult (head ++ evs) (Some conn1) fs Cancelled
              else
                let conn2 :=
                  set_metadata
                    (set_metadata
                       (set_metadata
                          (set_metadata conn1 "fg_total_files" (Py.str total_files))
                          "fg_processed_count" "0")
                       "fg_last_path" "")
                    "fg_operation_state" "ready" in
                fg_process dest_dir copy_duplicates resume dry_run cancel_event
                  (length files) head conn2 fs
            else
              fg_process dest_dir copy_duplicates resume dry_run cancel_event
                0 head conn fs
        end
  end.

(** ** [App.run_filegroup] *)

(** The destination check of the callback.  [origin_dir] and [dest_dir] are
    the stripped texts of the two entry fields, both of type [str]:
    [dest_dir.is_relative_to] raises [AttributeError] whenever it is
    reached, so beyond equality the [except] branch decides. *)
Definition destination_rejected (origin_dir dest_dir : string) : bool :=
  String.eqb dest_dir origin_dir ||
  Py.startswith dest_dir (origin_dir +:+ OsPath.sep).

(** The callback, when no other job is active: [None] when it returns
    without starting the job (an empty field, or the destination check
    shows "Invalid Destination"), else the run of the generator it
    starts. *)
Definition run_filegroup (origin_dir dest_dir db_path : string)
  (dir : option tree) (dest_available : bool) (db : option database)
  (fs : gmap string file) (now : string) (grouping_mode copy_duplicates : string)
  (cancel_event : option (nat -> bool)) : option fg_result :=
  if String.eqb origin_dir "" || String.eqb dest_dir "" || String.eqb db_path ""
  then None
  else
    let copy_dups := Py.contains "copy" (PathName.lower copy_duplicates) in
    if destination_rejected origin_dir dest_dir then None
    else Some (group_files_generator origin_dir dest_dir dir dest_available db fs
                 now grouping_mode copy_dups false cancel_event false).

(** ** [delete_empty_folders_generator] *)

(** Phase 1: the number of directories below the root. *)
Fixpoint count_dirs (t : tree) : nat :=
  match t with
  | Node _ dirs =>
      (length dirs + fold_right (fun p n => count_dirs (snd p) + n) 0 dirs)%nat
  end.

(** [not any(folder_path.iterdir())]. *)
Definition is_empty_dir (t : tree) : bool :=
  match t with
  | Node [] [] => true
  | _ => false
  end.

Record pr_state : Type := PrState {
  pr_polls : nat;
  pr_processed : Z;
  pr_deleted_count : Z
}.

(** The body of the loop for one [(root, dirs, files)]: every directory of
    [dirs] is looked at as it is now, after the walk below it. *)
Fixpoint pr_body (rmdir_fails : string -> bool) (dry_run : bool)
  (total_dirs : Z) (root : string) (dirs : list (string * tree)) (st : pr_state)
  : list event * list (string * tree) * pr_state :=
  match dirs with
  | [] => ([], [], st)
  | (d, sub) :: rest =>
      let folder_path := OsPath.join root d in
      let processed := pr_processed st + 1 in
      let '(evs, kept, deleted_count) :=
        if is_empty_dir sub then
          if dry_run then
            ([ELog ("[DRY RUN] Would delete: " +:+ folder_path)],
             [(d, sub)], pr_deleted_count st + 1)
          else if rmdir_fails folder_path then
            ([EError ("Failed to delete " +:+ folder_path)],
             [(d, sub)], pr_deleted_count st)
          else
            ([ELog ("Deleted empty folder: " +:+ folder_path)],
             [], pr_deleted_count st + 1)
        else
          ([ELog ("Not empty: " +:+ folder_path)], [(d, sub)], pr_deleted_count st) in
      let '(evs', rest', st') :=
        pr_body rmdir_fails dry_run total_dirs root rest
          (PrState (pr_polls st) processed deleted_count) in
      (evs ++ [EProgress processed total_dirs] ++ evs', kept ++ rest', st')
  end.

(** [for root, dirs, files in os.walk(start_path, topdown=False): ...]: the
    directories below [root] are walked first, in the order of the scan,
    then [(root, dirs, files)] is yielded to the body.  The boolean tells
    whether the loop ended in the cancel branch. *)
Fixpoint pr_walk (cancel_event : option (nat -> bool))
  (rmdir_fails : string -> bool) (dry_run : bool) (total_dirs : Z)
  (root : string) (t : tree) (st : pr_state)
  : list event * tree * pr_state * bool :=
  match t with
  | Node files dirs =>
      let '(evs, dirs', st', stopped) :=
        (fix below (l : list (string * tree)) (st : pr_state)
           : list event * list (string * tree) * pr_state * bool :=
           match l with
           | [] => ([], [], st, false)
           | p :: l' =>
               let '(evs1, sub', st1, stopped1) :=
                 pr_walk cancel_event rmdir_fails dry_run total_dirs
                   (OsPath.join root (fst p)) (snd p) st in
               if stopped1 then (evs1, (fst p, sub') :: l', st1, true)
               else
                 let '(evs2, l'', st2, stopped2) := below l' st1 in
                 (evs1 ++ evs2, (fst p, sub') :: l'', st2, stopped2)
           end) dirs st in
      if stopped then (evs, Node files dirs', st', true)
      else if is_cancelled cancel_event (pr_polls st') then
        (evs ++ [EStatus "Cancelled by user."; EDone], Node files dirs', st', true)
      else
        let '(evs2, dirs'', st'') :=
          pr_body rmdir_fails dry_run total_dirs root dirs'
            (PrState (S (pr_polls st')) (pr_processed st') (pr_deleted_count st')) in
        (evs ++ evs2, Node files dirs'', st'', false)
  end.

Record pr_result : Type := PrResult {
  pr_events : list event;
  pr_tree : option tree;
  pr_outcome : outcome
}.

(** [delete_empty_folders_generator(startdir, cancel_event, dry_run)].
    [dir] is the tree at the resolved [startdir] ([None] when it is not a
    directory); [rmdir_fails] tells for which paths [rmdir] raises. *)
Definition delete_empty_folders_generator (startdir : string) (dir : option tree)
  (rmdir_fails : string -> bool) (cancel_event : option (nat -> bool))
  (dry_run : bool) : pr_result :=
  match dir with
  | None =>
      PrResult [EError ("Directory does not exist: " +:+ startdir)] None Failed
  | Some t =>
      let scanning :=
        [EStatus ("Scanning for empty folders under: " +:+ startdir)] in
      let total_dirs := Z.of_nat (count_dirs t) in
      if total_dirs =? 0 then
        PrResult (scanning ++ [EStatus "No subdirectories found."; EDone])
                 (Some t) Completed
      else
        let found :=
          [ELog ("Found " +:+ Py.str total_dirs +:+ " directories to evaluate.");
           EStatus "Evaluating directories..."] in
        let '(evs, t', st, stopped) :=
          pr_walk cancel_event rmdir_fails dry_run total_dirs startdir t
            (PrState 0 0 0) in
        if stopped then PrResult (scanning ++ found ++ evs) (Some t') Cancelled
        else
          PrResult
            (scanning ++ found ++ evs ++
             [EStatus ("Deletion complete. Removed "
                       +:+ Py.str (pr_deleted_count st) +:+ " empty folders.");
              EDone])
            (Some t') Completed
  end.

(** ** [App.resume_action] *)

(** The job the Resume button picks, from [last_operation]. *)
Inductive resume_choice : Type :=
| ChooseGenerateSql
| ChooseCalculateDuplicates
| ChooseDeleteDuplicates
| ChooseNothing.

Definition resume_choice_of (conn : database) : resume_choice :=
  let last_op := get_metadata conn "last_operation" None in
  if bool_decide (last_op = Some "generate_sql") then ChooseGenerateSql
  else if bool_decide (last_op = Some "calculate_duplicates")
       then ChooseCalculateDuplicates
  else if bool_decide (last_op = Some "delete_duplicates") then ChooseDeleteDuplicates
  else ChooseNothing.

(** What a press on Resume leads to. *)
Inductive resumed : Type :=
| ResumedGenerateSql (r : gs_result)
| ResumedCalculateDuplicates (r : gmd_result)
| ResumedDeleteDuplicates (r : del_result)
| ResumeDenied
| ResumeNotAvailable
| ResumeNoDatabase.

(** The callback, when no other job is active.  [startdir] and [dbpath]
    are the texts of the entry fields, [db] is [None] when there is no file
    at [dbpath], [confirmed] is the answer to the confirmation dialog shown
    before a delete is resumed. *)
Definition resume_action (startdir dbpath : string) (dir : option tree)
  (fs : gmap string file) (db : option database) (confirmed : bool)
  (cancel_event : option (nat -> bool)) : resumed :=
  match db with
  | None => ResumeNoDatabase
  | Some conn =>
      match resume_choice_of conn with
      | ChooseGenerateSql =>
          ResumedGenerateSql (generate_sql startdir dir fs db true cancel_event)
      | ChooseCalculateDuplicates =>
          ResumedCalculateDuplicates
            (generate_and_mark_duplicates dbpath db true cancel_event)
      | ChooseDeleteDuplicates =>
          if confirmed then
            ResumedDeleteDuplicates
              (delete_duplicates_generator dbpath db fs true cancel_event false)
          else ResumeDenied
      | ChooseNothing => ResumeNotAvailable
      end
  end.

(** ** Notions used to state and prove the properties *)

(** The part of the indexer's state that decides which rows get inserted:
    the rows, the set of recorded paths and the row counter. *)
Definition gs_core (st : gs_state) : list hashrow * gset string * Z :=
  (hashvalues (gs_conn st), gs_existing_paths st, gs_row_counter st).

Definition gs_core_step (fs : gmap string file) (s : list hashrow * gset string * Z)
  (filepath : string) : list hashrow * gset string * Z :=
  let '(hv, existing, row_counter) := s in
  if bool_decide (filepath ∈ existing) then s
  else match compute_md5 fs filepath with
       | None => s
       | Some filehash =>
           (hv ++ [HashRow row_counter filepath (Some filehash) None 0],
            {[filepath]} ∪ existing, row_counter + 1)
       end.

Definition gs_core_run (fs : gmap string file) (files : list string)
  (s : list hashrow * gset string * Z) : list hashrow * gset string * Z :=
  fold_left (gs_core_step fs) files s.

(** The invariants linking the loop state of [generate_sql] to the
    database: the path set is the set of recorded paths, and the stored
    [row_counter] reads back as the counter in use. *)
Definition gs_consistent (st : gs_state) : Prop :=
  gs_existing_paths st = list_to_set (map hv_path (hashvalues (gs_conn st))) /\
  gs_initial_row_counter (gs_conn st) = Some (gs_row_counter st).

(** A recorded hash is the digest of the whole readable file at that path. *)
Definition complete_hash (fs : gmap string file) (r : hashrow) : Prop :=
  exists f, fs !! hv_path r = Some f /\ f_readable f = true /\
            hv_hash r = Some (f_digest f).

(** The paths announced by [("file", path)] events. *)
Definition files_started (evs : list event) : list string :=
  flat_map (fun e => match e with EFile p => [p] | _ => [] end) evs.

(** A file the indexer has nothing left to do for: its path is recorded,
    or it cannot be hashed. *)
Definition gs_settled (fs : gmap string file) (s : list hashrow * gset string * Z)
  (filepath : string) : Prop :=
  filepath ∈ s.1.2 \/ compute_md5 fs filepath = None.

(** The rows left by a run of [generate_sql]. *)
Definition gs_rows (r : gs_result) : option (list hashrow) :=
  hashvalues <$> gs_db r.

(** The state in which the loop of [generate_sql] starts on database [db]. *)
Definition gs_initial_core (db : database) (row_counter : Z)
  : list hashrow * gset string * Z :=
  (hashvalues db, list_to_set (map hv_path (hashvalues db)), row_counter).

(** A small tree with two readable files of equal content and one
    unreadable file, used to exercise the statements. *)
Definition sample_tree : tree :=
  Node ["b.txt"; "a.txt"] [("sub", Node ["c.txt"] [])].

Definition sample_fs : gmap string file :=
  <["/r/a.txt" := File "d41d8cd9" true true]>
  (<["/r/b.txt" := File "d41d8cd9" true true]>
  (<["/r/sub/c.txt" := File "0cc175b9" false true]> ∅)).

(** The token is seen set at the poll of index [n] and not before. *)
Definition cancel_at (n : nat) : option (nat -> bool) :=
  Some (fun k => Nat.leb n k).

(** Two rows that agree on everything a query filters or orders by. *)
Definition same_key (r r' : hashrow) : Prop :=
  hv_row r = hv_row r' /\ hv_path r = hv_path r' /\ hv_hash r = hv_hash r'.

Definition same_entry (p p' : nat * hashrow) : Prop :=
  p.1 = p'.1 /\ same_key p.2 p'.2.


(** What one iteration of DuplicateGrouper does to the table. *)
Definition gmd_mark_group (hash_value : option string) (hv : list hashrow)
  : list hashrow :=
  update_rows set_duplicate (map fst (gmd_to_mark hv hash_value)) hv.

(** [hv] is [hv0] with some rows marked duplicate, each of them a row of
    [visible[1:]] of its group. *)
Definition marked_from (hv0 hv : list hashrow) : Prop :=
  length hv = length hv0 /\
  forall i r, hv0 !! i = Some r ->
    hv !! i = Some r \/
    (hv !! i = Some (set_duplicate r) /\
     exists h, In (i, r) (tail (gmd_visible hv0 h))).

(** Nothing is left to mark in the group of [h]. *)
Definition group_resolved (hv : list hashrow) (h : option string) : Prop :=
  forall i r, In (i, r) (tail (gmd_visible hv h)) -> is_unmarked r = false.





(** Three groups of two copies each. *)
Definition three_groups : list hashrow :=
  [HashRow 0 "/d/a1" (Some "0cc175b9") None 0;
   HashRow 1 "/d/a2" (Some "0cc175b9") None 0;
   HashRow 2 "/d/b1" (Some "92eb5ffe") None 0;
   HashRow 3 "/d/b2" (Some "92eb5ffe") None 0;
   HashRow 4 "/d/c1" (Some "e1671797") None 0;
   HashRow 5 "/d/c2" (Some "e1671797") None 0].

(** The state of DuplicateDeleter against the state [hv0], [fs0] it
    started from: rows differ only by [deleted] set on rows of
    [visible[1:]], and the only files gone are files of such rows. *)
Definition del_inv (hv0 : list hashrow) (fs0 : gmap string file)
  (hv : list hashrow) (fs : gmap string file) : Prop :=
  length hv = length hv0 /\
  (forall i r, hv0 !! i = Some r ->
     hv !! i = Some r \/
     (hv !! i = Some (set_deleted r) /\
      exists h, In (i, r) (tail (del_visible hv0 h)))) /\
  (forall p,
     fs !! p = fs0 !! p \/
     (fs !! p = None /\
      exists i r h, In (i, r) (tail (del_visible hv0 h)) /\ hv_path r = p)).

(** Every candidate of the group of [h] is a file [os.remove] fails on. *)
Definition stuck_group (hv : list hashrow) (fs : gmap string file)
  (h : option string) : Prop :=
  forall i p, In (i, p) (del_to_delete hv h) -> os_remove fs p = None.


(** No [("deleted", path)] event. *)
Definition no_deleted_event (evs : list event) : Prop :=
  forall p, ~ In (EDeleted p) evs.



(** The deleter only ever sets [deleted] and only ever removes files. *)
Definition del_rel (hv : list hashrow) (fs : gmap string file)
  (hv' : list hashrow) (fs' : gmap string file) : Prop :=
  length hv' = length hv /\
  (forall i r, hv !! i = Some r ->
     hv' !! i = Some r \/ hv' !! i = Some (set_deleted r)) /\
  (forall p, fs' !! p = fs !! p \/ fs' !! p = None).



(** One file, never indexed. *)
Definition single_tree : tree := Node ["a.txt"] [].

Definition single_fs : gmap string file :=
  <["/o/a.txt" := File "0cc175b9" true true]> ∅.

(** Two files of the same name and different content, both indexed. *)
Definition same_name_tree : tree :=
  Node [] [("a", Node ["x.txt"] []); ("b", Node ["x.txt"] [])].

Definition same_name_fs : gmap string file :=
  <["/o/a/x.txt" := File "0cc175b9" true true]>
  (<["/o/b/x.txt" := File "92eb5ffe" true true]> ∅).

Definition same_name_db : database :=
  Database [HashRow 0 "/o/a/x.txt" (Some "0cc175b9") None 0;
            HashRow 1 "/o/b/x.txt" (Some "92eb5ffe") None 0] [] ∅.

(** The components of a path: the non-empty pieces between separators. *)
Fixpoint split_path (cur : string) (p : string) : list string :=
  match p with
  | EmptyString => [cur]
  | String c p' =>
      if Ascii.eqb c "/" then cur :: split_path "" p'
      else split_path (cur +:+ String c EmptyString) p'
  end.

Definition components (p : string) : list string :=
  List.filter (fun s => negb (String.eqb s "")) (split_path "" p).

(** "Destination root equal to, or nested inside, the origin root", on the
    directories the two paths denote. *)
Definition inside_or_equal (origin_dir dest_dir : string) : Prop :=
  exists rest, components dest_dir = components origin_dir ++ rest.

(** An origin directory holding one file and the destination directory. *)
Definition nested_tree : tree := Node ["a.txt"] [("out", Node [] [])].

Definition nested_fs : gmap string file :=
  <["/data/a.txt" := File "0cc175b9" true true]> ∅.

(** [done] and [error] are the terminal events of the event contract. *)
Definition is_terminal (e : event) : bool :=
  match e with
  | EDone | EError _ => true
  | _ => false
  end.

Definition terminal_events (evs : list event) : list event :=
  List.filter is_terminal evs.

(** ** Further notions used to state and prove the properties *)

(** The values of the [progress] events, as processed count and total. *)
Definition progress_values (evs : list event) : list (Z * Z) :=
  flat_map (fun e => match e with EProgress p t => [(p, t)] | _ => [] end) evs.

(** The progress values [first + 1, ..., first + n] out of [total]. *)
Definition counted (first total : Z) (n : nat) : list (Z * Z) :=
  map (fun i => (first + Z.of_nat i, total)) (seq 1 n).

(** Two listings of one directory tree: the same files and directories,
    reported by [os.scandir] in another order. *)
#[warnings="-register-all"]
Inductive same_tree : tree -> tree -> Prop :=
| same_tree_node files files' dirs dirs1 dirs' :
    files ≡ₚ files' ->
    dirs ≡ₚ dirs1 ->
    Forall2 (fun p q => fst p = fst q /\ same_tree (snd p) (snd q)) dirs1 dirs' ->
    same_tree (Node files dirs) (Node files' dirs').

(** No directory holds two sub-directories of the same name. *)
Fixpoint distinct_dir_names (t : tree) : Prop :=
  match t with
  | Node _ dirs =>
      NoDup (map fst dirs) /\
      fold_right (fun p rest => distinct_dir_names (snd p) /\ rest) True dirs
  end.

(** The state of DuplicateDeleter against the state it started from: a
    row differs only by [deleted] set, and then it was flagged duplicate
    and not deleted, its file existed and is gone; a file is gone only if
    it is the file of such a row. *)
Definition del_sync (hv0 : list hashrow) (fs0 : gmap string file)
  (hv : list hashrow) (fs : gmap string file) : Prop :=
  length hv = length hv0 /\
  (forall i r, hv0 !! i = Some r ->
     hv !! i = Some r \/
     (hv !! i = Some (set_deleted r) /\ pending_delete r = true /\
      is_Some (fs0 !! hv_path r) /\ fs !! hv_path r = None)) /\
  (forall p,
     fs !! p = fs0 !! p \/
     (fs !! p = None /\
      exists i r, hv0 !! i = Some r /\ hv_path r = p /\
                  pending_delete r = true /\ hv !! i = Some (set_deleted r))).

(** An entry of [filegroups] later in a run: what identifies it stays, and
    [copied] is not reset. *)
Definition fg_evolves (g g' : fgrow) : Prop :=
  fg_originpath g' = fg_originpath g /\ fg_filename g' = fg_filename g /\
  fg_extension g' = fg_extension g /\ fg_hash g' = fg_hash g /\
  fg_created_at g' = fg_created_at g /\
  (fg_copied g = 1 -> fg_copied g' = 1).

(** The destination of an entry is set exactly when it is flagged copied. *)
Definition dest_iff_copied (fg : list fgrow) : Prop :=
  forall g, In g fg -> (fg_copied g = 1 <-> is_Some (fg_destinationpath g)).

(** What GroupingCopier may do to a database: entries stay where they are
    and evolve, origin paths and recorded paths stay unique, destinations
    stay in step with [copied], and only metadata keys starting with [fg_]
    are written. *)
Definition fg_db_rel (conn conn' : database) : Prop :=
  (forall i g, filegroups conn !! i = Some g ->
     exists g', filegroups conn' !! i = Some g' /\ fg_evolves g g') /\
  (NoDup (map fg_originpath (filegroups conn)) ->
   NoDup (map fg_originpath (filegroups conn'))) /\
  (dest_iff_copied (filegroups conn) -> dest_iff_copied (filegroups conn')) /\
  (NoDup (map hv_path (hashvalues conn)) -> NoDup (map hv_path (hashvalues conn'))) /\
  (forall key, String.prefix "fg_" key = false ->
     metadata conn' !! key = metadata conn !! key).

(** No directory below the root is empty. *)
Fixpoint no_empty_dirs (t : tree) : bool :=
  match t with
  | Node _ dirs =>
      forallb (fun p => negb (is_empty_dir (snd p)) && no_empty_dirs (snd p)) dirs
  end.

(** The number of directories below the directories of a list. *)
Definition dirs_count (l : list (string * tree)) : nat :=
  fold_right (fun p n => (count_dirs (snd p) + n)%nat) 0%nat l.

(** The walk below the sub-directories of [root], given the walk of one
    directory: the inner loop of [pr_walk]. *)
Definition pr_below
  (walk : string -> tree -> pr_state -> list event * tree * pr_state * bool)
  (root : string)
  : list (string * tree) -> pr_state
    -> list event * list (string * tree) * pr_state * bool :=
  fix below (l : list (string * tree)) (st : pr_state) :=
    match l with
    | [] => ([], [], st, false)
    | p :: l' =>
        let '(evs1, sub', st1, stopped1) :=
          walk (OsPath.join root (fst p)) (snd p) st in
        if stopped1 then (evs1, (fst p, sub') :: l', st1, true)
        else
          let '(evs2, l'', st2, stopped2) := below l' st1 in
          (evs1 ++ evs2, (fst p, sub') :: l'', st2, stopped2)
    end.

(** The files below the directories of a list. *)
Definition files_below (l : list (string * tree)) (d : string) (ds : list string)
  (f : string) : Prop :=
  exists sub, In (d, sub) l /\ file_at sub ds f.

(** What a walk of the pruner does to a tree and to the counters: the
    files stay, directories only disappear, a dry run changes nothing, a
    real run counts what it removes, the directories are counted one by
    one, and a real run that is neither stopped nor hindered leaves no
    empty directory. *)
Definition pr_walk_ok (cancel_event : option (nat -> bool))
  (rmdir_fails : string -> bool) (dry_run : bool) (total_dirs : Z) (t : tree)
  : Prop :=
  forall root st evs t' st' stopped,
    pr_walk cancel_event rmdir_fails dry_run total_dirs root t st
      = (evs, t', st', stopped) ->
    (forall ds f, file_at t' ds f <-> file_at t ds f) /\
    (count_dirs t' <= count_dirs t)%nat /\
    (dry_run = true -> t' = t) /\
    (dry_run = false ->
     pr_deleted_count st'
       = pr_deleted_count st + Z.of_nat (count_dirs t - count_dirs t')) /\
    (exists n, (n <= count_dirs t)%nat /\
       pr_processed st' = pr_processed st + Z.of_nat n /\
       progress_values evs = counted (pr_processed st) total_dirs n /\
       (stopped = false -> n = count_dirs t)) /\
    (stopped = false -> dry_run = false -> (forall p, rmdir_fails p = false) ->
     no_empty_dirs t' = true).

(** A tree with a chain of empty directories beside a directory holding a
    file. *)
Definition hollow_tree : tree :=
  Node ["keep.txt"]
       [("a", Node [] [("b", Node [] [("c", Node [] [])])]);
        ("d", Node [] [("e", Node ["x.txt"] []); ("f", Node [] [])])].

(** ** Facts about the built-ins *)


Lemma in_insert_sorted {A} (key : A -> string) (x y : A) (l : list A) :
  In y (Py.insert_sorted key x l) <-> y = x \/ In y l.
Proof.
  induction l as [|z l IH]; simpl.
  - intuition.
  - destruct (String.leb (key x) (key z)); simpl; [intuition|].
    rewrite IH. intuition.
Qed.

Lemma in_sort_on {A} (key : A -> string) (y : A) (l : list A) :
  In y (Py.sort_on key l) <-> In y l.
Proof.
  induction l as [|z l IH]; simpl; [tauto|].
  rewrite in_insert_sorted, IH. intuition.
Qed.

Lemma in_sort (y : string) (l : list string) : In y (Py.sort l) <-> In y l.
Proof. apply in_sort_on. Qed.

(** ** FileWalker *)

(** What the walk enumerates: exactly the files that lie below a chain of
    kept directories. *)
Lemma walk_spec (keep : string -> bool) (t : tree) :
  forall root p,
    In p (walk keep root t) <->
    exists ds f, file_at t ds f /\ Forall (fun d => keep d = true) ds /\
                 p = path_of root ds f.
Proof.
  induction t as [files dirs IH] using tree_rect_nested.
  intros root p. simpl. rewrite in_app_iff, in_map_iff, in_concat. split.
  - intros [(f & <- & Hf)|(l & Hl & Hp)].
    + exists [], f. split; [constructor; by apply in_sort|]. by split.
    + apply in_map_iff in Hl as ([d l'] & <- & Hdl). simpl in Hp.
      apply filter_In in Hdl as [Hdl Hk]. simpl in Hk.
      apply in_sort_on, in_map_iff in Hdl as ([d' sub] & Heq & Hsub).
      simpl in Heq. injection Heq as <- <-.
      rewrite List.Forall_forall in IH. specialize (IH _ Hsub). simpl in IH.
      apply IH in Hp as (ds & f & Hat & Hds & ->).
      exists (d' :: ds), f. split; [|split].
      * econstructor; eauto.
      * by constructor.
      * reflexivity.
  - intros (ds & f & Hat & Hds & ->).
    inversion Hat as [? ? ? Hf|? ? d sub ds0 ? H Hat']; subst.
    + left. exists f. split; [reflexivity|by apply in_sort].
    + right. inversion Hds; subst.
      exists (walk keep (OsPath.join root d) sub). split.
      * apply in_map_iff. exists (d, walk keep (OsPath.join root d) sub).
        split; [reflexivity|]. apply filter_In. split; [|assumption].
        apply in_sort_on, in_map_iff. by exists (d, sub).
      * rewrite List.Forall_forall in IH. apply (IH _ H). by exists ds0, f.
Qed.

(** C9 (as amended).  The walk of [generate_sql] enumerates a file exactly
    when it lies below a chain of directories none of which is named "git"
    in some letter case or ".git" in exactly that spelling; so nothing
    below such a directory is enumerated (nor, therefore, hashed). *)
Theorem C9_excluded_directories_not_walked (start_dir : string) (t : tree) (p : string) :
  In p (file_list start_dir t) <->
  exists ds f,
    file_at t ds f /\
    Forall (fun d => Py.upper d <> "GIT" /\ d <> ".git") ds /\
    p = path_of start_dir ds f.
Proof.
  unfold file_list. rewrite walk_spec.
  assert (Hk : forall d, keep_dir d = true <-> Py.upper d <> "GIT" /\ d <> ".git").
  { intros d. unfold keep_dir.
    rewrite andb_true_iff, !negb_true_iff, !String.eqb_neq. tauto. }
  split; intros (ds & f & Hat & Hds & ->); exists ds, f;
    (split; [assumption|split; [|reflexivity]]);
    eapply Forall_impl; eauto; intros d; apply Hk.
Qed.

(** C9 (as stated) fails: ".GIT" equals the reserved name ".git" up to
    letter case, and the file below it is enumerated. *)
Lemma C9_counterexample_upper_case_dot_git :
  Py.upper ".GIT" = Py.upper ".git" /\
  file_at (Node [] [(".GIT", Node ["config"] [])]) [".GIT"] "config" /\
  In "/repo/.GIT/config"
     (file_list "/repo" (Node [] [(".GIT", Node ["config"] [])])).
Proof.
  split; [reflexivity|]. split.
  - econstructor; [by left|]. constructor. by left.
  - vm_compute. by left.
Qed.

(** ** Decimal rendering *)

Lemma int_str (z : Z) : Py.int (Py.str z) = Some z.
Proof.
  unfold Py.int, Py.str. rewrite NilZero.isi.
  - simpl. by rewrite DecimalZ.of_to.
  - destruct z; simpl; try discriminate.
    intros [= H]. by apply (DecimalPos.Unsigned.to_uint_nonnil p).
  - destruct z; simpl; try discriminate.
    intros [= H]. by apply (DecimalPos.Unsigned.to_uint_nonnil p).
Qed.

Lemma str_truthy (z : Z) : Py.truthy (Some (Py.str z)) = true.
Proof.
  simpl. destruct (String.eqb_spec (Py.str z) "") as [E|]; [|done].
  pose proof (int_str z) as H. rewrite E in H. discriminate.
Qed.

(** ** Metadata *)

Lemma hashvalues_set_metadata conn key value :
  hashvalues (set_metadata conn key value) = hashvalues conn.
Proof. reflexivity. Qed.

Lemma filegroups_set_metadata conn key value :
  filegroups (set_metadata conn key value) = filegroups conn.
Proof. reflexivity. Qed.

Lemma metadata_set_metadata conn key value key' :
  metadata (set_metadata conn key value) !! key' =
  if decide (key = key') then Some value else metadata conn !! key'.
Proof. unfold set_metadata. simpl. apply lookup_insert. Qed.

Lemma metadata_set_metadata_eq conn key value :
  metadata (set_metadata conn key value) !! key = Some value.
Proof. rewrite metadata_set_metadata. by rewrite decide_True. Qed.

Lemma metadata_set_metadata_ne conn key value key' :
  key <> key' ->
  metadata (set_metadata conn key value) !! key' = metadata conn !! key'.
Proof. intros. rewrite metadata_set_metadata. by rewrite decide_False. Qed.

#[local] Arguments set_metadata : simpl never.

(** Rewriting under metadata look-ups of nested [set_metadata]. *)
Ltac meta_simpl :=
  repeat first
    [ rewrite metadata_set_metadata_eq
    | rewrite metadata_set_metadata_ne by discriminate
    | rewrite hashvalues_set_metadata
    | rewrite filegroups_set_metadata ].

Lemma gs_initial_row_counter_ext conn conn' :
  metadata conn' !! "row_counter" = metadata conn !! "row_counter" ->
  gs_initial_row_counter conn' = gs_initial_row_counter conn.
Proof.
  intros H. unfold gs_initial_row_counter, get_metadata_int, get_metadata.
  by rewrite H.
Qed.

Lemma gs_initial_row_counter_stored conn z :
  metadata conn !! "row_counter" = Some (Py.str z) ->
  gs_initial_row_counter conn = Some z.
Proof.
  intros H. unfold gs_initial_row_counter, get_metadata_int, get_metadata.
  rewrite H, str_truthy. apply int_str.
Qed.

(** ** The loop of [generate_sql] *)

Lemma gs_step_core fs total filepath st :
  gs_core (gs_step fs total filepath st).2 = gs_core_step fs (gs_core st) filepath.
Proof.
  unfold gs_step, gs_core_step, gs_core. simpl.
  case_bool_decide; [reflexivity|].
  destruct (compute_md5 fs filepath); reflexivity.
Qed.

Lemma gs_step_processed fs total filepath st :
  gs_processed (gs_step fs total filepath st).2 = gs_processed st + 1.
Proof.
  unfold gs_step. case_bool_decide; [reflexivity|].
  destruct (compute_md5 fs filepath); reflexivity.
Qed.

Lemma gs_step_files_started fs total filepath st :
  files_started (gs_step fs total filepath st).1 = [filepath].
Proof.
  unfold gs_step. case_bool_decide; [reflexivity|].
  destruct (compute_md5 fs filepath); reflexivity.
Qed.

Lemma gs_step_consistent fs total filepath st :
  gs_consistent st -> gs_consistent (gs_step fs total filepath st).2.
Proof.
  intros [Hex Hrc]. unfold gs_step, gs_consistent.
  case_bool_decide; [|destruct (compute_md5 fs filepath) as [h|]]; simpl.
  - split; [assumption|]. rewrite <- Hrc.
    apply gs_initial_row_counter_ext. unfold gs_checkpoint. by meta_simpl.
  - split.
    + unfold gs_checkpoint. meta_simpl. simpl.
      rewrite map_app, list_to_set_app_L, Hex. simpl.
      by rewrite (right_id_L ∅ (∪)), (comm_L (∪)).
    + apply gs_initial_row_counter_stored. unfold gs_checkpoint. by meta_simpl.
  - split; [assumption|]. rewrite <- Hrc.
    apply gs_initial_row_counter_ext. unfold gs_checkpoint. by meta_simpl.
Qed.

Lemma files_started_app evs evs' :
  files_started (evs ++ evs') = files_started evs ++ files_started evs'.
Proof. unfold files_started. apply flat_map_app. Qed.

(** What the loop has done when it ends: it went through the first [n]
    files; if it ended in the cancel branch, the token was first seen set
    at file [n], which was not started, and the checkpoint is written. *)
Lemma gs_loop_spec fs cancel_event total :
  forall files k st evs st' stopped,
    gs_loop fs cancel_event total k files st = (evs, st', stopped) ->
    gs_consistent st ->
    exists n : nat,
      (n <= length files)%nat /\
      gs_core st' = gs_core_run fs (take n files) (gs_core st) /\
      gs_consistent st' /\
      files_started evs = take n files /\
      gs_processed st' = gs_processed st + Z.of_nat n /\
      (forall i, (i < n)%nat -> is_cancelled cancel_event (k + i) = false) /\
      if stopped then
        exists filepath evs0,
          files !! n = Some filepath /\
          is_cancelled cancel_event (k + n) = true /\
          evs = evs0 ++ [ELog "Operation cancelled by user"; EStatus "cancelled"] /\
          metadata (gs_conn st') !! "operation_state" = Some "cancelled" /\
          metadata (gs_conn st') !! "last_operation" = Some "generate_sql" /\
          metadata (gs_conn st') !! "last_file" = Some filepath /\
          metadata (gs_conn st') !! "processed_count"
            = Some (Py.str (gs_processed st'))
      else n = length files.
Proof.
  induction files as [|filepath rest IH]; intros k st evs st' stopped Hrun Hst.
  - simpl in Hrun. injection Hrun as <- <- <-. exists 0%nat.
    split; [reflexivity|]. split; [reflexivity|]. split; [assumption|].
    split; [reflexivity|]. split; [simpl; lia|]. split; [intros; lia|].
    reflexivity.
  - simpl in Hrun. destruct (is_cancelled cancel_event k) eqn:Hc.
    + injection Hrun as <- <- <-. exists 0%nat.
      split; [simpl; lia|]. split; [reflexivity|]. split.
      { destruct Hst as [Hex Hrc]. split; [assumption|]. simpl.
        rewrite <- Hrc. apply gs_initial_row_counter_ext. by meta_simpl. }
      split; [reflexivity|]. split; [simpl; lia|]. split; [intros; lia|].
      exists filepath, (@nil event). rewrite Nat.add_0_r.
      cbn [gs_conn gs_processed].
      repeat split; try done; by meta_simpl.
    + destruct (gs_step fs total filepath st) as [evs1 st1] eqn:Hstep.
      destruct (gs_loop fs cancel_event total (S k) rest st1)
        as [[evs2 st2] stopped2] eqn:Hloop.
      injection Hrun as <- <- <-.
      pose proof (gs_step_consistent fs total filepath st Hst) as Hst1.
      pose proof (gs_step_core fs total filepath st) as Hcore1.
      pose proof (gs_step_processed fs total filepath st) as Hp1.
      pose proof (gs_step_files_started fs total filepath st) as Hf1.
      rewrite Hstep in Hst1, Hcore1, Hp1, Hf1. simpl in Hst1, Hcore1, Hp1, Hf1.
      destruct (IH _ _ _ _ _ Hloop Hst1)
        as (n & Hn & Hcore & Hcons & Hfiles & Hproc & Hpolls & Hend).
      exists (S n). split; [simpl; lia|]. split.
      { simpl. unfold gs_core_run in *. simpl. by rewrite <- Hcore1. }
      split; [assumption|]. split.
      { rewrite files_started_app, Hf1, Hfiles. reflexivity. }
      split; [lia|]. split.
      { intros [|i] Hi; [by rewrite Nat.add_0_r|].
        replace (k + S i)%nat with (S k + i)%nat by lia. apply Hpolls. lia. }
      destruct stopped2.
      * destruct Hend as (fp & evs0 & Hfp & Hset & -> & Hmeta).
        exists fp, (evs1 ++ evs0). split; [assumption|]. split.
        { by replace (k + S n)%nat with (S k + n)%nat by lia. }
        split; [by rewrite <- app_assoc|]. assumption.
      * simpl. by rewrite Hend.
Qed.

(** ** Which rows the loop inserts *)

Lemma gs_core_step_settled fs s filepath :
  gs_settled fs s filepath -> gs_core_step fs s filepath = s.
Proof.
  destruct s as [[hv ex] rc]. unfold gs_settled, gs_core_step. simpl.
  intros [Hin|Hno].
  - by rewrite bool_decide_eq_true_2.
  - rewrite Hno. by case_bool_decide.
Qed.

Lemma gs_core_step_settles fs s filepath :
  gs_settled fs (gs_core_step fs s filepath) filepath.
Proof.
  destruct s as [[hv ex] rc]. unfold gs_settled, gs_core_step.
  case_bool_decide; [by left|].
  destruct (compute_md5 fs filepath) eqn:E; [left|by right].
  simpl. set_solver.
Qed.

Lemma gs_core_step_keeps_settled fs s filepath q :
  gs_settled fs s q -> gs_settled fs (gs_core_step fs s filepath) q.
Proof.
  destruct s as [[hv ex] rc]. unfold gs_settled, gs_core_step.
  intros [Hin|Hno]; [|by right]. left.
  case_bool_decide; [assumption|].
  destruct (compute_md5 fs filepath); [|assumption]. simpl in *. set_solver.
Qed.

Lemma gs_core_run_keeps_settled fs files s q :
  gs_settled fs s q -> gs_settled fs (gs_core_run fs files s) q.
Proof.
  revert s. induction files as [|p files IH]; intros s H; [assumption|].
  simpl. apply IH. by apply gs_core_step_keeps_settled.
Qed.

Lemma gs_core_run_settled fs files s :
  Forall (gs_settled fs s) files -> gs_core_run fs files s = s.
Proof.
  induction 1 as [|p files Hp _ IH]; [reflexivity|].
  simpl. rewrite gs_core_step_settled by assumption. apply IH.
Qed.

Lemma gs_core_run_settles fs files s :
  Forall (gs_settled fs (gs_core_run fs files s)) files.
Proof.
  revert s. induction files as [|p files IH]; intros s; constructor.
  - simpl. apply gs_core_run_keeps_settled, gs_core_step_settles.
  - apply IH.
Qed.

Lemma gs_core_run_app fs l1 l2 s :
  gs_core_run fs (l1 ++ l2) s = gs_core_run fs l2 (gs_core_run fs l1 s).
Proof. apply fold_left_app. Qed.

(** Going again through a prefix of the files changes nothing. *)
Lemma gs_core_run_prefix_again fs files n s :
  gs_core_run fs (take n files) (gs_core_run fs files s) = gs_core_run fs files s.
Proof.
  apply gs_core_run_settled.
  pose proof (gs_core_run_settles fs files s) as H.
  rewrite <- (take_drop n files) in H at 2.
  by apply Forall_app in H as [H _].
Qed.

(** Going through all the files after a prefix of them gives what one pass
    gives. *)
Lemma gs_core_run_resume fs files n s :
  gs_core_run fs files (gs_core_run fs (take n files) s) = gs_core_run fs files s.
Proof.
  rewrite <- (take_drop n files) at 1. rewrite gs_core_run_app.
  rewrite (gs_core_run_settled fs (take n files)) by apply gs_core_run_settles.
  rewrite <- gs_core_run_app. by rewrite take_drop.
Qed.

Lemma gs_core_run_cons fs p files s :
  gs_core_run fs (p :: files) s = gs_core_run fs files (gs_core_step fs s p).
Proof. reflexivity. Qed.

Lemma gs_core_step_cases fs hv ex rc p :
  gs_core_step fs (hv, ex, rc) p = (hv, ex, rc) \/
  exists h, compute_md5 fs p = Some h /\
    gs_core_step fs (hv, ex, rc) p =
      (hv ++ [HashRow rc p (Some h) None 0], {[p]} ∪ ex, rc + 1).
Proof.
  unfold gs_core_step. case_bool_decide; [by left|].
  destruct (compute_md5 fs p) as [h|]; [right; by exists h|by left].
Qed.

Lemma compute_md5_complete fs p h rc :
  compute_md5 fs p = Some h -> complete_hash fs (HashRow rc p (Some h) None 0).
Proof.
  unfold compute_md5, complete_hash. simpl.
  destruct (fs !! p) as [f|] eqn:Hf; [|done].
  destruct (f_readable f) eqn:Hr; [|done]. intros [= <-]. by exists f.
Qed.

Lemma gs_core_run_rows fs files hv ex rc :
  exists new,
    (gs_core_run fs files (hv, ex, rc)).1.1 = hv ++ new /\
    Forall (complete_hash fs) new /\
    Forall (fun r => In (hv_path r) files) new.
Proof.
  revert hv ex rc. induction files as [|p files IH]; intros hv ex rc.
  - exists []. simpl. by rewrite app_nil_r.
  - rewrite gs_core_run_cons.
    destruct (gs_core_step_cases fs hv ex rc p) as [->|(h & Hh & ->)].
    + destruct (IH hv ex rc) as (new & -> & Hc & Hp). exists new.
      repeat split; try done. eapply Forall_impl; eauto. simpl. tauto.
    + destruct (IH (hv ++ [HashRow rc p (Some h) None 0]) ({[p]} ∪ ex) (rc + 1))
        as (new & -> & Hc & Hp).
      exists (HashRow rc p (Some h) None 0 :: new).
      split; [by rewrite <- app_assoc|]. split; constructor.
      * by eapply compute_md5_complete.
      * assumption.
      * by left.
      * eapply Forall_impl; eauto. simpl. tauto.
Qed.

(** ** [generate_sql] as a whole *)

Lemma gs_prepare_spec db resume total conn1 processed :
  gs_prepare db resume total = Some (conn1, processed) ->
  hashvalues conn1 = hashvalues db /\
  filegroups conn1 = filegroups db /\
  metadata conn1 !! "row_counter" = metadata db !! "row_counter".
Proof.
  unfold gs_prepare. destruct resume; simpl.
  - destruct (get_metadata_int db "processed_count"); [|done].
    intros [= <- <-]. by meta_simpl.
  - intros [= <- <-]. by meta_simpl.
Qed.

Lemma gs_finalize_spec conn processed total :
  hashvalues (gs_finalize conn processed total) = hashvalues conn /\
  metadata (gs_finalize conn processed total) !! "row_counter"
    = metadata conn !! "row_counter".
Proof. unfold gs_finalize. by meta_simpl. Qed.

(** The three ways a run of [generate_sql] can go: it reports an error
    before touching the database, an [int()] on stored metadata raises
    before the loop, or it enters the loop. *)
Lemma generate_sql_inv start_dir dir fs db resume cancel_event :
  let r := generate_sql start_dir dir fs (Some db) resume cancel_event in
  (gs_db r = Some db /\ gs_outcome r = Failed) \/
  (gs_outcome r = Raised /\
   exists db', gs_db r = Some db' /\ hashvalues db' = hashvalues db) \/
  exists t conn1 processed rc evs st stopped pre,
    let files := file_list start_dir t in
    let total := Z.of_nat (length files) in
    dir = Some t /\
    gs_prepare db resume total = Some (conn1, processed) /\
    gs_initial_row_counter conn1 = Some rc /\
    gs_loop fs cancel_event total 0 files
      (GsState conn1 (list_to_set (map hv_path (hashvalues db))) processed rc)
      = (evs, st, stopped) /\
    gs_events r =
      pre ++ evs ++
      (if stopped then []
       else [EStatus "done"; ELog "Database generation complete."; EDone]) /\
    gs_db r =
      Some (if stopped then gs_conn st
            else gs_finalize (gs_conn st) (gs_processed st) total) /\
    gs_outcome r = (if stopped then Cancelled else Completed) /\
    files_started pre = [].
Proof.
  unfold generate_sql. destruct dir as [t|]; [|by left].
  destruct (Z.of_nat (length (file_list start_dir t)) =? 0); [by left|].
  destruct (gs_prepare db resume _) as [[conn1 processed]|] eqn:Hprep.
  2:{ right; left. split; [reflexivity|]. by exists db. }
  destruct (gs_initial_row_counter conn1) as [rc|] eqn:Hrc.
  2:{ right; left. split; [reflexivity|]. exists conn1.
      split; [reflexivity|]. by apply gs_prepare_spec in Hprep as [? _]. }
  destruct (gs_loop fs cancel_event _ 0 _ _) as [[evs st] stopped] eqn:Hloop.
  right; right.
  exists t, conn1, processed, rc, evs, st, stopped.
  eexists ([_; _] ++ [_; _] ++ [_]).
  split; [reflexivity|]. split; [exact Hprep|]. split; [exact Hrc|].
  split; [exact Hloop|].
  destruct stopped; simpl; rewrite ?app_nil_r; done.
Qed.

(** The loop starts from the rows, the paths and the row counter recorded
    in the database it was given. *)
Lemma gs_start_state db resume total conn1 processed rc :
  gs_prepare db resume total = Some (conn1, processed) ->
  gs_initial_row_counter conn1 = Some rc ->
  let st0 := GsState conn1 (list_to_set (map hv_path (hashvalues db))) processed rc in
  gs_consistent st0 /\ gs_core st0 = gs_initial_core db rc /\
  gs_initial_row_counter db = Some rc.
Proof.
  intros Hprep Hrc. apply gs_prepare_spec in Hprep as (Hhv & _ & Hmeta).
  unfold gs_consistent, gs_core, gs_initial_core. simpl. rewrite Hhv.
  repeat split; try done. rewrite <- Hrc. symmetry.
  by apply gs_initial_row_counter_ext.
Qed.

(** A run that entered the loop, summarised: the rows it leaves are those
    of a pass over the first [n] files, the stored row counter and the
    recorded paths agree with them, and [n] is the whole list unless the
    run was cancelled at file [n]. *)
Lemma generate_sql_run start_dir dir fs db resume cancel_event :
  let r := generate_sql start_dir dir fs (Some db) resume cancel_event in
  gs_outcome r = Completed \/ gs_outcome r = Cancelled ->
  exists t rc n db',
    let files := file_list start_dir t in
    dir = Some t /\ files <> [] /\
    gs_initial_row_counter db = Some rc /\
    (resume = true -> exists z, get_metadata_int db "processed_count" = Some z) /\
    gs_db r = Some db' /\
    (n <= length files)%nat /\
    (forall i, (i < n)%nat -> is_cancelled cancel_event i = false) /\
    (hashvalues db', list_to_set (map hv_path (hashvalues db')),
     default 0 (gs_initial_row_counter db'))
      = gs_core_run fs (take n files) (gs_initial_core db rc) /\
    gs_initial_row_counter db' <> None /\
    (gs_outcome r = Completed -> n = length files) /\
    (gs_outcome r = Cancelled ->
       is_cancelled cancel_event n = true /\
       exists z, metadata db' !! "processed_count" = Some (Py.str z)).
Proof.
  intros r Hout.
  destruct (generate_sql_inv start_dir dir fs db resume cancel_event)
    as [[_ Hf]|[[Hr _]|H]]; fold r in Hf || fold r in Hr || fold r in H.
  { rewrite Hf in Hout. by destruct Hout. }
  { rewrite Hr in Hout. by destruct Hout. }
  destruct H as (t & conn1 & processed & rc & evs & st & stopped & pre & H).
  simpl in H. destruct H as (-> & Hprep & Hrc & Hloop & _ & Hdb & Hout' & _).
  destruct (gs_start_state _ _ _ _ _ _ Hprep Hrc) as (Hcons & Hcore & Hrc0).
  destruct (gs_loop_spec _ _ _ _ _ _ _ _ _ Hloop Hcons)
    as (n & Hn & Hcore' & [Hex Hrc'] & _ & _ & Hpolls & Hend).
  rewrite Hcore in Hcore'. unfold gs_core in Hcore'.
  exists t, rc, n. eexists. split; [reflexivity|]. split.
  { intros E. unfold generate_sql in r. subst r. simpl in *.
    rewrite E in *. simpl in *. by destruct Hout. }
  split; [assumption|]. split.
  { intros ->. unfold gs_prepare in Hprep. simpl in Hprep.
    destruct (get_metadata_int db "processed_count") as [z|]; [by exists z|done]. }
  split; [exact Hdb|]. split; [assumption|]. split; [exact Hpolls|].
  destruct stopped.
  - rewrite Hrc', <- Hex. simpl. split; [assumption|]. split; [done|].
    split; [by rewrite Hout'|]. intros _.
    destruct Hend as (fp & evs0 & _ & Hset & _ & _ & _ & _ & Hpc).
    split; [assumption|]. by eexists.
  - destruct (gs_finalize_spec (gs_conn st) (gs_processed st)
                (Z.of_nat (length (file_list start_dir t)))) as [Hhv Hmeta].
    rewrite (gs_initial_row_counter_ext _ _ Hmeta), Hrc', Hhv, <- Hex. simpl.
    split; [assumption|]. split; [done|]. split; [done|].
    by rewrite Hout'.
Qed.

#[local] Arguments generate_sql : simpl never.

Lemma generate_sql_enters_loop start_dir t fs db resume cancel_event :
  file_list start_dir t <> [] ->
  (resume = true -> exists z, get_metadata_int db "processed_count" = Some z) ->
  gs_initial_row_counter db <> None ->
  let r := generate_sql start_dir (Some t) fs (Some db) resume cancel_event in
  gs_outcome r = Completed \/ gs_outcome r = Cancelled.
Proof.
  intros Hfiles Hpc Hrc. unfold generate_sql.
  destruct (Z.of_nat (length (file_list start_dir t)) =? 0) eqn:E.
  { apply Z.eqb_eq in E. destruct (file_list start_dir t); [done|simpl in E; lia]. }
  destruct (gs_prepare db resume _) as [[conn1 processed]|] eqn:Hprep.
  2:{ unfold gs_prepare in Hprep. destruct resume; [|done]. simpl in Hprep.
      destruct Hpc as [z Hz]; [done|]. by rewrite Hz in Hprep. }
  apply gs_prepare_spec in Hprep as (_ & _ & Hmeta).
  rewrite (gs_initial_row_counter_ext _ _ Hmeta).
  destruct (gs_initial_row_counter db) as [rc|]; [|done].
  destruct (gs_loop fs cancel_event _ 0 _ _) as [[evs st] []]; simpl; auto.
Qed.

Lemma generate_sql_rows_unchanged_or_run start_dir dir fs db resume cancel_event :
  let r := generate_sql start_dir dir fs (Some db) resume cancel_event in
  gs_rows r = Some (hashvalues db) \/
  gs_outcome r = Completed \/ gs_outcome r = Cancelled.
Proof.
  intros r.
  destruct (generate_sql_inv start_dir dir fs db resume cancel_event)
    as [[Hdb _]|[[_ (db' & Hdb & Hhv)]|H]]; fold r in Hdb || fold r in H.
  - left. unfold gs_rows. by rewrite Hdb.
  - left. unfold gs_rows. rewrite Hdb. simpl. by rewrite Hhv.
  - right. destruct H as (? & ? & ? & ? & ? & ? & [] & ? & H); simpl in H;
      destruct H as (_ & _ & _ & _ & _ & _ & -> & _); auto.
Qed.

(** C4.  On a fixed tree, a second fresh run of HashIndexer after a
    completed one leaves the rows of [hashvalues] as they were, whether or
    not it is cancelled; and a run resumed (to completion) after a cancelled
    run leaves exactly the rows that the same run, never cancelled, would
    have left. *)
Theorem C4_indexer_rebuild_and_resume
  (start_dir : string) (dir : option tree) (fs : gmap string file) (db : database) :
  (forall c1 c2,
     let first := generate_sql start_dir dir fs (Some db) false c1 in
     let second := generate_sql start_dir dir fs (gs_db first) false c2 in
     gs_outcome first = Completed ->
     gs_rows second = gs_rows first) /\
  (forall resume c,
     let cancelled := generate_sql start_dir dir fs (Some db) resume c in
     let resumed := generate_sql start_dir dir fs (gs_db cancelled) true None in
     let uninterrupted := generate_sql start_dir dir fs (Some db) resume None in
     gs_outcome cancelled = Cancelled ->
     gs_outcome resumed = Completed /\
     gs_outcome uninterrupted = Completed /\
     gs_rows resumed = gs_rows uninterrupted).
Proof.
  split.
  - intros c1 c2 first second Hdone.
    destruct (generate_sql_run start_dir dir fs db false c1 (or_introl Hdone))
      as (t & rc & n & db1 & Hrun). cbv zeta in Hrun. fold first in Hrun.
    destruct Hrun as (-> & _ & _ & _ & Hdb1 & _ & _ & Hcore1 & Hrc1 & Hn & _).
    rewrite (Hn Hdone), firstn_all in Hcore1.
    destruct (gs_initial_row_counter db1) as [rc1|] eqn:Erc1; [|done].
    simpl in Hcore1. subst second. rewrite Hdb1. unfold gs_rows at 2.
    rewrite Hdb1. simpl.
    destruct (generate_sql_rows_unchanged_or_run start_dir (Some t) fs db1 false c2)
      as [H|H]; [exact H|].
    destruct (generate_sql_run start_dir (Some t) fs db1 false c2 H)
      as (t' & rc1' & n2 & db2 & Hrun2). cbv zeta in Hrun2.
    destruct Hrun2 as ([= <-] & _ & Hrc1' & _ & Hdb2 & _ & _ & Hcore2 & _).
    rewrite Erc1 in Hrc1'. injection Hrc1' as <-.
    unfold gs_initial_core in Hcore2 at 1. rewrite Hcore1 in Hcore2.
    rewrite gs_core_run_prefix_again, <- Hcore1 in Hcore2.
    unfold gs_rows. rewrite Hdb2. simpl. by injection Hcore2 as ->.
  - intros resume c cancelled resumed uninterrupted Hcan.
    destruct (generate_sql_run start_dir dir fs db resume c (or_intror Hcan))
      as (t & rc & n & dbA & HrunA). cbv zeta in HrunA. fold cancelled in HrunA.
    destruct HrunA
      as (-> & Hfiles & Hrc & Hpc & HdbA & _ & _ & HcoreA & HrcA & _ & HcanA).
    destruct (HcanA Hcan) as (_ & z & Hz).
    destruct (gs_initial_row_counter dbA) as [rcA|] eqn:ErcA; [|done].
    simpl in HcoreA. subst resumed. rewrite HdbA.
    (* the resumed run and the uninterrupted run both enter the loop *)
    assert (HB : gs_outcome (generate_sql start_dir (Some t) fs (Some dbA) true None)
                 = Completed \/
                 gs_outcome (generate_sql start_dir (Some t) fs (Some dbA) true None)
                 = Cancelled).
    { apply generate_sql_enters_loop; [assumption| |by rewrite ErcA].
      intros _. exists z. unfold get_metadata_int, get_metadata.
      rewrite Hz. apply int_str. }
    assert (HU : gs_outcome uninterrupted = Completed \/
                 gs_outcome uninterrupted = Cancelled).
    { apply generate_sql_enters_loop; [assumption|assumption|by rewrite Hrc]. }
    destruct (generate_sql_run start_dir (Some t) fs dbA true None HB)
      as (t' & rcA' & nB & dbB & HrunB). cbv zeta in HrunB.
    destruct HrunB as ([= <-] & _ & HrcA' & _ & HdbB & _ & _ & HcoreB & _ & HnB & HcB).
    destruct (generate_sql_run start_dir (Some t) fs db resume None HU)
      as (t' & rc' & nU & dbU & HrunU). cbv zeta in HrunU. fold uninterrupted in HrunU.
    destruct HrunU as ([= <-] & _ & Hrc' & _ & HdbU & _ & _ & HcoreU & _ & HnU & HcU).
    assert (HBdone : gs_outcome (generate_sql start_dir (Some t) fs (Some dbA) true None)
                     = Completed).
    { destruct HB as [|HB]; [assumption|]. by destruct (HcB HB) as [? _]. }
    assert (HUdone : gs_outcome uninterrupted = Completed).
    { destruct HU as [|HU]; [assumption|]. by destruct (HcU HU) as [? _]. }
    split; [assumption|]. split; [assumption|].
    rewrite (HnB HBdone), firstn_all in HcoreB.
    rewrite (HnU HUdone), firstn_all in HcoreU.
    rewrite ErcA in HrcA'. injection HrcA' as <-.
    rewrite Hrc in Hrc'. injection Hrc' as <-.
    unfold gs_initial_core in HcoreB at 1. rewrite HcoreA in HcoreB.
    rewrite gs_core_run_resume, <- HcoreU in HcoreB.
    unfold gs_rows. rewrite HdbB, HdbU. simpl. by injection HcoreB as ->.
Qed.

Lemma C4_indexer_rebuild_and_resume_witness :
  let run := generate_sql "/r" (Some sample_tree) sample_fs in
  gs_rows (run (gs_db (run (Some empty_db) false None)) false None)
    = gs_rows (run (Some empty_db) false None) /\
  gs_rows (run (gs_db (run (Some empty_db) false (cancel_at 1))) true None)
    = gs_rows (run (Some empty_db) false None).
Proof.
  split.
  - apply (proj1 (C4_indexer_rebuild_and_resume
                    "/r" (Some sample_tree) sample_fs empty_db) None None).
    vm_compute. reflexivity.
  - apply (proj2 (C4_indexer_rebuild_and_resume
                    "/r" (Some sample_tree) sample_fs empty_db) false (cancel_at 1)).
    vm_compute. reflexivity.
Defined.

(** C7.  Every row a run of HashIndexer inserts carries the digest of the
    whole (readable) file at its path.  When the run observes the
    cancellation token set, at the poll before file number [n], it writes
    the checkpoint ([operation_state = cancelled], the file it stopped at,
    the number of files gone through), reports the cancellation as its last
    events, and has neither started nor recorded file [n] or any later
    one. *)
Theorem C7_cancelled_indexer_checkpoint
  (start_dir : string) (dir : option tree) (fs : gmap string file)
  (db : database) (resume : bool) (cancel_event : option (nat -> bool)) :
  let r := generate_sql start_dir dir fs (Some db) resume cancel_event in
  (exists db' new,
     gs_db r = Some db' /\ hashvalues db' = hashvalues db ++ new /\
     Forall (complete_hash fs) new) /\
  (gs_outcome r = Cancelled ->
   exists t n filepath db' evs new conn1 processed,
     let files := file_list start_dir t in
     dir = Some t /\
     files !! n = Some filepath /\
     is_cancelled cancel_event n = true /\
     (forall i, (i < n)%nat -> is_cancelled cancel_event i = false) /\
     gs_db r = Some db' /\
     metadata db' !! "operation_state" = Some "cancelled" /\
     metadata db' !! "last_operation" = Some "generate_sql" /\
     metadata db' !! "last_file" = Some filepath /\
     gs_prepare db resume (Z.of_nat (length files)) = Some (conn1, processed) /\
     metadata db' !! "processed_count" = Some (Py.str (processed + Z.of_nat n)) /\
     gs_events r = evs ++ [ELog "Operation cancelled by user"; EStatus "cancelled"] /\
     files_started (gs_events r) = take n files /\
     hashvalues db' = hashvalues db ++ new /\
     Forall (fun row => In (hv_path row) (take n files)) new).
Proof.
  intros r.
  destruct (generate_sql_inv start_dir dir fs db resume cancel_event)
    as [[Hdb Hf]|[[Hr (db' & Hdb & Hhv)]|H]];
    fold r in Hdb || fold r in H; try fold r in Hf; try fold r in Hr.
  { split; [|by rewrite Hf]. exists db, []. by rewrite app_nil_r. }
  { split; [|by rewrite Hr]. exists db', []. by rewrite app_nil_r. }
  destruct H as (t & conn1 & processed & rc & evs & st & stopped & pre & H).
  cbv zeta in H. destruct H as (-> & Hprep & Hrc & Hloop & Hevs & Hdb & Hout & Hpre).
  destruct (gs_start_state _ _ _ _ _ _ Hprep Hrc) as (Hcons & Hcore & _).
  destruct (gs_loop_spec _ _ _ _ _ _ _ _ _ Hloop Hcons)
    as (n & Hn & Hcore' & _ & Hfiles & Hproc & Hpolls & Hend).
  rewrite Hcore in Hcore'. unfold gs_initial_core in Hcore'.
  destruct (gs_core_run_rows fs (take n (file_list start_dir t)) (hashvalues db)
              (list_to_set (map hv_path (hashvalues db))) rc)
    as (new & Hnew & Hcomplete & Hpaths).
  rewrite <- Hcore' in Hnew. simpl in Hnew.
  split.
  - eexists. exists new. split; [exact Hdb|]. split; [|assumption].
    destruct stopped; [assumption|].
    by rewrite (proj1 (gs_finalize_spec _ _ _)).
  - intros Hcan. rewrite Hcan in Hout. destruct stopped; [|done].
    destruct Hend as (fp & evs0 & Hfp & Hset & -> & Hop & Hlast & Hfile & Hpc).
    exists t, n, fp, (gs_conn st), (pre ++ evs0), new, conn1, processed.
    cbv zeta. split; [reflexivity|]. split; [assumption|].
    split; [assumption|]. split; [exact Hpolls|]. split; [assumption|].
    split; [assumption|]. split; [assumption|]. split; [assumption|].
    split; [assumption|]. split; [by rewrite Hpc, Hproc|]. split.
    { rewrite Hevs, app_nil_r. by rewrite app_assoc. }
    split; [|by split].
    rewrite Hevs, app_nil_r, files_started_app, Hpre. exact Hfiles.
Qed.

Lemma C7_cancelled_indexer_checkpoint_witness :
  let r := generate_sql "/r" (Some sample_tree) sample_fs (Some empty_db)
             false (cancel_at 1) in
  exists db',
    gs_db r = Some db' /\
    metadata db' !! "operation_state" = Some "cancelled" /\
    metadata db' !! "last_file" = Some "/r/b.txt" /\
    files_started (gs_events r) = ["/r/a.txt"].
Proof.
  destruct (proj2 (C7_cancelled_indexer_checkpoint
                     "/r" (Some sample_tree) sample_fs empty_db false (cancel_at 1)))
    as (t & n & filepath & db' & evs & new & conn1 & processed & H).
  { vm_compute. reflexivity. }
  cbv zeta in H.
  destruct H as (Ht & Hfile & Hset & Hpolls & Hdb & Hop & _ & Hlast & _ & _ & _
                 & Hstarted & _).
  injection Ht as <-.
  assert (n = 1%nat) as ->.
  { destruct n as [|[|n]]; [by vm_compute in Hset|reflexivity|].
    specialize (Hpolls 1%nat ltac:(lia)). by vm_compute in Hpolls. }
  exists db'. split; [assumption|]. split; [assumption|]. split.
  - rewrite Hlast. f_equal. vm_compute in Hfile. by injection Hfile as <-.
  - rewrite Hstarted. reflexivity.
Defined.

(** ** Tables and queries *)

Lemma in_indexed_from {A} (g : nat -> nat) (rows : list A) (p : nat * A) :
  In p (imap (fun i r => (g i, r)) rows) <->
  exists i, p.1 = g i /\ rows !! i = Some p.2.
Proof.
  rewrite <- list_elem_of_In, elem_of_lookup_imap. destruct p as [j r]. simpl.
  split.
  - intros (i & x & [= -> ->] & Hx). by exists i.
  - intros (i & -> & Hx). by exists i, r.
Qed.

Lemma in_indexed {A} (rows : list A) (i : nat) (r : A) :
  In (i, r) (indexed rows) <-> rows !! i = Some r.
Proof.
  unfold indexed. rewrite (in_indexed_from id). simpl. split.
  - by intros (j & -> & H).
  - intros H. by exists i.
Qed.

Lemma update_rows_lookup f ids hv i :
  update_rows f ids hv !! i =
  (fun r => if bool_decide (i ∈ ids) then f r else r) <$> hv !! i.
Proof. unfold update_rows. apply list_lookup_imap. Qed.

Lemma update_rows_length f ids hv : length (update_rows f ids hv) = length hv.
Proof. unfold update_rows. apply length_imap. Qed.

Lemma update_rows_nil f hv : update_rows f [] hv = hv.
Proof.
  apply list_eq. intros i. rewrite update_rows_lookup.
  rewrite bool_decide_eq_false_2 by apply not_elem_of_nil.
  by destruct (hv !! i).
Qed.

Lemma in_insert_key k y l : In y (insert_key k l) <-> y = k \/ In y l.
Proof.
  induction l as [|z l IH]; simpl; [intuition|].
  case_bool_decide as E; [subst; simpl; intuition|].
  destruct (key_ltb k z); simpl; [intuition|]. rewrite IH. intuition.
Qed.

Lemma in_group_by_hash k hv : In k (group_by_hash hv) <-> In k (map hv_hash hv).
Proof.
  unfold group_by_hash. induction (map hv_hash hv) as [|z l IH]; simpl; [tauto|].
  rewrite in_insert_key, IH. intuition.
Qed.

Lemma in_where_hash hv h i r :
  In (i, r) (where_hash hv h) <-> hv !! i = Some r /\ hv_hash r = h /\ h <> None.
Proof.
  destruct h as [h|]; simpl.
  - rewrite filter_In, in_indexed, bool_decide_eq_true. simpl.
    intuition discriminate.
  - intuition.
Qed.

Lemma in_insert_by_row x y l : In y (insert_by_row x l) <-> y = x \/ In y l.
Proof.
  induction l as [|z l IH]; simpl; [intuition|].
  destruct (hv_row x.2 <=? hv_row z.2); simpl; [intuition|].
  rewrite IH. intuition.
Qed.

Lemma in_order_by_row y l : In y (order_by_row l) <-> In y l.
Proof.
  induction l as [|z l IH]; simpl; [tauto|].
  rewrite in_insert_by_row, IH. intuition.
Qed.

Lemma length_insert_by_row x l : length (insert_by_row x l) = S (length l).
Proof.
  induction l as [|z l IH]; simpl; [done|].
  destruct (hv_row x.2 <=? hv_row z.2); simpl; [done|]. by rewrite IH.
Qed.

Lemma length_order_by_row l : length (order_by_row l) = length l.
Proof.
  induction l as [|z l IH]; simpl; [done|]. by rewrite length_insert_by_row, IH.
Qed.

Lemma in_tail {A} (x : A) (l : list A) : In x (tail l) -> In x l.
Proof. destruct l; simpl; auto. Qed.

Lemma in_gmd_visible hv h i r :
  In (i, r) (gmd_visible hv h) ->
  hv !! i = Some r /\ hv_hash r = h /\ visible_path (hv_path r) = true.
Proof.
  unfold gmd_visible, visible. rewrite filter_In, in_order_by_row, in_where_hash.
  simpl. tauto.
Qed.

(** *** Queries on tables that differ in flags only *)

Lemma Forall2_indexed_from (R : hashrow -> hashrow -> Prop) (g : nat -> nat) hv hv' :
  Forall2 R hv hv' ->
  Forall2 (fun p p' => p.1 = p'.1 /\ R p.2 p'.2)
          (imap (fun i r => (g i, r)) hv) (imap (fun i r => (g i, r)) hv').
Proof.
  intros H. revert g. induction H as [|r r' hv hv' Hr _ IH]; intros g; simpl.
  - constructor.
  - constructor; [done|]. apply (IH (g ∘ S)).
Qed.

Lemma Forall2_filter_compat {A} (R : A -> A -> Prop) (p : A -> bool) l l' :
  (forall x y, R x y -> p x = p y) ->
  Forall2 R l l' -> Forall2 R (List.filter p l) (List.filter p l').
Proof.
  intros Hp H. induction H as [|x y l l' Hxy _ IH]; simpl; [constructor|].
  rewrite <- (Hp _ _ Hxy). destruct (p x); [by constructor|done].
Qed.

Lemma Forall2_insert_by_row x x' l l' :
  same_entry x x' -> Forall2 same_entry l l' ->
  Forall2 same_entry (insert_by_row x l) (insert_by_row x' l').
Proof.
  intros Hx H. induction H as [|y y' l l' Hy Hl IH]; simpl.
  - constructor; [done|constructor].
  - pose proof Hx as [_ (Hxr & _)]. pose proof Hy as [_ (Hyr & _)].
    rewrite <- Hxr, <- Hyr.
    destruct (hv_row x.2 <=? hv_row y.2).
    + constructor; [done|]. by constructor.
    + by constructor.
Qed.

Lemma Forall2_order_by_row l l' :
  Forall2 same_entry l l' -> Forall2 same_entry (order_by_row l) (order_by_row l').
Proof.
  induction 1; simpl; [constructor|]. by apply Forall2_insert_by_row.
Qed.

Lemma Forall2_gmd_visible hv hv' h :
  Forall2 same_key hv hv' ->
  Forall2 same_entry (gmd_visible hv h) (gmd_visible hv' h).
Proof.
  intros H. unfold gmd_visible, visible.
  apply Forall2_filter_compat.
  { intros x y [_ (_ & Hp & _)]. by rewrite Hp. }
  apply Forall2_order_by_row. destruct h as [h|]; simpl; [|constructor].
  apply Forall2_filter_compat.
  { intros x y [_ (_ & _ & Hh)]. by rewrite Hh. }
  unfold indexed. by apply (Forall2_indexed_from same_key id).
Qed.

Lemma Forall2_tail {A B} (R : A -> B -> Prop) l l' :
  Forall2 R l l' -> Forall2 R (tail l) (tail l').
Proof. destruct 1; simpl; [constructor|done]. Qed.

Lemma Forall2_same_entry_in l l' i r :
  Forall2 same_entry l l' -> In (i, r) l ->
  exists r', In (i, r') l' /\ same_key r r'.
Proof.
  induction 1 as [|x y l l' [Hx Hk] _ IH]; simpl; [done|].
  intros [->|Hin].
  - exists y.2. simpl in *. split; [left; by destruct y; simpl in *; subst|done].
  - destruct (IH Hin) as (r' & ? & ?). eauto.
Qed.

Lemma same_key_sym r r' : same_key r r' -> same_key r' r.
Proof. unfold same_key. intuition. Qed.

Lemma Forall2_same_entry_sym l l' :
  Forall2 same_entry l l' -> Forall2 same_entry l' l.
Proof.
  induction 1 as [|x y l l' [Hx Hk]]; constructor; [|done].
  split; [done|by apply same_key_sym].
Qed.

(** ** DuplicateGrouper *)

Lemma set_duplicate_same_key r : same_key r (set_duplicate r).
Proof. by repeat split. Qed.

Lemma set_duplicate_idemp r : set_duplicate (set_duplicate r) = set_duplicate r.
Proof. reflexivity. Qed.

Lemma set_duplicate_marked r : is_unmarked (set_duplicate r) = false.
Proof. apply bool_decide_eq_false_2. simpl. intros [|]; discriminate. Qed.

Lemma marked_from_refl hv : marked_from hv hv.
Proof. split; [done|]. intros i r H. by left. Qed.

Lemma marked_from_same_key hv0 hv :
  marked_from hv0 hv -> Forall2 same_key hv0 hv.
Proof.
  intros [Hlen H]. apply Forall2_same_length_lookup. split; [done|].
  intros i r r' Hr Hr'. destruct (H i r Hr) as [E|[E _]];
    rewrite E in Hr'; injection Hr' as <-; [done|apply set_duplicate_same_key].
Qed.

(** Rows of [visible[1:]] are the same rows, by [_rowid_], in two tables
    that differ in flags only. *)
Lemma tail_visible_transfer hv hv' h i r :
  Forall2 same_key hv hv' ->
  In (i, r) (tail (gmd_visible hv h)) ->
  exists r', In (i, r') (tail (gmd_visible hv' h)) /\ hv' !! i = Some r'.
Proof.
  intros Hk Hin.
  destruct (Forall2_same_entry_in _ _ i r
              (Forall2_tail _ _ _ (Forall2_gmd_visible hv hv' h Hk)) Hin)
    as (r' & Hin' & _).
  exists r'. split; [done|]. by apply in_tail, in_gmd_visible in Hin' as [? _].
Qed.

Lemma gmd_group_hashvalues total h st :
  hashvalues (gmd_conn (gmd_group total h st).2)
  = gmd_mark_group h (hashvalues (gmd_conn st)).
Proof.
  unfold gmd_group, gmd_mark_group, gmd_to_mark.
  destruct (gmd_visible (hashvalues (gmd_conn st)) h) eqn:E; simpl.
  - by rewrite update_rows_nil.
  - reflexivity.
Qed.

Lemma gmd_group_not_skipping total h st :
  gmd_start_skipping (gmd_group total h st).2 = false.
Proof.
  unfold gmd_group. by destruct (gmd_visible (hashvalues (gmd_conn st)) h).
Qed.

Lemma gmd_mark_group_lookup h hv i r :
  hv !! i = Some r ->
  gmd_mark_group h hv !! i =
    Some (if bool_decide (i ∈ map fst (gmd_to_mark hv h))
          then set_duplicate r else r).
Proof. intros H. unfold gmd_mark_group. by rewrite update_rows_lookup, H. Qed.

Lemma in_gmd_to_mark hv h i :
  i ∈ map fst (gmd_to_mark hv h) <->
  exists r, In (i, r) (tail (gmd_visible hv h)) /\ is_unmarked r = true.
Proof.
  rewrite list_elem_of_In, in_map_iff. unfold gmd_to_mark. split.
  - intros ([j r] & <- & H). apply filter_In in H. by exists r.
  - intros (r & H1 & H2). exists (i, r). split; [done|]. by apply filter_In.
Qed.

(** One iteration keeps the table a marking of the initial one. *)
Lemma marked_from_step hv0 hv h :
  marked_from hv0 hv -> marked_from hv0 (gmd_mark_group h hv).
Proof.
  intros Hm. pose proof (marked_from_same_key _ _ Hm) as Hk.
  destruct Hm as [Hlen Hm]. split.
  { unfold gmd_mark_group. by rewrite update_rows_length. }
  intros i r Hr. destruct (Hm i r Hr) as [E|[E Hin]].
  - rewrite (gmd_mark_group_lookup _ _ _ _ E). case_bool_decide as Hi; [|by left].
    right. split; [done|]. exists h.
    apply in_gmd_to_mark in Hi as (r1 & Hin & _).
    apply Forall2_flip in Hk.
    assert (Hk' : Forall2 same_key hv hv0).
    { eapply Forall2_impl; [exact Hk|]. intros ? ?. apply same_key_sym. }
    destruct (tail_visible_transfer hv hv0 h i r1 Hk' Hin) as (r0 & Hin0 & Hr0).
    rewrite Hr in Hr0. by injection Hr0 as <-.
  - rewrite (gmd_mark_group_lookup _ _ _ _ E). right. split; [|done].
    by case_bool_decide.
Qed.

(** After its iteration, a group has nothing left to mark. *)
Lemma group_resolved_step hv h : group_resolved (gmd_mark_group h hv) h.
Proof.
  intros i r Hin.
  assert (Hk : Forall2 same_key (gmd_mark_group h hv) hv).
  { apply Forall2_same_length_lookup. split.
    { unfold gmd_mark_group. by rewrite update_rows_length. }
    intros j x y Hx Hy. rewrite (gmd_mark_group_lookup _ _ _ _ Hy) in Hx.
    injection Hx as <-. case_bool_decide; [|done].
    apply same_key_sym, set_duplicate_same_key. }
  destruct (tail_visible_transfer _ _ h i r Hk Hin) as (r0 & Hin0 & Hr0).
  apply in_tail, in_gmd_visible in Hin as [Hr _].
  rewrite (gmd_mark_group_lookup _ _ _ _ Hr0) in Hr. injection Hr as <-.
  case_bool_decide as Hi; [apply set_duplicate_marked|].
  destruct (is_unmarked r0) eqn:Hu; [|done].
  exfalso. apply Hi, in_gmd_to_mark. by exists r0.
Qed.

(** A later iteration, on any group, leaves a resolved group resolved. *)
Lemma group_resolved_keep hv h h' :
  group_resolved hv h -> group_resolved (gmd_mark_group h' hv) h.
Proof.
  intros Hres i r Hin.
  assert (Hk : Forall2 same_key (gmd_mark_group h' hv) hv).
  { apply Forall2_same_length_lookup. split.
    { unfold gmd_mark_group. by rewrite update_rows_length. }
    intros j x y Hx Hy. rewrite (gmd_mark_group_lookup _ _ _ _ Hy) in Hx.
    injection Hx as <-. case_bool_decide; [|done].
    apply same_key_sym, set_duplicate_same_key. }
  destruct (tail_visible_transfer _ _ h i r Hk Hin) as (r0 & Hin0 & Hr0).
  apply in_tail, in_gmd_visible in Hin as [Hr _].
  rewrite (gmd_mark_group_lookup _ _ _ _ Hr0) in Hr. injection Hr as <-.
  case_bool_decide; [apply set_duplicate_marked|]. by apply (Hres i).
Qed.

(** The loop of a run that does not skip and is not cancelled: every group
    of the list is resolved at the end, every group resolved before stays
    so, and only rows of [visible[1:]] were marked. *)
Lemma gmd_loop_fresh cancel_event total last_hash hv0 :
  forall hash_rows k st evs st',
    gmd_loop cancel_event total last_hash k hash_rows st = (evs, st', false) ->
    gmd_start_skipping st = false ->
    marked_from hv0 (hashvalues (gmd_conn st)) ->
    marked_from hv0 (hashvalues (gmd_conn st')) /\
    (forall h, In h hash_rows \/ group_resolved (hashvalues (gmd_conn st)) h ->
               group_resolved (hashvalues (gmd_conn st')) h).
Proof.
  induction hash_rows as [|h rest IH]; intros k st evs st' Hrun Hskip Hm.
  - simpl in Hrun. injection Hrun as <- <-. split; [done|].
    by intros h [[]|H].
  - simpl in Hrun. destruct (is_cancelled cancel_event k).
    { by destruct (gmd_cancel h st). }
    rewrite Hskip in Hrun.
    destruct (gmd_group total h st) as [evs1 st1] eqn:Hstep.
    destruct (gmd_loop cancel_event total last_hash (S k) rest st1)
      as [[evs2 st2] stopped] eqn:Hloop.
    injection Hrun as <- <- ->.
    pose proof (gmd_group_hashvalues total h st) as Hhv.
    pose proof (gmd_group_not_skipping total h st) as Hns.
    rewrite Hstep in Hhv, Hns. simpl in Hhv, Hns.
    destruct (IH _ _ _ _ Hloop Hns) as [Hm' Hres].
    { rewrite Hhv. by apply marked_from_step. }
    split; [done|]. intros h' Hh'. apply Hres. rewrite Hhv.
    destruct Hh' as [[<-|Hin]|Hr].
    + right. apply group_resolved_step.
    + by left.
    + right. by apply group_resolved_keep.
Qed.

Lemma filter_length_all {A} (p : A -> bool) (l : list A) :
  (length l <= length (List.filter p l))%nat -> forall x, In x l -> p x = true.
Proof.
  induction l as [|y l IH]; simpl; [done|].
  pose proof (List.filter_length_le p l) as Hle.
  destruct (p y) eqn:Hy; simpl; intros Hlen x [<-|Hin]; try done; try lia.
  apply IH; [lia|done].
Qed.

Lemma map_snd_indexed_from {A} (g : nat -> nat) (rows : list A) :
  map snd (imap (fun i r => (g i, r)) rows) = rows.
Proof.
  revert g. induction rows as [|r rows IH]; intros g; simpl; [done|].
  f_equal. apply (IH (g ∘ S)).
Qed.

Lemma map_snd_filter {A B} (p : B -> bool) (l : list (A * B)) :
  map snd (List.filter (fun x => p x.2) l) = List.filter p (map snd l).
Proof.
  induction l as [|x l IH]; simpl; [done|].
  destruct (p x.2); simpl; by rewrite IH.
Qed.

Lemma length_where_hash hv h :
  length (where_hash hv (Some h)) = length (group_of hv (Some h)).
Proof.
  unfold where_hash, group_of.
  etransitivity; [symmetry; apply (List.length_map snd)|].
  pose proof (map_snd_filter (fun r => bool_decide (hv_hash r = Some h))
                (indexed hv)) as H.
  cbv beta in H. rewrite H.
  unfold indexed. by rewrite (map_snd_indexed_from id).
Qed.

(** A group the query does not select has nothing left to mark. *)
Lemma not_selected_resolved hv h :
  ~ In h (gmd_hash_rows hv) -> group_resolved hv h.
Proof.
  intros Hnot i r Hin.
  destruct h as [h|]; [|done].
  assert (Hlen : (2 <= length (gmd_visible hv (Some h)))%nat).
  { destruct (gmd_visible hv (Some h)) as [|x [|y l]]; simpl in *; [done|done|lia]. }
  apply in_tail in Hin. pose proof Hin as Hin'.
  apply in_gmd_visible in Hin as (Hr & Hh & _).
  unfold gmd_visible, visible in Hlen.
  pose proof (List.filter_length_le (fun p => visible_path (hv_path p.2))
                (order_by_row (where_hash hv (Some h)))) as Hle.
  rewrite length_order_by_row, length_where_hash in Hle.
  assert (Hr' : In r (group_of hv (Some h))).
  { unfold group_of. apply filter_In. split.
    - apply list_elem_of_In, list_elem_of_lookup. by exists i.
    - by apply bool_decide_eq_true. }
  assert (Hk : In (Some h) (group_by_hash hv)).
  { apply in_group_by_hash, in_map_iff. exists r. split; [done|].
    apply list_elem_of_In, list_elem_of_lookup. by exists i. }
  unfold gmd_hash_rows in Hnot. rewrite filter_In in Hnot.
  destruct ((1 <? length (group_of hv (Some h)))%nat &&
            (length (List.filter is_duplicate (group_of hv (Some h)))
               <? length (group_of hv (Some h)))%nat) eqn:Hc.
  { exfalso. apply Hnot. by split. }
  apply andb_false_iff in Hc as [Hc|Hc].
  { apply Nat.ltb_ge in Hc. lia. }
  apply Nat.ltb_ge in Hc.
  pose proof (filter_length_all _ _ Hc r Hr') as Hd.
  unfold is_duplicate in Hd. apply bool_decide_eq_true in Hd.
  apply bool_decide_eq_false_2. rewrite Hd. intros [|]; discriminate.
Qed.

(** A fresh run that completes: what it leaves in [hashvalues]. *)
Lemma gmd_fresh_run db_path db cancel_event :
  let r := generate_and_mark_duplicates db_path (Some db) false cancel_event in
  gmd_outcome r = Completed ->
  exists db', gmd_db r = Some db' /\
    marked_from (hashvalues db) (hashvalues db') /\
    forall h, group_resolved (hashvalues db') h.
Proof.
  unfold generate_and_mark_duplicates.
  destruct (Z.of_nat (length (gmd_hash_rows (hashvalues db))) =? 0) eqn:E.
  - intros _. exists db. split; [done|]. split; [apply marked_from_refl|].
    intros h. apply not_selected_resolved.
    apply Z.eqb_eq in E.
    destruct (gmd_hash_rows (hashvalues db)); [by intros []|simpl in E; lia].
  - simpl.
    destruct (gmd_loop cancel_event _ "" 0 _ _) as [[evs st] stopped] eqn:Hloop.
    destruct stopped; [done|]. intros _. eexists. split; [reflexivity|].
    destruct (gmd_loop_fresh _ _ _ (hashvalues db) _ _ _ _ _ Hloop) as [Hm Hres].
    { reflexivity. }
    { apply marked_from_refl. }
    unfold gmd_finalize. rewrite !hashvalues_set_metadata.
    split; [done|]. intros h. apply Hres.
    destruct (decide (h ∈ gmd_hash_rows (hashvalues db))) as [Hin|Hnot].
    { left. by apply list_elem_of_In. }
    right. cbn [gmd_conn]. rewrite ?hashvalues_set_metadata.
    apply not_selected_resolved. by rewrite <- list_elem_of_In.
Qed.




(** C5 fails on the code.  Three groups are pending; the token is seen set
    at the second one, so the cancel branch stores that group's hash, which
    has not been processed.  The resumed run skips up to and including the
    stored hash: it never opens the second group, whose copy "/d/b2" is
    left unmarked although the run reports completion, while an
    uninterrupted run marks it. *)
Theorem C5_resume_skips_checkpointed_group :
  let db := Database three_groups [] ∅ in
  let cancelled :=
    generate_and_mark_duplicates "hashdata.sqlite" (Some db) false (cancel_at 1) in
  let resumed :=
    generate_and_mark_duplicates "hashdata.sqlite" (gmd_db cancelled) true None in
  let uninterrupted :=
    generate_and_mark_duplicates "hashdata.sqlite" (Some db) false None in
  gmd_outcome cancelled = Cancelled /\
  (exists db1, gmd_db cancelled = Some db1 /\
     metadata db1 !! "dup_last_hash" = Some "92eb5ffe" /\
     hv_duplicate <$> hashvalues db1 !! 3%nat = Some None) /\
  gmd_outcome resumed = Completed /\
  ~ In (EGroupStart "/d/b1") (gmd_events resumed) /\
  (exists db2, gmd_db resumed = Some db2 /\
     hv_duplicate <$> hashvalues db2 !! 3%nat = Some None /\
     hv_duplicate <$> hashvalues db2 !! 5%nat = Some (Some 1)) /\
  (exists db3, gmd_db uninterrupted = Some db3 /\
     hv_duplicate <$> hashvalues db3 !! 3%nat = Some (Some 1)).
Proof.
  split; [vm_compute; reflexivity|].
  split; [eexists; split; [vm_compute; reflexivity|]; split; vm_compute; reflexivity|].
  split; [vm_compute; reflexivity|].
  split.
  { vm_compute. intros H. repeat (destruct H as [H|H]; [discriminate H|]). exact H. }
  split; eexists; (split; [vm_compute; reflexivity|]); try split; vm_compute; reflexivity.
Qed.

(** ** DuplicateDeleter *)






Lemma in_del_visible hv h i r :
  In (i, r) (del_visible hv h) ->
  hv !! i = Some r /\ hv_hash r = h /\ h <> None.
Proof.
  unfold del_visible, visible. rewrite filter_In, in_where_hash. tauto.
Qed.


Lemma in_del_to_delete hv h i p :
  In (i, p) (del_to_delete hv h) <->
  exists r, In (i, r) (tail (del_visible hv h)) /\ pending_delete r = true /\
            p = hv_path r.
Proof.
  unfold del_to_delete. rewrite in_map_iff. split.
  - intros ([j r] & [= <- <-] & H). apply filter_In in H as [H1 H2]. by exists r.
  - intros (r & H1 & H2 & ->). exists (i, r). split; [done|]. by apply filter_In.
Qed.

Lemma os_remove_lookup fs fs' p q :
  os_remove fs p = Some fs' ->
  fs' !! q = if decide (p = q) then None else fs !! q.
Proof.
  unfold os_remove. destruct (fs !! p) as [f|]; [|done].
  destruct (f_removable f); [|done]. intros [= <-]. apply lookup_delete.
Qed.






Lemma del_inv_rel hv0 fs0 hv fs : del_inv hv0 fs0 hv fs -> del_rel hv0 fs0 hv fs.
Proof.
  intros (Hlen & Hrows & Hfiles). split; [done|]. split.
  - intros i r Hr. destruct (Hrows i r Hr) as [|[? _]]; auto.
  - intros p. destruct (Hfiles p) as [|[? _]]; auto.
Qed.


Lemma pending_set_deleted r : pending_delete (set_deleted r) = false.
Proof. unfold pending_delete. simpl. apply andb_false_r. Qed.






Lemma del_group_fs_dry total h st :
  let st' := (del_group true total h st).2 in
  hashvalues (del_conn st') = hashvalues (del_conn st) /\ del_fs st' = del_fs st.
Proof.
  unfold del_group.
  destruct (del_visible (hashvalues (del_conn st)) h) eqn:Ev; simpl; [done|].
  destruct (del_files true _ (del_conn st) (del_fs st) (del_deleted_count st))
    as [[[evs conn'] fs'] n'] eqn:E. simpl.
  revert E. generalize (del_deleted_count st).
  generalize (del_to_delete (hashvalues (del_conn st)) h). intros L.
  revert evs. induction L as [|[rid path] rest IH]; intros evs n Hrun; simpl in Hrun.
  - by injection Hrun as <- <- <- <-.
  - destruct (del_files true rest (del_conn st) (del_fs st) (n + 1))
      as [[[evs1 conn1] fs1] n1] eqn:E.
    injection Hrun as <- <- <- <-. by eapply IH.
Qed.



(** Nothing is removed in dry-run mode, nor when every candidate is a file
    [os.remove] fails on; in the latter case no deletion is reported. *)
Lemma del_files_noop dry_run :
  forall to_delete conn fs n evs conn' fs' n',
    dry_run = true \/ (forall i p, In (i, p) to_delete -> os_remove fs p = None) ->
    del_files dry_run to_delete conn fs n = (evs, conn', fs', n') ->
    conn' = conn /\ fs' = fs /\ (dry_run = false -> no_deleted_event evs).
Proof.
  induction to_delete as [|[rid path] rest IH];
    intros conn fs n evs conn' fs' n' Hno Hrun; simpl in Hrun.
  - injection Hrun as <- <- <- <-. repeat split; try done. by intros _ p [].
  - destruct dry_run.
    { destruct (del_files true rest conn fs (n + 1)) as [[[evs1 conn1] fs1] n1] eqn:E.
      injection Hrun as <- <- <- <-.
      destruct (IH _ _ _ _ _ _ _ (or_introl eq_refl) E) as (-> & -> & _). done. }
    destruct Hno as [|Hno]; [done|].
    rewrite (Hno rid path (or_introl eq_refl)) in Hrun.
    destruct (del_files false rest conn fs n) as [[[evs1 conn1] fs1] n1] eqn:E.
    injection Hrun as <- <- <- <-.
    destruct (IH _ _ _ _ _ _ _ (or_intror (fun i p H => Hno i p (or_intror H))) E)
      as (-> & -> & Hev).
    repeat split; try done. intros _ p [[=]|Hin]. by apply (Hev eq_refl p).
Qed.

Lemma no_deleted_event_app evs evs' :
  no_deleted_event evs -> no_deleted_event evs' -> no_deleted_event (evs ++ evs').
Proof. intros H H' p Hin. apply in_app_iff in Hin as [|]; [by apply (H p)|by apply (H' p)]. Qed.

Lemma del_group_noop dry_run total h st :
  dry_run = true \/ stuck_group (hashvalues (del_conn st)) (del_fs st) h ->
  let r := del_group dry_run total h st in
  hashvalues (del_conn r.2) = hashvalues (del_conn st) /\
  del_fs r.2 = del_fs st /\
  (dry_run = false -> no_deleted_event r.1).
Proof.
  intros Hno. unfold del_group.
  destruct (del_visible (hashvalues (del_conn st)) h) as [|base l] eqn:Ev; simpl.
  { repeat split; try done. intros _ p [[=]|[]]. }
  destruct (del_files dry_run _ (del_conn st) (del_fs st) (del_deleted_count st))
    as [[[evs conn'] fs'] n'] eqn:E. simpl.
  apply del_files_noop in E as (-> & -> & Hev); [|done].
  repeat split; try done. intros Hd p [[=]|Hin]. by apply (Hev Hd p).
Qed.

Lemma del_loop_noop dry_run cancel_event total last_hash :
  forall hash_rows k st evs st' stopped,
    del_loop dry_run cancel_event total last_hash k hash_rows st
      = (evs, st', stopped) ->
    dry_run = true \/
      (forall h, stuck_group (hashvalues (del_conn st)) (del_fs st) h) ->
    hashvalues (del_conn st') = hashvalues (del_conn st) /\
    del_fs st' = del_fs st /\
    (dry_run = false -> no_deleted_event evs).
Proof.
  induction hash_rows as [|h rest IH]; intros k st evs st' stopped Hrun Hno.
  - simpl in Hrun. injection Hrun as <- <- <-. repeat split; try done.
    by intros _ p [].
  - simpl in Hrun. destruct (is_cancelled cancel_event k).
    { injection Hrun as <- <- <-. repeat split; try done.
      intros _ p [[=]|[[=]|[]]]. }
    destruct (del_start_skipping st).
    { apply IH in Hrun; [exact Hrun|exact Hno]. }
    destruct (del_group dry_run total h st) as [evs1 st1] eqn:Hstep.
    destruct (del_loop dry_run cancel_event total last_hash (S k) rest st1)
      as [[evs2 st2] stopped2] eqn:Hloop.
    injection Hrun as <- <- <-.
    destruct (del_group_noop dry_run total h st) as (Hhv & Hfs & Hev).
    { destruct Hno as [|Hno]; [by left|right; apply Hno]. }
    rewrite Hstep in Hhv, Hfs, Hev. simpl in Hhv, Hfs, Hev.
    apply IH in Hloop as (Hhv' & Hfs' & Hev').
    2:{ destruct Hno as [|Hno]; [by left|right]. by rewrite Hhv, Hfs. }
    rewrite Hhv', Hfs', Hhv, Hfs. repeat split; try done.
    intros Hd. apply no_deleted_event_app; auto.
Qed.




#[local] Arguments delete_duplicates_generator : simpl never.

(** A run either leaves everything as it was, reporting no deletion (and if
    it completes that way, no group was pending), or it is a run of the
    loop on the pending groups. *)
Lemma delete_duplicates_inv db_path db fs resume cancel_event dry_run :
  let r := delete_duplicates_generator db_path (Some db) fs resume cancel_event dry_run in
  (del_db r = Some db /\ del_files_after r = fs /\ no_deleted_event (del_events r) /\
   (del_outcome r = Completed -> del_hash_rows (hashvalues db) = [])) \/
  exists conn1 last_hash processed skipping evs st stopped pre post db',
    hashvalues conn1 = hashvalues db /\
    (resume = false -> skipping = false) /\
    del_loop dry_run cancel_event
      (Z.of_nat (length (del_hash_rows (hashvalues db)))) last_hash 0
      (del_hash_rows (hashvalues db)) (DelState conn1 fs processed 0 skipping)
      = (evs, st, stopped) /\
    del_events r = pre ++ evs ++ post /\
    no_deleted_event pre /\ no_deleted_event post /\
    del_db r = Some db' /\ hashvalues db' = hashvalues (del_conn st) /\
    del_files_after r = del_fs st /\
    del_outcome r = (if stopped then Cancelled else Completed).
Proof.
  unfold delete_duplicates_generator.
  destruct (Z.of_nat (length (del_hash_rows (hashvalues db))) =? 0) eqn:E.
  { left. repeat split; try done.
    - intros p Hin. simpl in Hin. by repeat destruct Hin as [[=]|Hin].
    - intros _. apply Z.eqb_eq in E.
      destruct (del_hash_rows (hashvalues db)); [done|simpl in E; lia]. }
  destruct resume.
  - destruct (get_metadata_int db "del_processed_count") as [z|].
    2:{ left. repeat split; try done.
        intros p Hin. simpl in Hin. by repeat destruct Hin as [[=]|Hin]. }
    simpl.
    destruct (del_loop dry_run cancel_event _ _ 0 _ _) as [[evs st] stopped] eqn:Hloop.
    right. do 7 eexists. eexists ([_; _] ++ [_] ++ [_]).
    exists (if stopped then [] else
              [EStatus "done";
               ELog ("Delete operation complete. Deleted "
                     +:+ Py.str (del_deleted_count st) +:+ " files.");
               EDone]).
    exists (if stopped then del_conn st
            else del_finalize (del_conn st) (del_processed_groups st)
                   (Z.of_nat (length (del_hash_rows (hashvalues db))))).
    split; [reflexivity|].
    refine (conj _ (conj Hloop _)); [done|].
    destruct stopped; simpl; rewrite ?app_nil_r;
      (split; [reflexivity|]);
      (split; [intros p Hin; simpl in Hin; by repeat destruct Hin as [[=]|Hin]|]);
      (split; [intros p Hin; simpl in Hin; by repeat destruct Hin as [[=]|Hin]|]).
    all: done.
  - simpl.
    destruct (del_loop dry_run cancel_event _ _ 0 _ _) as [[evs st] stopped] eqn:Hloop.
    right. do 7 eexists. eexists ([_; _] ++ [] ++ [_]).
    exists (if stopped then [] else
              [EStatus "done";
               ELog ("Delete operation complete. Deleted "
                     +:+ Py.str (del_deleted_count st) +:+ " files.");
               EDone]).
    exists (if stopped then del_conn st
            else del_finalize (del_conn st) (del_processed_groups st)
                   (Z.of_nat (length (del_hash_rows (hashvalues db))))).
    refine (conj _ (conj _ (conj Hloop _))); [|done|].
    { by rewrite !hashvalues_set_metadata. }
    destruct stopped; simpl; rewrite ?app_nil_r;
      (split; [reflexivity|]);
      (split; [intros p Hin; simpl in Hin; by repeat destruct Hin as [[=]|Hin]|]);
      (split; [intros p Hin; simpl in Hin; by repeat destruct Hin as [[=]|Hin]|]);
      done.
Qed.





(** ** GroupingCopier *)

(** C3 fails on the code.  With the policy "skip duplicates", a single
    file whose content no record carries is hashed, recorded under its own
    path, and then counted as a carrier of its own hash: the entry is
    marked duplicate and skipped, nothing is copied, and its own, only
    record is marked duplicate as well. *)
Theorem C3_unique_file_is_skipped_as_duplicate :
  let r := group_files_generator "/o" "/dest" (Some single_tree) true
             (Some empty_db) single_fs "2025-01-01T00:00:00+00:00"
             "Group by Extension" false false None false in
  hashvalues empty_db = [] /\
  fgr_outcome r = Completed /\
  In (ESkippedDuplicate "/o/a.txt") (fgr_events r) /\
  ~ In (ECopied "/o/a.txt") (fgr_events r) /\
  fgr_fs r = single_fs /\
  (exists db', fgr_db r = Some db' /\
     filegroups db' =
       [FgRow "/o/a.txt" None "a.txt" "txt" None 0 (Some 1)
              "2025-01-01T00:00:00+00:00"] /\
     hashvalues db' = [HashRow 0 "/o/a.txt" (Some "0cc175b9") (Some 1) 0]).
Proof.
  split; [reflexivity|]. split; [vm_compute; reflexivity|].
  split; [vm_compute; tauto|]. split.
  { vm_compute. intros H. repeat (destruct H as [H|H]; [discriminate H|]). exact H. }
  split; [vm_compute; reflexivity|].
  eexists. split; [vm_compute; reflexivity|]. split; reflexivity.
Qed.

Lemma find_rowid_lookup path hv :
  forall k rid, find_rowid path k hv = Some rid ->
    exists r, hv !! (rid - k)%nat = Some r /\ (k <= rid)%nat.
Proof.
  induction hv as [|r hv IH]; intros k rid H; simpl in H; [done|].
  destruct (String.eqb (hv_path r) path).
  - injection H as <-. exists r. rewrite Nat.sub_diag. split; [done|lia].
  - destruct (IH _ _ H) as (r' & Hr' & Hle). exists r'. split; [|lia].
    replace (rid - k)%nat with (S (rid - S k)) by lia. done.
Qed.

Lemma count_positive h hv r :
  In r hv -> hv_hash r = Some h ->
  (0 <? length (List.filter (fun r => bool_decide (hv_hash r = Some h)) hv))%nat = true.
Proof.
  intros Hin Hh. apply Nat.ltb_lt.
  assert (H : In r (List.filter (fun r => bool_decide (hv_hash r = Some h)) hv)).
  { apply filter_In. split; [done|]. by apply bool_decide_eq_true. }
  destruct (List.filter _ hv); [done|simpl; lia].
Qed.

(** Whenever the hash of an entry is looked up or computed in the loop, a
    record carrying it exists once it is obtained (at the latest the
    entry's own, just written), so the entry counts as a duplicate. *)
Lemma fg_lazy_hash_is_duplicate conn fs originpath stored conn' h :
  Py.truthy stored = false ->
  fg_obtain_hash conn fs originpath stored = (conn', Some h) ->
  Py.truthy (Some h) = true ->
  fg_is_duplicate conn' (Some h) = true.
Proof.
  intros Hstored Hget Hh. unfold fg_obtain_hash in Hget. rewrite Hstored in Hget.
  unfold fg_is_duplicate. rewrite Hh. simpl.
  destruct (Py.truthy (get_hash_for_path conn originpath)) eqn:Hrec.
  - injection Hget as <- Hget. unfold get_hash_for_path in Hget.
    destruct (List.find _ (hashvalues conn)) as [r|] eqn:Hfind; [|done].
    apply find_some in Hfind as [Hin _]. by eapply count_positive.
  - destruct (compute_md5 fs originpath) as [h'|]; [|done].
    destruct (Py.truthy (Some h')) eqn:Hh'.
    2:{ injection Hget as <- <-. by rewrite Hh in Hh'. }
    injection Hget as <- <-. unfold insert_or_update_hashvalue.
    destruct (find_rowid originpath 0 (hashvalues conn)) as [rid|] eqn:Hrid; simpl.
    + apply find_rowid_lookup in Hrid as (r & Hr & _).
      rewrite Nat.sub_0_r in Hr.
      apply (count_positive _ _ (set_hash h' r)); [|done].
      apply list_elem_of_In, list_elem_of_lookup. exists rid.
      rewrite update_rows_lookup, Hr. simpl.
      by rewrite bool_decide_eq_true_2 by (by apply list_elem_of_singleton).
    + eapply count_positive; [apply in_app_iff; right; by left|reflexivity].
Qed.

(** *** Copied entries *)





Lemma filegroups_insert_or_update conn path h :
  filegroups (insert_or_update_hashvalue conn path h) = filegroups conn.
Proof.
  unfold insert_or_update_hashvalue.
  by destruct (find_rowid path 0 (hashvalues conn)).
Qed.










(** *** The destination check *)

Lemma prefix_append (a b : string) : String.prefix a (a +:+ b) = true.
Proof.
  induction a as [|c a IH]; simpl; [by destruct b|].
  destruct (ascii_dec c c); [exact IH|done].
Qed.

(** What the check does catch: the same text, or the text of the origin
    followed by a separator. *)
Lemma run_filegroup_refuses_textual_nesting
  origin_dir dest_dir db_path dir dest_available db fs now grouping_mode
  copy_duplicates cancel_event :
  dest_dir = origin_dir \/
  (exists rest, dest_dir = origin_dir +:+ OsPath.sep +:+ rest) ->
  run_filegroup origin_dir dest_dir db_path dir dest_available db fs now
    grouping_mode copy_duplicates cancel_event = None.
Proof.
  intros H. unfold run_filegroup.
  destruct (String.eqb origin_dir "" || String.eqb dest_dir ""
            || String.eqb db_path ""); [done|].
  assert (destination_rejected origin_dir dest_dir = true) as ->; [|done].
  unfold destination_rejected. apply orb_true_iff.
  destruct H as [->|[rest ->]].
  - left. apply String.eqb_refl.
  - right. unfold Py.startswith.
    change (origin_dir +:+ OsPath.sep +:+ rest)
      with (origin_dir +:+ (OsPath.sep +:+ rest)).
    assert (E : origin_dir +:+ (OsPath.sep +:+ rest)
                = (origin_dir +:+ OsPath.sep) +:+ rest).
    { clear. generalize OsPath.sep. intros s.
      induction origin_dir as [|c a IH]; [reflexivity|].
      change (String c (a +:+ (s +:+ rest)) = String c ((a +:+ s) +:+ rest)).
      by rewrite IH. }
    rewrite E. apply prefix_append.
Qed.

(** C10 fails on the code.  With the origin typed with a trailing
    separator, the destination "/data/out" lies inside the origin
    "/data/", yet the check, which compares texts, lets it pass: the job
    is started, scans the origin and copies into the destination.  The
    same destination is refused when the origin is typed "/data". *)
Theorem C10_destination_inside_origin_not_refused :
  let started :=
    run_filegroup "/data/" "/data/out" "hashdata.sqlite" (Some nested_tree) true
      (Some empty_db) nested_fs "2025-01-01T00:00:00+00:00"
      "Group by Extension" "copyduplicates" None in
  inside_or_equal "/data/" "/data/out" /\
  destination_rejected "/data/" "/data/out" = false /\
  (exists r db',
     started = Some r /\
     In (ECopied "/data/a.txt") (fgr_events r) /\
     fgr_fs r !! "/data/out/txt/a.txt" = Some (File "0cc175b9" true true) /\
     fgr_db r = Some db' /\ length (filegroups db') = 1%nat) /\
  run_filegroup "/data" "/data/out" "hashdata.sqlite" (Some nested_tree) true
    (Some empty_db) nested_fs "2025-01-01T00:00:00+00:00"
    "Group by Extension" "copyduplicates" None = None.
Proof.
  split; [by exists ["out"]|]. split; [reflexivity|]. split.
  - do 2 eexists. split; [vm_compute; reflexivity|].
    split; [vm_compute; tauto|]. split; [vm_compute; reflexivity|].
    split; reflexivity.
  - reflexivity.
Qed.

(** ** The event stream *)

Lemma terminal_events_app evs evs' :
  terminal_events (evs ++ evs') = terminal_events evs ++ terminal_events evs'.
Proof. unfold terminal_events. apply List.filter_app. Qed.

Lemma del_files_no_terminal dry_run :
  forall to_delete conn fs n,
    terminal_events (del_files dry_run to_delete conn fs n).1.1.1 = [].
Proof.
  induction to_delete as [|[rid path] rest IH]; intros conn fs n; simpl; [done|].
  destruct dry_run.
  { specialize (IH conn fs (n + 1)).
    by destruct (del_files true rest conn fs (n + 1)) as [[[??]?]?]. }
  destruct (os_remove fs path) as [fs1|].
  - match goal with |- context [del_files false rest ?c ?f ?m] =>
      specialize (IH c f m); by destruct (del_files false rest c f m) as [[[??]?]?]
    end.
  - specialize (IH conn fs n).
    by destruct (del_files false rest conn fs n) as [[[??]?]?].
Qed.

Lemma del_group_no_terminal dry_run total h st :
  terminal_events (del_group dry_run total h st).1 = [].
Proof.
  unfold del_group.
  destruct (del_visible (hashvalues (del_conn st)) h); [done|].
  pose proof (del_files_no_terminal dry_run
                (del_to_delete (hashvalues (del_conn st)) h)
                (del_conn st) (del_fs st) (del_deleted_count st)) as H.
  by destruct (del_files dry_run _ _ _ _) as [[[??]?]?].
Qed.

Lemma del_loop_no_terminal dry_run cancel_event total last_hash :
  forall hash_rows k st,
    terminal_events
      (del_loop dry_run cancel_event total last_hash k hash_rows st).1.1 = [].
Proof.
  induction hash_rows as [|h rest IH]; intros k st; simpl; [done|].
  destruct (is_cancelled cancel_event k); [done|].
  destruct (del_start_skipping st); [apply IH|].
  pose proof (del_group_no_terminal dry_run total h st) as H1.
  destruct (del_group dry_run total h st) as [evs1 st1].
  specialize (IH (S k) st1).
  destruct (del_loop dry_run cancel_event total last_hash (S k) rest st1)
    as [[evs2 st2] stopped].
  simpl in *. by rewrite terminal_events_app, H1, IH.
Qed.

Lemma app_snoc3 {A} (l m : list A) (a b c : A) :
  l ++ m ++ [a; b; c] = (l ++ m ++ [a; b]) ++ [c].
Proof. by rewrite <- !app_assoc. Qed.

Lemma del_loop_cancel_last dry_run cancel_event total last_hash :
  forall hash_rows k st evs st',
    del_loop dry_run cancel_event total last_hash k hash_rows st = (evs, st', true) ->
    exists evs0, evs = evs0 ++ [EStatus "cancelled"].
Proof.
  induction hash_rows as [|h rest IH]; intros k st evs st' E; simpl in E; [done|].
  destruct (is_cancelled cancel_event k).
  { injection E as <- _. by exists [ELog "Delete operation cancelled by user"]. }
  destruct (del_start_skipping st); [by eapply IH|].
  destruct (del_group dry_run total h st) as [evs1 st1].
  destruct (del_loop dry_run cancel_event total last_hash (S k) rest st1)
    as [[evs2 st2] stopped2] eqn:E2.
  injection E as <- _ ->. destruct (IH _ _ _ _ E2) as [evs0 ->].
  exists (evs1 ++ evs0). by rewrite app_assoc.
Qed.

(** X14.  DuplicateDeleter keeps the contract of the event stream:
    per-file failures are [log] events, a completed run has [done] as its
    only terminal event and its last event, a failed run has one [error],
    and a cancelled run has no terminal event and ends with
    [status("cancelled")]. *)
Lemma deleter_event_contract db_path db fs resume cancel_event dry_run :
  let r := delete_duplicates_generator db_path db fs resume cancel_event dry_run in
  match del_outcome r with
  | Completed =>
      terminal_events (del_events r) = [EDone] /\
      exists evs, del_events r = evs ++ [EDone]
  | Failed => exists msg, terminal_events (del_events r) = [EError msg]
  | Cancelled =>
      terminal_events (del_events r) = [] /\
      exists evs, del_events r = evs ++ [EStatus "cancelled"]
  | Raised => terminal_events (del_events r) = []
  end.
Proof.
  unfold delete_duplicates_generator. destruct db as [conn|]; [|by eexists].
  destruct (Z.of_nat (length (del_hash_rows (hashvalues conn))) =? 0).
  { simpl. split; [done|]. by eexists [_; _; _; _]. }
  set (prepared := if resume then _ else _).
  destruct prepared as [[[[conn1 last_hash] processed] resuming]|] eqn:Hprep;
    [|done].
  assert (Hres : terminal_events resuming = []).
  { subst prepared. destruct resume.
    - destruct (get_metadata_int conn "del_processed_count"); [|done].
      by injection Hprep as <- <- <- <-.
    - by injection Hprep as <- <- <- <-. }
  pose proof (del_loop_no_terminal dry_run cancel_event
                (Z.of_nat (length (del_hash_rows (hashvalues conn)))) last_hash
                (del_hash_rows (hashvalues conn)) 0
                (DelState conn1 fs processed 0
                   (resume && negb (String.eqb last_hash "")))) as Hloop.
  destruct (del_loop dry_run cancel_event _ last_hash 0 _ _)
    as [[evs st] stopped] eqn:E.
  simpl in Hloop. destruct stopped; cbn [del_events del_outcome].
  - split.
    { rewrite !terminal_events_app, Hres, Hloop. reflexivity. }
    destruct (del_loop_cancel_last _ _ _ _ _ _ _ _ _ E) as [evs0 ->].
    eexists. apply app_assoc.
  - split.
    { rewrite !terminal_events_app, Hres, Hloop. reflexivity. }
    eexists. apply app_snoc3.
Qed.

(** ** EmptyDirPruner *)

(** C8 fails on the code, in EmptyDirPruner.  A directory whose removal
    fails is reported by an [error] event in the middle of the stream, the
    loop goes on and the stream ends with [done]: two terminal events.
    And a cancelled run ends with [done], after a status that is not
    [cancelled]. *)
Theorem C8_pruner_breaks_event_contract :
  let failing :=
    delete_empty_folders_generator "/r"
      (Some (Node [] [("a", Node [] []); ("k", Node [] [])]))
      (fun p => String.eqb p "/r/a") None false in
  let cancelled :=
    delete_empty_folders_generator "/r" (Some (Node [] [("a", Node [] [])]))
      (fun _ => false) (cancel_at 1) false in
  pr_events failing =
    [EStatus "Scanning for empty folders under: /r";
     ELog "Found 2 directories to evaluate.";
     EStatus "Evaluating directories...";
     EError "Failed to delete /r/a"; EProgress 1 2;
     ELog "Deleted empty folder: /r/k"; EProgress 2 2;
     EStatus "Deletion complete. Removed 1 empty folders."; EDone] /\
  terminal_events (pr_events failing) = [EError "Failed to delete /r/a"; EDone] /\
  pr_outcome cancelled = Cancelled /\
  pr_events cancelled =
    [EStatus "Scanning for empty folders under: /r";
     ELog "Found 1 directories to evaluate.";
     EStatus "Evaluating directories...";
     EStatus "Cancelled by user."; EDone].
Proof. repeat split; vm_compute; reflexivity. Qed.

(** * Further properties *)

Lemma ends_with_app {A} (pre l : list A) (x : A) :
  (exists l0, l = l0 ++ [x]) -> exists l0, pre ++ l = l0 ++ [x].
Proof. intros [l0 ->]. exists (pre ++ l0). apply app_assoc. Qed.

(** ** Further properties of the helpers *)

(** X1.  A counter stored by [set_metadata(conn, key, str(n))] is read back
    as [n] by [int(get_metadata(conn, key, '0'))], for every integer [n],
    negative ones included; a key that was never written reads as 0; and
    writing one key changes neither what is read under another key nor the
    two tables. *)
Theorem metadata_counter_round_trip (conn : database) (key : string) (z : Z) :
  get_metadata_int (set_metadata conn key (Py.str z)) key = Some z /\
  (forall key' default, key' <> key ->
     get_metadata (set_metadata conn key (Py.str z)) key' default
     = get_metadata conn key' default) /\
  (metadata conn !! key = None -> get_metadata_int conn key = Some 0) /\
  hashvalues (set_metadata conn key (Py.str z)) = hashvalues conn /\
  filegroups (set_metadata conn key (Py.str z)) = filegroups conn.
Proof.
  split; [|split; [|split]].
  - unfold get_metadata_int, get_metadata.
    rewrite metadata_set_metadata_eq. apply int_str.
  - intros key' default Hne. unfold get_metadata.
    by rewrite metadata_set_metadata_ne.
  - intros Hnone. unfold get_metadata_int, get_metadata. by rewrite Hnone.
  - done.
Qed.

(** X2.  The scan of [group_files_generator] enumerates exactly the files
    of the tree, whatever the names of the directories above them; so every
    file that [generate_sql] enumerates is enumerated by the scan too. *)
Theorem copier_scan_covers_indexer_walk (root : string) (t : tree) (p : string) :
  (In p (file_list_all root t) <->
   exists ds f, file_at t ds f /\ p = path_of root ds f) /\
  (In p (file_list root t) -> In p (file_list_all root t)).
Proof.
  unfold file_list_all, file_list. rewrite !walk_spec. split.
  - split.
    + intros (ds & f & Hat & _ & ->). by exists ds, f.
    + intros (ds & f & Hat & ->). exists ds, f. split; [done|]. split; [|done].
      by apply List.Forall_forall.
  - intros (ds & f & Hat & _ & ->). exists ds, f. split; [done|]. split; [|done].
    by apply List.Forall_forall.
Qed.

(** ** The order of the walk *)

Lemma leb_trans (a b c : string) :
  String.leb a b = true -> String.leb b c = true -> String.leb a c = true.
Proof.
  unfold String.leb. intros Hab Hbc.
  destruct (String.compare a c) eqn:Hac; try done. exfalso.
  apply OrderedTypeEx.String_as_OT.compare_helper_gt in Hac.
  destruct (String.compare a b) eqn:Eab; [| |done];
    destruct (String.compare b c) eqn:Ebc; try done.
  - apply OrderedTypeEx.String_as_OT.compare_helper_eq in Eab, Ebc. subst.
    by apply OrderedTypeEx.String_as_OT.lt_not_eq in Hac.
  - apply OrderedTypeEx.String_as_OT.compare_helper_eq in Eab. subst.
    apply OrderedTypeEx.String_as_OT.compare_helper_lt in Ebc.
    pose proof (OrderedTypeEx.String_as_OT.lt_trans _ _ _ Hac Ebc) as H.
    by apply OrderedTypeEx.String_as_OT.lt_not_eq in H.
  - apply OrderedTypeEx.String_as_OT.compare_helper_eq in Ebc. subst.
    apply OrderedTypeEx.String_as_OT.compare_helper_lt in Eab.
    pose proof (OrderedTypeEx.String_as_OT.lt_trans _ _ _ Hac Eab) as H.
    by apply OrderedTypeEx.String_as_OT.lt_not_eq in H.
  - apply OrderedTypeEx.String_as_OT.compare_helper_lt in Eab, Ebc.
    pose proof (OrderedTypeEx.String_as_OT.lt_trans _ _ _ Eab Ebc) as H.
    pose proof (OrderedTypeEx.String_as_OT.lt_trans _ _ _ H Hac) as H'.
    by apply OrderedTypeEx.String_as_OT.lt_not_eq in H'.
Qed.

Lemma leb_false_flip (a b : string) :
  String.leb a b = false -> String.leb b a = true.
Proof. intros H. destruct (String.leb_total a b); congruence. Qed.

(** Inserting two elements in either order gives the same list, when
    equal keys mean equal elements. *)
Lemma insert_sorted_comm {A} (key : A -> string) (x y : A) (l : list A) :
  (key x = key y -> x = y) ->
  Py.insert_sorted key x (Py.insert_sorted key y l)
  = Py.insert_sorted key y (Py.insert_sorted key x l).
Proof.
  intros Hxy. induction l as [|z l IH]; simpl.
  - destruct (String.leb (key x) (key y)) eqn:Exy;
      destruct (String.leb (key y) (key x)) eqn:Eyx; try done.
    + by rewrite (Hxy (String.leb_antisym _ _ Exy Eyx)).
    + apply leb_false_flip in Exy. congruence.
  - destruct (String.leb (key y) (key z)) eqn:Eyz;
      destruct (String.leb (key x) (key z)) eqn:Exz; simpl;
      rewrite ?Eyz, ?Exz.
    + destruct (String.leb (key x) (key y)) eqn:Exy;
        destruct (String.leb (key y) (key x)) eqn:Eyx; rewrite ?Eyz, ?Exz; try done.
      * by rewrite (Hxy (String.leb_antisym _ _ Exy Eyx)).
      * apply leb_false_flip in Exy. congruence.
    + destruct (String.leb (key x) (key y)) eqn:Exy; [|done].
      by rewrite (leb_trans _ _ _ Exy Eyz) in Exz.
    + destruct (String.leb (key y) (key x)) eqn:Eyx; [|done].
      by rewrite (leb_trans _ _ _ Eyx Exz) in Eyz.
    + by rewrite IH.
Qed.

(** Sorting does not depend on the order of the input. *)
Lemma sort_on_perm {A} (key : A -> string) (l l' : list A) :
  l ≡ₚ l' -> NoDup (map key l) -> Py.sort_on key l = Py.sort_on key l'.
Proof.
  induction 1 as [|x l l' Hp IH|x y l|l1 l2 l3 H12 IH12 H23 IH23]; intros Hnd.
  - done.
  - simpl. rewrite IH; [done|]. simpl in Hnd. by apply NoDup_cons in Hnd as [_ ?].
  - simpl. apply insert_sorted_comm. intros E. exfalso. simpl in Hnd.
    apply NoDup_cons in Hnd as [Hnot _]. apply Hnot. rewrite E. by left.
  - rewrite IH12 by done. apply IH23. by rewrite <- H12.
Qed.

Lemma sort_perm (l l' : list string) : l ≡ₚ l' -> Py.sort l = Py.sort l'.
Proof.
  unfold Py.sort, Py.sort_on.
  induction 1 as [|x l l' Hp IH|x y l|l1 l2 l3 H12 IH12 H23 IH23]; simpl.
  - done.
  - by rewrite IH.
  - by apply insert_sorted_comm.
  - congruence.
Qed.

Lemma distinct_dir_names_sub files dirs p :
  distinct_dir_names (Node files dirs) -> In p dirs -> distinct_dir_names (snd p).
Proof.
  simpl. intros [_ H]. induction dirs as [|q dirs IH]; simpl in *; [done|].
  destruct H as [Hq Hrest]. intros [->|Hin]; auto.
Qed.

(** X3.  The file list does not depend on the order in which [os.scandir]
    reports the entries: two listings of one tree that differ only in that
    order give the same walk, element for element, as long as no directory
    holds two sub-directories of one name. *)
Theorem walk_ignores_scan_order (keep : string -> bool) (t t' : tree) :
  same_tree t t' -> distinct_dir_names t ->
  forall root, walk keep root t = walk keep root t'.
Proof.
  revert t'. induction t as [files dirs IH] using tree_rect_nested.
  intros t' Hsame Hwf root.
  inversion Hsame as [? files' ? dirs1 dirs' Hfiles Hdirs Hsub]; subst.
  simpl. rewrite (sort_perm _ _ Hfiles). f_equal. f_equal. f_equal. f_equal.
  set (f := fun p : string * tree =>
              (fst p, walk keep (OsPath.join root (fst p)) (snd p))).
  assert (Hsame1 : map f dirs1 = map f dirs').
  { assert (Hall : Forall (fun p => In p dirs) dirs1).
    { apply List.Forall_forall. intros p Hp.
      apply list_elem_of_In. rewrite Hdirs. by apply list_elem_of_In. }
    clear Hdirs Hsame. induction Hsub as [|p q l l' [Hname Hpq] _ IHl]; [done|].
    apply Forall_cons_1 in Hall as [Hp Hall]. simpl. rewrite (IHl Hall). f_equal.
    subst f. simpl. rewrite <- Hname. f_equal.
    rewrite List.Forall_forall in IH.
    apply (IH p Hp (snd q) Hpq). by eapply distinct_dir_names_sub. }
  rewrite <- Hsame1. apply sort_on_perm.
  - by apply Permutation_map.
  - rewrite map_map. simpl. apply Hwf.
Qed.

Lemma walk_ignores_scan_order_witness :
  walk keep_dir "/r" sample_tree
  = walk keep_dir "/r" (Node ["a.txt"; "b.txt"] [("sub", Node ["c.txt"] [])]).
Proof.
  apply (walk_ignores_scan_order keep_dir sample_tree
           (Node ["a.txt"; "b.txt"] [("sub", Node ["c.txt"] [])])).
  - eapply (same_tree_node _ _ _ [("sub", Node ["c.txt"] [])]).
    + apply perm_swap.
    + done.
    + constructor; [|constructor]. split; [done|].
      by eapply (same_tree_node _ _ _ []).
  - simpl. split; [apply NoDup_singleton|]. split; [|done].
    split; [apply NoDup_nil_2|done].
Defined.

(** ** Further properties of [generate_sql] *)

Lemma gs_core_step_new fs hv ex rc p :
  gs_core_step fs (hv, ex, rc) p = (hv, ex, rc) \/
  exists f, fs !! p = Some f /\ f_readable f = true /\ (p ∉ ex) /\
    gs_core_step fs (hv, ex, rc) p =
      (hv ++ [HashRow rc p (Some (f_digest f)) None 0], {[p]} ∪ ex, rc + 1).
Proof.
  unfold gs_core_step, compute_md5. case_bool_decide as Hin; [by left|].
  destruct (fs !! p) as [f|] eqn:Hf; [|by left].
  destruct (f_readable f) eqn:Hr; [|by left]. right. by exists f.
Qed.

(** The rows a pass of the loop appends: each for a file of the pass that
    was not recorded, with the digest of that file and no flag; and the
    paths stay unique. *)
Lemma gs_core_run_new fs files :
  forall hv ex rc,
    (forall q, In q (map hv_path hv) -> (q ∈ ex)) ->
    exists new,
      (gs_core_run fs files (hv, ex, rc)).1.1 = hv ++ new /\
      Forall (fun r => In (hv_path r) files /\
                       hv_duplicate r = None /\ hv_deleted r = 0 /\
                       exists f, fs !! hv_path r = Some f /\ f_readable f = true /\
                                 hv_hash r = Some (f_digest f)) new /\
      (NoDup (map hv_path hv) -> NoDup (map hv_path (hv ++ new))).
Proof.
  induction files as [|p files IH]; intros hv ex rc Hex.
  - exists []. simpl. rewrite app_nil_r. by repeat split.
  - rewrite gs_core_run_cons.
    destruct (gs_core_step_new fs hv ex rc p) as [->|(f & Hf & Hr & Hnew & ->)].
    + destruct (IH hv ex rc Hex) as (new & -> & Hrows & Hnd). exists new.
      repeat split; try done. eapply Forall_impl; [exact Hrows|].
      simpl. intros r (? & ? & ? & ?). auto.
    + destruct (IH (hv ++ [HashRow rc p (Some (f_digest f)) None 0])
                   ({[p]} ∪ ex) (rc + 1)) as (new & -> & Hrows & Hnd).
      { intros q. rewrite map_app, in_app_iff. simpl. intros [Hq|[<-|[]]].
        - apply elem_of_union_r. by apply Hex.
        - apply elem_of_union_l. by apply elem_of_singleton. }
      exists (HashRow rc p (Some (f_digest f)) None 0 :: new).
      split; [by rewrite <- app_assoc|]. split.
      * constructor.
        { simpl. split; [by left|]. repeat split; try done. by exists f. }
        eapply Forall_impl; [exact Hrows|]. simpl. intros r (? & ? & ? & ?). auto.
      * intros Hhv.
        replace (hv ++ HashRow rc p (Some (f_digest f)) None 0 :: new)
          with ((hv ++ [HashRow rc p (Some (f_digest f)) None 0]) ++ new)
          by (by rewrite <- app_assoc).
        apply Hnd. rewrite map_app. simpl. apply NoDup_app. split; [done|]. split.
        { intros q Hq Hq'. apply list_elem_of_singleton in Hq' as ->.
          apply Hnew, Hex. by apply list_elem_of_In. }
        apply NoDup_singleton.
Qed.

Lemma paths_in_initial_set (hv : list hashrow) :
  forall q, In q (map hv_path hv) ->
    q ∈ (list_to_set (map hv_path hv) : gset string).
Proof. intros q Hq. apply elem_of_list_to_set. by apply list_elem_of_In. Qed.

(** The rows a run leaves, whatever its outcome: those of a pass of the
    loop over some of the files, all of them if the run completes. *)
Lemma generate_sql_rows start_dir dir fs db resume cancel_event :
  let r := generate_sql start_dir dir fs (Some db) resume cancel_event in
  exists db' files core,
    gs_db r = Some db' /\
    core = gs_core_run fs files
             (hashvalues db, list_to_set (map hv_path (hashvalues db)),
              default 0 (gs_initial_row_counter db)) /\
    hashvalues db' = core.1.1 /\
    list_to_set (map hv_path (hashvalues db')) = core.1.2 /\
    (forall t, dir = Some t -> exists n, files = take n (file_list start_dir t)) /\
    (gs_outcome r = Completed ->
     exists t, dir = Some t /\ files = file_list start_dir t).
Proof.
  intros r.
  destruct (generate_sql_inv start_dir dir fs db resume cancel_event)
    as [[Hdb Hf]|[[Hr (db' & Hdb & Hhv)]|H]];
    fold r in Hdb || fold r in H; try fold r in Hf; try fold r in Hr.
  { exists db, []. eexists. split; [done|]. split; [reflexivity|]. simpl.
    split; [done|]. split; [done|]. split.
    - intros t _. by exists 0%nat.
    - by rewrite Hf. }
  { exists db', []. eexists. split; [done|]. split; [reflexivity|]. simpl.
    split; [done|]. split; [by rewrite Hhv|]. split.
    - intros t _. by exists 0%nat.
    - by rewrite Hr. }
  destruct H as (t & conn1 & processed & rc & evs & st & stopped & pre & H).
  cbv zeta in H. destruct H as (-> & Hprep & Hrc & Hloop & Hevs & Hdb & Hout & Hpre).
  destruct (gs_start_state _ _ _ _ _ _ Hprep Hrc) as (Hcons & Hcore & Hrc0).
  destruct (gs_loop_spec _ _ _ _ _ _ _ _ _ Hloop Hcons)
    as (n & Hn & Hcore' & [Hex _] & _ & _ & _ & Hend).
  rewrite Hcore in Hcore'. unfold gs_initial_core, gs_core in Hcore'.
  rewrite Hrc0. simpl.
  assert (Hhv : hashvalues (if stopped then gs_conn st
                            else gs_finalize (gs_conn st) (gs_processed st)
                                   (Z.of_nat (length (file_list start_dir t))))
                = hashvalues (gs_conn st)).
  { destruct stopped; [done|]. apply gs_finalize_spec. }
  eexists. exists (take n (file_list start_dir t)). eexists.
  split; [exact Hdb|]. split; [reflexivity|]. rewrite Hhv, <- Hcore'. simpl.
  split; [done|]. split; [done|]. split.
  - intros t' [= <-]. by exists n.
  - intros Hdone. rewrite Hdone in Hout. destruct stopped; [done|].
    exists t. split; [done|]. rewrite Hend. apply firstn_all.
Qed.

(** X4.  Whatever its flags and its outcome, a run of [generate_sql] on a
    table whose paths are unique leaves a table whose paths are unique. *)
Theorem generate_sql_keeps_paths_unique
  (start_dir : string) (dir : option tree) (fs : gmap string file)
  (db : database) (resume : bool) (cancel_event : option (nat -> bool)) :
  NoDup (map hv_path (hashvalues db)) ->
  exists db',
    gs_db (generate_sql start_dir dir fs (Some db) resume cancel_event) = Some db' /\
    NoDup (map hv_path (hashvalues db')).
Proof.
  intros Hnd.
  destruct (generate_sql_rows start_dir dir fs db resume cancel_event)
    as (db' & files & core & Hdb & -> & Hhv & _).
  exists db'. split; [done|].
  destruct (gs_core_run_new fs files (hashvalues db)
              (list_to_set (map hv_path (hashvalues db)))
              (default 0 (gs_initial_row_counter db))
              (paths_in_initial_set _)) as (new & Hnew & _ & Hkeep).
  rewrite Hhv, Hnew. by apply Hkeep.
Qed.

Lemma generate_sql_keeps_paths_unique_witness :
  exists db',
    gs_db (generate_sql "/r" (Some sample_tree) sample_fs (Some empty_db) false None)
      = Some db' /\
    NoDup (map hv_path (hashvalues db')).
Proof.
  apply (generate_sql_keeps_paths_unique "/r" (Some sample_tree) sample_fs empty_db
           false None).
  simpl. apply NoDup_nil_2.
Defined.

(** X5.  After a run of [generate_sql] that completes, every readable
    file of the walk has a record under its path; and if the path was not
    recorded before the run, that record carries the digest of the file, no
    duplicate flag and [deleted = 0]. *)
Theorem generate_sql_records_every_readable_file
  (start_dir : string) (dir : option tree) (fs : gmap string file)
  (db : database) (resume : bool) (cancel_event : option (nat -> bool)) :
  let r := generate_sql start_dir dir fs (Some db) resume cancel_event in
  gs_outcome r = Completed ->
  exists t db',
    dir = Some t /\ gs_db r = Some db' /\
    forall p f,
      In p (file_list start_dir t) -> fs !! p = Some f -> f_readable f = true ->
      exists row,
        In row (hashvalues db') /\ hv_path row = p /\
        (~ In p (map hv_path (hashvalues db)) ->
         hv_hash row = Some (f_digest f) /\ hv_duplicate row = None /\
         hv_deleted row = 0).
Proof.
  intros r Hdone.
  destruct (generate_sql_rows start_dir dir fs db resume cancel_event)
    as (db' & files & core & Hdb & Hcore & Hhv & Hset & _ & Hall).
  fold r in Hdb, Hall. destruct (Hall Hdone) as (t & -> & ->).
  exists t, db'. split; [done|]. split; [done|]. intros p f Hp Hf Hr.
  pose proof (gs_core_run_settles fs (file_list start_dir t)
                (hashvalues db, list_to_set (map hv_path (hashvalues db)),
                 default 0 (gs_initial_row_counter db))) as Hsettled.
  rewrite <- Hcore in Hsettled. rewrite List.Forall_forall in Hsettled.
  destruct (Hsettled p Hp) as [Hin|Hno].
  2:{ unfold compute_md5 in Hno. by rewrite Hf, Hr in Hno. }
  rewrite <- Hset in Hin. apply elem_of_list_to_set, list_elem_of_In in Hin.
  apply in_map_iff in Hin as (row & Hpath & Hrow).
  exists row. split; [done|]. split; [done|]. intros Hfresh.
  destruct (gs_core_run_new fs (file_list start_dir t) (hashvalues db)
              (list_to_set (map hv_path (hashvalues db)))
              (default 0 (gs_initial_row_counter db))
              (paths_in_initial_set _)) as (new & Hnew & Hrows & _).
  rewrite <- Hcore, <- Hhv in Hnew. rewrite Hnew in Hrow.
  apply in_app_iff in Hrow as [Hold|Hrow].
  { exfalso. apply Hfresh. rewrite <- Hpath. by apply in_map. }
  rewrite List.Forall_forall in Hrows.
  destruct (Hrows row Hrow) as (_ & Hd & Hdel & f' & Hf' & _ & Hh).
  rewrite Hpath, Hf in Hf'. injection Hf' as <-. done.
Qed.

Lemma generate_sql_records_every_readable_file_witness :
  let r := generate_sql "/r" (Some sample_tree) sample_fs (Some empty_db) false None in
  exists t db',
    Some sample_tree = Some t /\ gs_db r = Some db' /\
    forall p f,
      In p (file_list "/r" t) -> sample_fs !! p = Some f -> f_readable f = true ->
      exists row,
        In row (hashvalues db') /\ hv_path row = p /\
        (~ In p (map hv_path (hashvalues empty_db)) ->
         hv_hash row = Some (f_digest f) /\ hv_duplicate row = None /\
         hv_deleted row = 0).
Proof.
  apply (generate_sql_records_every_readable_file "/r" (Some sample_tree) sample_fs
           empty_db false None).
  vm_compute. reflexivity.
Defined.

Lemma clamp_range (n total : Z) : 0 <= total -> 0 <= clamp n total <= total.
Proof.
  intros Ht. unfold clamp.
  destruct (Z.ltb_spec n 0); destruct (Z.ltb_spec total 0);
    destruct (Z.ltb_spec total n); lia.
Qed.

(** *** Progress and the final checkpoint *)

Lemma progress_values_app evs evs' :
  progress_values (evs ++ evs') = progress_values evs ++ progress_values evs'.
Proof. unfold progress_values. apply flat_map_app. Qed.

Lemma gs_step_progress fs total filepath st :
  progress_values (gs_step fs total filepath st).1 = [(gs_processed st + 1, total)].
Proof.
  unfold gs_step. case_bool_decide; [reflexivity|].
  destruct (compute_md5 fs filepath); reflexivity.
Qed.

Lemma counted_from_shift (p total : Z) (m : nat) :
  map (fun i => (p + Z.of_nat i, total)) (seq 2 m)
  = map (fun i => (p + 1 + Z.of_nat i, total)) (seq 1 m).
Proof.
  rewrite <- (seq_shift m 1), map_map. apply map_ext. intros i. f_equal. lia.
Qed.

Lemma gs_loop_progress fs cancel_event total :
  forall files k st evs st' stopped,
    gs_loop fs cancel_event total k files st = (evs, st', stopped) ->
    progress_values evs =
      map (fun i => (gs_processed st + Z.of_nat i, total))
          (seq 1 (length (files_started evs))).
Proof.
  induction files as [|filepath rest IH]; intros k st evs st' stopped Hrun;
    simpl in Hrun.
  - by injection Hrun as <- <- <-.
  - destruct (is_cancelled cancel_event k).
    { by injection Hrun as <- <- <-. }
    pose proof (gs_step_progress fs total filepath st) as Hp1.
    pose proof (gs_step_files_started fs total filepath st) as Hf1.
    pose proof (gs_step_processed fs total filepath st) as Hn1.
    destruct (gs_step fs total filepath st) as [evs1 st1].
    destruct (gs_loop fs cancel_event total (S k) rest st1)
      as [[evs2 st2] stopped2] eqn:Hloop.
    injection Hrun as <- <- <-. simpl in Hp1, Hf1, Hn1.
    rewrite progress_values_app, files_started_app, Hp1, Hf1.
    rewrite (IH _ _ _ _ _ Hloop), Hn1. simpl.
    f_equal. symmetry. apply counted_from_shift.
Qed.

Lemma gs_step_no_terminal fs total filepath st :
  terminal_events (gs_step fs total filepath st).1 = [].
Proof.
  unfold gs_step. case_bool_decide; [reflexivity|].
  destruct (compute_md5 fs filepath); reflexivity.
Qed.

Lemma gs_loop_no_terminal fs cancel_event total :
  forall files k st,
    terminal_events (gs_loop fs cancel_event total k files st).1.1 = [].
Proof.
  induction files as [|filepath rest IH]; intros k st; simpl; [done|].
  destruct (is_cancelled cancel_event k); [done|].
  pose proof (gs_step_no_terminal fs total filepath st) as H1.
  destruct (gs_step fs total filepath st) as [evs1 st1].
  specialize (IH (S k) st1).
  destruct (gs_loop fs cancel_event total (S k) rest st1) as [[evs2 st2] stopped].
  simpl in *. by rewrite terminal_events_app, H1, IH.
Qed.

Lemma gs_loop_cancel_last fs cancel_event total :
  forall files k st evs st',
    gs_loop fs cancel_event total k files st = (evs, st', true) ->
    exists evs0, evs = evs0 ++ [EStatus "cancelled"].
Proof.
  induction files as [|filepath rest IH]; intros k st evs st' E; simpl in E; [done|].
  destruct (is_cancelled cancel_event k).
  { injection E as <- _. by exists [ELog "Operation cancelled by user"]. }
  destruct (gs_step fs total filepath st) as [evs1 st1].
  destruct (gs_loop fs cancel_event total (S k) rest st1)
    as [[evs2 st2] stopped2] eqn:E2.
  injection E as <- _ ->. destruct (IH _ _ _ _ E2) as [evs0 ->].
  exists (evs1 ++ evs0). by rewrite app_assoc.
Qed.

Lemma gs_prepare_start db resume total conn1 processed :
  0 <= total ->
  gs_prepare db resume total = Some (conn1, processed) ->
  (resume = false -> processed = 0) /\ 0 <= processed <= total.
Proof.
  intros Ht. unfold gs_prepare. destruct resume; simpl.
  - destruct (get_metadata_int db "processed_count") as [z|]; [|done].
    intros [= <- <-]. split; [done|]. by apply clamp_range.
  - intros [= <- <-]. split; [done|]. lia.
Qed.

(** X6.  The [progress] events of a run of [generate_sql] count the files
    it starts one by one, from the counter it starts with (0 in a fresh
    run, between 0 and the number of files in a resumed one), each against
    the number of files of the walk.  A run that completes has started every
    file of the walk, and leaves the checkpoint idle, with no current file,
    with that counter advanced by the number of files and with the total
    stored. *)
Theorem generate_sql_progress_and_final_checkpoint
  (start_dir : string) (t : tree) (fs : gmap string file)
  (db : database) (resume : bool) (cancel_event : option (nat -> bool)) :
  let r := generate_sql start_dir (Some t) fs (Some db) resume cancel_event in
  let total := Z.of_nat (length (file_list start_dir t)) in
  exists p0,
    (resume = false -> p0 = 0) /\
    0 <= p0 <= total /\
    progress_values (gs_events r) =
      map (fun i => (p0 + Z.of_nat i, total))
          (seq 1 (length (files_started (gs_events r)))) /\
    (gs_outcome r = Completed ->
     files_started (gs_events r) = file_list start_dir t /\
     exists db',
       gs_db r = Some db' /\
       metadata db' !! "operation_state" = Some "idle" /\
       metadata db' !! "last_file" = Some "" /\
       get_metadata_int db' "processed_count" = Some (p0 + total) /\
       get_metadata_int db' "total_files" = Some total).
Proof.
  intros r total. subst r. unfold generate_sql. fold total.
  destruct (total =? 0) eqn:E0.
  { exists 0. repeat split; try done; lia. }
  destruct (gs_prepare db resume total) as [[conn1 processed]|] eqn:Hprep.
  2:{ exists 0. repeat split; try done; lia. }
  destruct (gs_prepare_start db resume total conn1 processed ltac:(lia) Hprep)
    as [Hfresh Hrange].
  destruct (gs_initial_row_counter conn1) as [rc|] eqn:Hrc.
  2:{ exists processed. repeat split; try done; lia. }
  destruct (gs_loop fs cancel_event total 0 _ _) as [[evs st] stopped] eqn:Hloop.
  pose proof (gs_loop_progress _ _ _ _ _ _ _ _ _ Hloop) as Hprog.
  destruct (gs_start_state _ _ _ _ _ _ Hprep Hrc) as (Hcons & _ & _).
  destruct (gs_loop_spec _ _ _ _ _ _ _ _ _ Hloop Hcons)
    as (n & _ & _ & _ & Hfiles & Hproc & _ & Hend).
  simpl in Hprog, Hproc.
  exists processed. split; [done|]. split; [done|].
  destruct stopped; cbn [gs_events gs_outcome gs_db].
  - split; [|done].
    rewrite !progress_values_app, !files_started_app, Hprog. reflexivity.
  - split.
    { rewrite !progress_values_app, !files_started_app, Hprog. simpl.
      by rewrite !app_nil_r. }
    intros _. split.
    { rewrite !files_started_app, Hfiles, Hend. simpl.
      rewrite app_nil_r. apply firstn_all. }
    eexists. split; [reflexivity|].
    unfold gs_finalize, get_metadata_int, get_metadata.
    meta_simpl. rewrite !int_str, Hproc, Hend. done.
Qed.

(** X7.  The event stream of [generate_sql].  A run that completes has
    [done] as its only terminal event and as its last event (a file that
    cannot be hashed is reported by a [log] event); a run that fails leaves
    the database as it was and has one [error] event, the stream ending with
    [status error]; a cancelled run has no terminal event and ends with
    [status cancelled]; a run in which [int()] raises on stored metadata
    yields no terminal event. *)
Theorem indexer_event_contract
  (start_dir : string) (dir : option tree) (fs : gmap string file)
  (db : option database) (resume : bool) (cancel_event : option (nat -> bool)) :
  let r := generate_sql start_dir dir fs db resume cancel_event in
  match gs_outcome r with
  | Completed =>
      terminal_events (gs_events r) = [EDone] /\
      exists evs, gs_events r = evs ++ [EDone]
  | Failed =>
      gs_db r = db /\
      (exists msg, terminal_events (gs_events r) = [EError msg]) /\
      exists evs, gs_events r = evs ++ [EStatus "error"]
  | Cancelled =>
      terminal_events (gs_events r) = [] /\
      exists evs, gs_events r = evs ++ [EStatus "cancelled"]
  | Raised => terminal_events (gs_events r) = []
  end.
Proof.
  unfold generate_sql. destruct dir as [t|].
  2:{ simpl. split; [done|]. split; [by eexists|]. by eexists [_]. }
  destruct (Z.of_nat (length (file_list start_dir t)) =? 0).
  { simpl. split; [done|]. split; [by eexists|]. by eexists [_; _; _]. }
  destruct db as [conn|].
  2:{ simpl. split; [done|]. split; [by eexists|]. by eexists [_; _; _; _; _]. }
  destruct (gs_prepare conn resume _) as [[conn1 processed]|]; [|done].
  destruct (gs_initial_row_counter conn1) as [rc|]; [|done].
  pose proof (gs_loop_no_terminal fs cancel_event
                (Z.of_nat (length (file_list start_dir t))) (file_list start_dir t) 0
                (GsState conn1 (list_to_set (map hv_path (hashvalues conn)))
                   processed rc)) as Hloop.
  destruct (gs_loop fs cancel_event _ 0 _ _) as [[evs st] stopped] eqn:E.
  simpl in Hloop. destruct stopped; cbn [gs_events gs_outcome].
  - split.
    { rewrite !terminal_events_app, Hloop. reflexivity. }
    do 3 apply ends_with_app. by eapply gs_loop_cancel_last.
  - split.
    { rewrite !terminal_events_app, Hloop. reflexivity. }
    do 4 apply ends_with_app. by eexists [_; _].
Qed.

(** ** Further properties of [generate_and_mark_duplicates] *)

(** *** Row identifiers in the fetched lists are distinct *)

Lemma NoDup_fst_indexed {A} (rows : list A) : NoDup (map fst (indexed rows)).
Proof.
  apply NoDup_alt. intros i j x Hi Hj. unfold indexed in *.
  rewrite list_lookup_fmap, list_lookup_imap in Hi, Hj.
  destruct (rows !! i); [|done]. destruct (rows !! j); [|done].
  simpl in *. congruence.
Qed.

Lemma NoDup_fst_filter {A B} (p : A * B -> bool) (l : list (A * B)) :
  NoDup (map fst l) -> NoDup (map fst (List.filter p l)).
Proof.
  induction l as [|x l IH]; simpl; [done|].
  intros H. apply NoDup_cons in H as [Hx Hl].
  destruct (p x); simpl; [|by apply IH].
  apply NoDup_cons. split; [|by apply IH].
  intros Hin. apply Hx. apply list_elem_of_In in Hin. apply list_elem_of_In.
  apply in_map_iff in Hin as (y & Hy & Hin). apply filter_In in Hin as [Hin _].
  apply in_map_iff. by exists y.
Qed.

Lemma insert_by_row_perm x l : insert_by_row x l ≡ₚ x :: l.
Proof.
  induction l as [|y l IH]; simpl; [done|].
  destruct (hv_row x.2 <=? hv_row y.2); [done|].
  rewrite IH. apply perm_swap.
Qed.

Lemma order_by_row_perm l : order_by_row l ≡ₚ l.
Proof.
  induction l as [|x l IH]; simpl; [done|].
  by rewrite insert_by_row_perm, IH.
Qed.

Lemma NoDup_fst_gmd_visible hv h : NoDup (map fst (gmd_visible hv h)).
Proof.
  unfold gmd_visible, visible. apply NoDup_fst_filter.
  rewrite order_by_row_perm. destruct h as [h|]; simpl; [|apply NoDup_nil_2].
  apply NoDup_fst_filter, NoDup_fst_indexed.
Qed.

(** The first row of a filtered list is in no list of rows to mark. *)
Lemma head_not_in_tail hv h i row rest h' :
  gmd_visible hv h = (i, row) :: rest ->
  ~ In (i, row) (tail (gmd_visible hv h')).
Proof.
  intros Hv Hin.
  assert (h' = h) as ->.
  { pose proof Hin as Hin'. apply in_tail, in_gmd_visible in Hin' as (_ & <- & _).
    assert (Hhd : In (i, row) (gmd_visible hv h)) by (rewrite Hv; by left).
    by apply in_gmd_visible in Hhd as (_ & <- & _). }
  pose proof (NoDup_fst_gmd_visible hv h) as Hnd. rewrite Hv in Hnd, Hin.
  simpl in Hnd, Hin. apply NoDup_cons in Hnd as [Hnot _]. apply Hnot.
  apply list_elem_of_In, in_map_iff. by exists (i, row).
Qed.

(** *** Any run *)

Lemma gmd_group_filegroups total h st :
  filegroups (gmd_conn (gmd_group total h st).2) = filegroups (gmd_conn st).
Proof.
  unfold gmd_group. by destruct (gmd_visible (hashvalues (gmd_conn st)) h).
Qed.

(** Whatever the flags, the loop only marks rows of [visible[1:]]. *)
Lemma gmd_loop_marked cancel_event total last_hash hv0 :
  forall hash_rows k st evs st' stopped,
    gmd_loop cancel_event total last_hash k hash_rows st = (evs, st', stopped) ->
    marked_from hv0 (hashvalues (gmd_conn st)) ->
    marked_from hv0 (hashvalues (gmd_conn st')) /\
    filegroups (gmd_conn st') = filegroups (gmd_conn st).
Proof.
  induction hash_rows as [|h rest IH]; intros k st evs st' stopped Hrun Hm;
    simpl in Hrun.
  - by injection Hrun as <- <- <-.
  - destruct (is_cancelled cancel_event k).
    { by injection Hrun as <- <- <-. }
    destruct (gmd_start_skipping st).
    { by apply IH in Hrun. }
    pose proof (gmd_group_hashvalues total h st) as Hhv.
    pose proof (gmd_group_filegroups total h st) as Hfg.
    destruct (gmd_group total h st) as [evs1 st1].
    destruct (gmd_loop cancel_event total last_hash (S k) rest st1)
      as [[evs2 st2] stopped2] eqn:Hloop.
    injection Hrun as <- <- <-. simpl in Hhv, Hfg.
    apply IH in Hloop as [Hm' Hfg'].
    + split; [done|]. by rewrite Hfg'.
    + rewrite Hhv. by apply marked_from_step.
Qed.

#[local] Arguments generate_and_mark_duplicates : simpl never.

(** A run either leaves the database as it was, or is a run of the loop
    on the selected groups. *)
Lemma generate_and_mark_duplicates_inv db_path db resume cancel_event :
  let r := generate_and_mark_duplicates db_path (Some db) resume cancel_event in
  (gmd_db r = Some db /\
   (forall p, ~ In (EGroupDup p) (gmd_events r)) /\
   (gmd_outcome r = Completed -> gmd_hash_rows (hashvalues db) = [])) \/
  exists conn1 last_hash processed skipping evs st stopped pre db',
    hashvalues conn1 = hashvalues db /\ filegroups conn1 = filegroups db /\
    (resume = false -> skipping = false) /\
    gmd_loop cancel_event
      (Z.of_nat (length (gmd_hash_rows (hashvalues db)))) last_hash 0
      (gmd_hash_rows (hashvalues db))
      (GmdState conn1 processed
         (Z.of_nat (length (List.filter is_duplicate (hashvalues db)))) skipping)
      = (evs, st, stopped) /\
    gmd_events r =
      pre ++ evs ++
      (if stopped then []
       else [EStatus "done"; EDuplicateCount (gmd_duplicate_count st);
             ELog ("Duplicate marking complete. Total duplicates: "
                   +:+ Py.str (gmd_duplicate_count st));
             EDone]) /\
    (forall p, ~ In (EGroupDup p) pre) /\
    gmd_db r = Some db' /\ hashvalues db' = hashvalues (gmd_conn st) /\
    filegroups db' = filegroups (gmd_conn st) /\
    gmd_outcome r = (if stopped then Cancelled else Completed).
Proof.
  unfold generate_and_mark_duplicates.
  destruct (Z.of_nat (length (gmd_hash_rows (hashvalues db))) =? 0) eqn:E.
  { left. repeat split; try done.
    - intros p Hin. simpl in Hin. by repeat destruct Hin as [[=]|Hin].
    - intros _. apply Z.eqb_eq in E.
      destruct (gmd_hash_rows (hashvalues db)); [done|simpl in E; lia]. }
  destruct resume.
  - destruct (get_metadata_int db "dup_processed_count") as [z|].
    2:{ left. repeat split; try done.
        intros p Hin. simpl in Hin. by repeat destruct Hin as [[=]|Hin]. }
    simpl.
    destruct (gmd_loop cancel_event _ _ 0 _ _) as [[evs st] stopped] eqn:Hloop.
    right. do 7 eexists. eexists ([_; _] ++ [_] ++ [_] ++ [_]).
    exists (if stopped then gmd_conn st
            else gmd_finalize (gmd_conn st) (gmd_processed_groups st)
                   (Z.of_nat (length (gmd_hash_rows (hashvalues db))))).
    split; [reflexivity|]. split; [reflexivity|].
    refine (conj _ (conj Hloop _)); [done|].
    destruct stopped; simpl; rewrite ?app_nil_r;
      (split; [reflexivity|]);
      (split; [intros p Hin; simpl in Hin; by repeat destruct Hin as [[=]|Hin]|]);
      done.
  - simpl.
    destruct (gmd_loop cancel_event _ _ 0 _ _) as [[evs st] stopped] eqn:Hloop.
    right. do 7 eexists. eexists ([_; _] ++ [_] ++ [] ++ [_]).
    exists (if stopped then gmd_conn st
            else gmd_finalize (gmd_conn st) (gmd_processed_groups st)
                   (Z.of_nat (length (gmd_hash_rows (hashvalues db))))).
    refine (conj _ (conj _ (conj _ (conj Hloop _)))); [| |done|].
    { by rewrite !hashvalues_set_metadata. }
    { by rewrite !filegroups_set_metadata. }
    destruct stopped; simpl; rewrite ?app_nil_r;
      (split; [reflexivity|]);
      (split; [intros p Hin; simpl in Hin; by repeat destruct Hin as [[=]|Hin]|]);
      done.
Qed.

(** X8.  Whatever its flags and its outcome, a run of
    [generate_and_mark_duplicates] keeps the number and the order of the
    records, leaves [filegroups] alone, and changes a record at most by
    setting [duplicate = 1]; the first record of every filtered list (the
    one the group keeps), every record with a filtered-out path and every
    record without hash are left exactly as they were. *)
Theorem grouper_touches_only_later_visible_rows
  (db_path : string) (db : database) (resume : bool)
  (cancel_event : option (nat -> bool)) :
  let r := generate_and_mark_duplicates db_path (Some db) resume cancel_event in
  exists db',
    gmd_db r = Some db' /\
    length (hashvalues db') = length (hashvalues db) /\
    filegroups db' = filegroups db /\
    (forall i row, hashvalues db !! i = Some row ->
       hashvalues db' !! i = Some row \/
       hashvalues db' !! i = Some (set_duplicate row)) /\
    (forall h i row rest,
       gmd_visible (hashvalues db) h = (i, row) :: rest ->
       hashvalues db' !! i = Some row) /\
    (forall i row, hashvalues db !! i = Some row ->
       visible_path (hv_path row) = false \/ hv_hash row = None ->
       hashvalues db' !! i = Some row).
Proof.
  intros r.
  assert (H : exists db', gmd_db r = Some db' /\
                marked_from (hashvalues db) (hashvalues db') /\
                filegroups db' = filegroups db).
  { destruct (generate_and_mark_duplicates_inv db_path db resume cancel_event)
      as [(Hdb & _)|H]; fold r in Hdb || fold r in H.
    - exists db. split; [done|]. split; [apply marked_from_refl|done].
    - destruct H as (conn1 & last & processed & skipping & evs & st & stopped & pre
                     & db' & Hhv & Hfg & _ & Hloop & _ & _ & Hdb & Hhv' & Hfg' & _).
      exists db'. split; [done|]. rewrite Hhv', Hfg'.
      eapply gmd_loop_marked in Hloop as [Hm Hfg2].
      + split; [exact Hm|]. by rewrite Hfg2.
      + simpl. rewrite Hhv. apply marked_from_refl. }
  destruct H as (db' & Hdb & [Hlen Hm] & Hfg).
  exists db'. split; [done|]. split; [done|]. split; [done|]. split; [|split].
  - intros i row Hrow. destruct (Hm i row Hrow) as [|[? _]]; auto.
  - intros h i row rest Hv.
    assert (Hrow : hashvalues db !! i = Some row).
    { assert (Hin : In (i, row) (gmd_visible (hashvalues db) h))
        by (rewrite Hv; by left).
      by apply in_gmd_visible in Hin as [? _]. }
    destruct (Hm i row Hrow) as [|[_ [h' Hin]]]; [done|].
    by destruct (head_not_in_tail _ _ _ _ _ h' Hv).
  - intros i row Hrow Hout.
    destruct (Hm i row Hrow) as [|[_ [h' Hin]]]; [done|]. exfalso.
    apply in_tail in Hin. unfold gmd_visible, visible in Hin.
    apply filter_In in Hin as [Hin Hvis]. simpl in Hvis.
    apply in_order_by_row, in_where_hash in Hin as (_ & Hh & Hsome).
    destruct Hout as [Hout|Hout]; [by rewrite Hout in Hvis|].
    rewrite Hout in Hh. by subst h'.
Qed.

(** *** A second run *)

Lemma gmd_to_mark_resolved hv h : group_resolved hv h -> gmd_to_mark hv h = [].
Proof.
  intros Hres. unfold gmd_to_mark.
  assert (H : forall l : list (nat * hashrow),
            (forall p, In p l -> is_unmarked p.2 = false) ->
            List.filter (fun p => is_unmarked p.2) l = []).
  { induction l as [|x l IH]; simpl; [done|]. intros Hl.
    rewrite (Hl x (or_introl eq_refl)). apply IH. intros p Hp. apply Hl. by right. }
  apply H. intros [i r] Hin. by apply (Hres i).
Qed.

Lemma gmd_group_resolved total h st :
  group_resolved (hashvalues (gmd_conn st)) h ->
  let r := gmd_group total h st in
  hashvalues (gmd_conn r.2) = hashvalues (gmd_conn st) /\
  (forall p, ~ In (EGroupDup p) r.1).
Proof.
  intros Hres. unfold gmd_group. rewrite (gmd_to_mark_resolved _ _ Hres).
  destruct (gmd_visible (hashvalues (gmd_conn st)) h) as [|base l]; simpl.
  - split; [done|]. intros p [[=]|[]].
  - rewrite update_rows_nil. split; [done|]. intros p [[=]|[[=]|[]]].
Qed.

Lemma gmd_loop_resolved cancel_event total last_hash :
  forall hash_rows k st evs st' stopped,
    gmd_loop cancel_event total last_hash k hash_rows st = (evs, st', stopped) ->
    (forall h, group_resolved (hashvalues (gmd_conn st)) h) ->
    hashvalues (gmd_conn st') = hashvalues (gmd_conn st) /\
    (forall p, ~ In (EGroupDup p) evs).
Proof.
  induction hash_rows as [|h rest IH]; intros k st evs st' stopped Hrun Hres;
    simpl in Hrun.
  - injection Hrun as <- <- <-. split; [done|]. by intros p [].
  - destruct (is_cancelled cancel_event k).
    { injection Hrun as <- <- <-. split; [done|]. intros p [[=]|[[=]|[]]]. }
    destruct (gmd_start_skipping st).
    { by apply IH in Hrun. }
    destruct (gmd_group_resolved total h st (Hres h)) as [Hhv Hev].
    destruct (gmd_group total h st) as [evs1 st1].
    destruct (gmd_loop cancel_event total last_hash (S k) rest st1)
      as [[evs2 st2] stopped2] eqn:Hloop.
    injection Hrun as <- <- <-. simpl in Hhv, Hev.
    apply IH in Hloop as [Hhv' Hev']; [|by rewrite Hhv].
    split; [by rewrite Hhv', Hhv|].
    intros p Hin. apply in_app_iff in Hin as [Hin|Hin];
      [by apply (Hev p)|by apply (Hev' p)].
Qed.

(** X9.  After a fresh run of [generate_and_mark_duplicates] that
    completes, a second run (fresh or resumed, cancelled or not) changes no
    record and yields no [group_dup] event. *)
Theorem grouper_second_run_marks_nothing
  (db_path : string) (db : database) (c1 c2 : option (nat -> bool))
  (resume2 : bool) :
  let first := generate_and_mark_duplicates db_path (Some db) false c1 in
  let second := generate_and_mark_duplicates db_path (gmd_db first) resume2 c2 in
  gmd_outcome first = Completed ->
  hashvalues <$> gmd_db second = hashvalues <$> gmd_db first /\
  (forall p, ~ In (EGroupDup p) (gmd_events second)).
Proof.
  intros first second Hdone.
  destruct (gmd_fresh_run db_path db c1 Hdone) as (db1 & Hdb1 & _ & Hres).
  fold first in Hdb1. subst second. rewrite Hdb1.
  destruct (generate_and_mark_duplicates_inv db_path db1 resume2 c2)
    as [(Hdb & Hev & _)|H].
  - by rewrite Hdb.
  - destruct H as (conn1 & last & processed & skipping & evs & st & stopped & pre
                   & db' & Hhv & _ & _ & Hloop & Hevs & Hpre & Hdb & Hhv' & _).
    apply gmd_loop_resolved in Hloop as [Hhv2 Hev].
    2:{ simpl. by rewrite Hhv. }
    simpl in Hhv2. rewrite Hdb. simpl. rewrite Hhv', Hhv2, Hhv. split; [done|].
    intros p Hin. rewrite Hevs in Hin.
    apply in_app_iff in Hin as [Hin|Hin]; [by apply (Hpre p)|].
    apply in_app_iff in Hin as [Hin|Hin]; [by apply (Hev p)|].
    destruct stopped; simpl in Hin; by repeat destruct Hin as [[=]|Hin].
Qed.

Lemma grouper_second_run_marks_nothing_witness :
  let first :=
    generate_and_mark_duplicates "hashdata.sqlite"
      (Some (Database three_groups [] ∅)) false None in
  let second :=
    generate_and_mark_duplicates "hashdata.sqlite" (gmd_db first) true None in
  hashvalues <$> gmd_db second = hashvalues <$> gmd_db first /\
  (forall p, ~ In (EGroupDup p) (gmd_events second)).
Proof.
  apply (grouper_second_run_marks_nothing "hashdata.sqlite"
           (Database three_groups [] ∅) None None true).
  vm_compute. reflexivity.
Defined.

(** *** The number of duplicates reported *)

Lemma count_in_range (ids : list nat) (n : nat) :
  NoDup ids -> (forall i, i ∈ ids -> (i < n)%nat) ->
  length (List.filter (fun i => bool_decide (i ∈ ids)) (seq 0 n)) = length ids.
Proof.
  intros Hnd Hlt. apply Permutation_length. apply NoDup_Permutation.
  - apply NoDup_ListNoDup, List.NoDup_filter, seq_NoDup.
  - done.
  - intros i. rewrite list_elem_of_In, filter_In, in_seq, bool_decide_eq_true.
    split; [tauto|]. intros Hi. split; [|done]. specialize (Hlt i Hi). lia.
Qed.

Lemma count_marked_from (g : nat -> nat) (ids : list nat) (hv : list hashrow) :
  (forall i r, hv !! i = Some r -> g i ∈ ids -> is_duplicate r = false) ->
  length (List.filter is_duplicate
            (imap (fun i r => if bool_decide (g i ∈ ids) then set_duplicate r else r) hv))
  = (length (List.filter is_duplicate hv)
     + length (List.filter (fun i => bool_decide (i ∈ ids))
                 (map g (seq 0 (length hv)))))%nat.
Proof.
  revert g. induction hv as [|r hv IH]; intros g Hun; [done|].
  assert (IH' := IH (fun i => g (S i)) (fun i r' Hr => Hun (S i) r' Hr)).
  cbv beta in IH'.
  cbn [length seq map imap List.filter]. rewrite <- seq_shift, map_map.
  unfold compose. cbv beta.
  case_bool_decide as Hi.
  - change (is_duplicate (set_duplicate r)) with true. cbn [length].
    rewrite IH', (Hun 0%nat r eq_refl Hi). lia.
  - destruct (is_duplicate r); cbn [length]; rewrite IH'; lia.
Qed.

Lemma unmarked_not_duplicate r : is_unmarked r = true -> is_duplicate r = false.
Proof.
  unfold is_unmarked, is_duplicate. intros H. apply bool_decide_eq_true in H.
  apply bool_decide_eq_false_2. destruct H as [-> | ->]; discriminate.
Qed.

Lemma NoDup_fst_tail {A B} (l : list (A * B)) :
  NoDup (map fst l) -> NoDup (map fst (tail l)).
Proof.
  destruct l as [|x l]; simpl; [done|]. intros H. by apply NoDup_cons in H as [_ ?].
Qed.

(** One iteration raises the number of rows flagged duplicate by the
    number of rows it marks. *)
Lemma gmd_mark_group_count h hv :
  length (List.filter is_duplicate (gmd_mark_group h hv))
  = (length (List.filter is_duplicate hv) + length (gmd_to_mark hv h))%nat.
Proof.
  unfold gmd_mark_group, update_rows.
  rewrite (count_marked_from id).
  - f_equal. rewrite map_id, count_in_range; [by rewrite length_map| |].
    + unfold gmd_to_mark. apply NoDup_fst_filter, NoDup_fst_tail,
        NoDup_fst_gmd_visible.
    + intros i Hi. apply in_gmd_to_mark in Hi as (r & Hin & _).
      apply in_tail, in_gmd_visible in Hin as [Hr _].
      by apply lookup_lt_Some in Hr.
  - intros i r Hr Hi. simpl in Hi. apply in_gmd_to_mark in Hi as (r' & Hin & Hun).
    apply in_tail, in_gmd_visible in Hin as [Hr' _].
    rewrite Hr in Hr'. injection Hr' as <-. by apply unmarked_not_duplicate.
Qed.

Lemma gmd_group_count total h st :
  gmd_duplicate_count st
    = Z.of_nat (length (List.filter is_duplicate (hashvalues (gmd_conn st)))) ->
  let st' := (gmd_group total h st).2 in
  gmd_duplicate_count st'
    = Z.of_nat (length (List.filter is_duplicate (hashvalues (gmd_conn st')))).
Proof.
  intros Hc. pose proof (gmd_group_hashvalues total h st) as Hhv. cbv zeta.
  rewrite Hhv, gmd_mark_group_count. unfold gmd_group, gmd_to_mark.
  destruct (gmd_visible (hashvalues (gmd_conn st)) h) as [|base l]; simpl.
  - rewrite Hc. lia.
  - rewrite Hc. lia.
Qed.

Lemma gmd_loop_count cancel_event total last_hash :
  forall hash_rows k st evs st' stopped,
    gmd_loop cancel_event total last_hash k hash_rows st = (evs, st', stopped) ->
    gmd_duplicate_count st
      = Z.of_nat (length (List.filter is_duplicate (hashvalues (gmd_conn st)))) ->
    gmd_duplicate_count st'
      = Z.of_nat (length (List.filter is_duplicate (hashvalues (gmd_conn st')))).
Proof.
  induction hash_rows as [|h rest IH]; intros k st evs st' stopped Hrun Hc;
    simpl in Hrun.
  - by injection Hrun as <- <- <-.
  - destruct (is_cancelled cancel_event k).
    { by injection Hrun as <- <- <-. }
    destruct (gmd_start_skipping st).
    { by apply IH in Hrun. }
    pose proof (gmd_group_count total h st Hc) as Hc1.
    destruct (gmd_group total h st) as [evs1 st1].
    destruct (gmd_loop cancel_event total last_hash (S k) rest st1)
      as [[evs2 st2] stopped2] eqn:Hloop.
    injection Hrun as <- <- <-. by apply IH in Hloop.
Qed.

(** X10.  When a run of [generate_and_mark_duplicates] that had groups to
    process completes, the number of its last [duplicate_count] event (and
    of its closing log line) is the number of records with [duplicate = 1]
    in the table it leaves. *)
Theorem grouper_reports_number_of_flagged_rows
  (db_path : string) (db : database) (resume : bool)
  (cancel_event : option (nat -> bool)) :
  let r := generate_and_mark_duplicates db_path (Some db) resume cancel_event in
  gmd_outcome r = Completed ->
  gmd_hash_rows (hashvalues db) <> [] ->
  exists db' evs n,
    gmd_db r = Some db' /\
    n = Z.of_nat (length (List.filter is_duplicate (hashvalues db'))) /\
    gmd_events r =
      evs ++ [EStatus "done"; EDuplicateCount n;
              ELog ("Duplicate marking complete. Total duplicates: " +:+ Py.str n);
              EDone].
Proof.
  intros r Hdone Hgroups.
  destruct (generate_and_mark_duplicates_inv db_path db resume cancel_event)
    as [(_ & _ & Hnone)|H]; fold r in Hnone || fold r in H.
  { by destruct Hgroups; apply Hnone. }
  destruct H as (conn1 & last & processed & skipping & evs & st & stopped & pre
                 & db' & Hhv & _ & _ & Hloop & Hevs & _ & Hdb & Hhv' & _ & Hout).
  rewrite Hdone in Hout. destruct stopped; [done|].
  apply gmd_loop_count in Hloop; [|simpl; by rewrite Hhv].
  exists db', (pre ++ evs), (gmd_duplicate_count st).
  split; [done|]. split; [by rewrite Hhv'|]. by rewrite Hevs, app_assoc.
Qed.

Lemma grouper_reports_number_of_flagged_rows_witness :
  let r := generate_and_mark_duplicates "hashdata.sqlite"
             (Some (Database three_groups [] ∅)) false None in
  exists db' evs n,
    gmd_db r = Some db' /\
    n = Z.of_nat (length (List.filter is_duplicate (hashvalues db'))) /\
    gmd_events r =
      evs ++ [EStatus "done"; EDuplicateCount n;
              ELog ("Duplicate marking complete. Total duplicates: " +:+ Py.str n);
              EDone].
Proof.
  apply (grouper_reports_number_of_flagged_rows "hashdata.sqlite"
           (Database three_groups [] ∅) false None).
  - vm_compute. reflexivity.
  - vm_compute. discriminate.
Defined.

(** *** The event stream *)

Lemma gmd_mark_events_no_terminal count rows :
  terminal_events (gmd_mark_events count rows) = [].
Proof.
  revert count. induction rows as [|p rows IH]; intros count; simpl; [done|].
  apply IH.
Qed.

Lemma gmd_group_no_terminal total h st :
  terminal_events (gmd_group total h st).1 = [].
Proof.
  unfold gmd_group.
  destruct (gmd_visible (hashvalues (gmd_conn st)) h); [done|].
  simpl. apply gmd_mark_events_no_terminal.
Qed.

Lemma gmd_loop_no_terminal cancel_event total last_hash :
  forall hash_rows k st,
    terminal_events (gmd_loop cancel_event total last_hash k hash_rows st).1.1 = [].
Proof.
  induction hash_rows as [|h rest IH]; intros k st; simpl; [done|].
  destruct (is_cancelled cancel_event k); [done|].
  destruct (gmd_start_skipping st); [apply IH|].
  pose proof (gmd_group_no_terminal total h st) as H1.
  destruct (gmd_group total h st) as [evs1 st1].
  specialize (IH (S k) st1).
  destruct (gmd_loop cancel_event total last_hash (S k) rest st1)
    as [[evs2 st2] stopped].
  simpl in *. by rewrite terminal_events_app, H1, IH.
Qed.

Lemma gmd_loop_cancel_last cancel_event total last_hash :
  forall hash_rows k st evs st',
    gmd_loop cancel_event total last_hash k hash_rows st = (evs, st', true) ->
    exists evs0, evs = evs0 ++ [EStatus "cancelled"].
Proof.
  induction hash_rows as [|h rest IH]; intros k st evs st' E; simpl in E; [done|].
  destruct (is_cancelled cancel_event k).
  { injection E as <- _. by exists [ELog "Duplicate marking cancelled by user"]. }
  destruct (gmd_start_skipping st); [by eapply IH|].
  destruct (gmd_group total h st) as [evs1 st1].
  destruct (gmd_loop cancel_event total last_hash (S k) rest st1)
    as [[evs2 st2] stopped2] eqn:E2.
  injection E as <- _ ->. destruct (IH _ _ _ _ E2) as [evs0 ->].
  exists (evs1 ++ evs0). by rewrite app_assoc.
Qed.

(** X11.  The event stream of [generate_and_mark_duplicates]: [done] is
    the only terminal event and the last event of a run that completes; a
    run on a missing database leaves nothing behind and has one [error]
    event, the stream ending with [status error]; a cancelled run has no
    terminal event and ends with [status cancelled]. *)
Theorem grouper_event_contract
  (db_path : string) (db : option database) (resume : bool)
  (cancel_event : option (nat -> bool)) :
  let r := generate_and_mark_duplicates db_path db resume cancel_event in
  match gmd_outcome r with
  | Completed =>
      terminal_events (gmd_events r) = [EDone] /\
      exists evs, gmd_events r = evs ++ [EDone]
  | Failed =>
      gmd_db r = db /\
      (exists msg, terminal_events (gmd_events r) = [EError msg]) /\
      exists evs, gmd_events r = evs ++ [EStatus "error"]
  | Cancelled =>
      terminal_events (gmd_events r) = [] /\
      exists evs, gmd_events r = evs ++ [EStatus "cancelled"]
  | Raised => terminal_events (gmd_events r) = []
  end.
Proof.
  unfold generate_and_mark_duplicates. destruct db as [conn|].
  2:{ simpl. split; [done|]. split; [by eexists|]. by eexists [_]. }
  destruct (Z.of_nat (length (gmd_hash_rows (hashvalues conn))) =? 0).
  { simpl. split; [done|]. by eexists [_; _; _; _; _; _]. }
  set (prepared := if resume then _ else _).
  destruct prepared as [[[[conn1 last_hash] processed] resuming]|] eqn:Hprep;
    [|done].
  assert (Hres : terminal_events resuming = []).
  { subst prepared. destruct resume.
    - destruct (get_metadata_int conn "dup_processed_count"); [|done].
      by injection Hprep as <- <- <- <-.
    - by injection Hprep as <- <- <- <-. }
  pose proof (gmd_loop_no_terminal cancel_event
                (Z.of_nat (length (gmd_hash_rows (hashvalues conn)))) last_hash
                (gmd_hash_rows (hashvalues conn)) 0
                (GmdState conn1 processed
                   (Z.of_nat (length (List.filter is_duplicate (hashvalues conn))))
                   (resume && negb (String.eqb last_hash "")))) as Hloop.
  destruct (gmd_loop cancel_event _ last_hash 0 _ _)
    as [[evs st] stopped] eqn:E.
  simpl in Hloop. destruct stopped; cbn [gmd_events gmd_outcome].
  - split.
    { rewrite !terminal_events_app, Hres, Hloop. reflexivity. }
    apply ends_with_app. by eapply gmd_loop_cancel_last.
  - split.
    { rewrite !terminal_events_app, Hres, Hloop. reflexivity. }
    do 2 apply ends_with_app. by eexists [_; _; _].
Qed.

(** ** Further properties of [delete_duplicates_generator] *)

(** X12.  In dry-run mode [delete_duplicates_generator] removes no file
    and changes no record, whatever the other flags and the outcome. *)
Theorem deleter_dry_run_changes_nothing
  (db_path : string) (db : option database) (fs : gmap string file)
  (resume : bool) (cancel_event : option (nat -> bool)) :
  let r := delete_duplicates_generator db_path db fs resume cancel_event true in
  del_files_after r = fs /\
  hashvalues <$> del_db r = hashvalues <$> db.
Proof.
  intros r. destruct db as [db|]; [|done].
  destruct (delete_duplicates_inv db_path db fs resume cancel_event true)
    as [(Hdb & Hfs & _)|H]; fold r in Hdb, Hfs || fold r in H.
  - by rewrite Hdb, Hfs.
  - destruct H as (conn1 & last & processed & skipping & evs & st & stopped & pre
                   & post & db' & Hhv & _ & Hloop & _ & _ & _ & Hdb & Hhv' & Hfs & _).
    apply del_loop_noop in Hloop as (Hhv2 & Hfs2 & _); [|by left].
    simpl in Hhv2, Hfs2. rewrite Hfs, Hfs2, Hdb. simpl.
    by rewrite Hhv', Hhv2, Hhv.
Qed.

(** *** Flags and files move together *)

Lemma del_sync_refl hv fs : del_sync hv fs hv fs.
Proof. split; [done|]. split; intros; by left. Qed.

Lemma set_deleted_idemp r : set_deleted (set_deleted r) = set_deleted r.
Proof. reflexivity. Qed.

Lemma del_files_sync dry_run hv0 fs0 :
  forall to_delete conn fs n evs conn' fs' n',
    (forall i p, In (i, p) to_delete ->
       exists r, hv0 !! i = Some r /\ hv_path r = p /\ pending_delete r = true) ->
    del_sync hv0 fs0 (hashvalues conn) fs ->
    del_files dry_run to_delete conn fs n = (evs, conn', fs', n') ->
    del_sync hv0 fs0 (hashvalues conn') fs'.
Proof.
  induction to_delete as [|[rid path] rest IH];
    intros conn fs n evs conn' fs' n' Hcand Hinv Hrun.
  - simpl in Hrun. by injection Hrun as <- <- <- <-.
  - simpl in Hrun.
    assert (Hrest : forall i p, In (i, p) rest ->
              exists r, hv0 !! i = Some r /\ hv_path r = p /\ pending_delete r = true).
    { intros i p Hin. apply Hcand. by right. }
    destruct dry_run.
    { destruct (del_files true rest conn fs (n + 1)) as [[[evs1 conn1] fs1] n1] eqn:E.
      injection Hrun as <- <- <- <-. by eapply IH. }
    destruct (os_remove fs path) as [fs1|] eqn:Hrm.
    2:{ destruct (del_files false rest conn fs n) as [[[evs1 conn1] fs1] n1] eqn:E.
        injection Hrun as <- <- <- <-. by eapply IH. }
    destruct (del_files false rest _ fs1 (n + 1)) as [[[evs1 conn1] fs2] n1] eqn:E.
    injection Hrun as <- <- <- <-.
    eapply IH in E; [exact E|exact Hrest|]. simpl.
    destruct (Hcand rid path (or_introl eq_refl)) as (r0 & Hr0 & Hp0 & Hpend0).
    destruct Hinv as (Hlen & Hrows & Hfiles).
    assert (Hhad : is_Some (fs0 !! path)).
    { destruct (Hfiles path) as [<-|[Hnone _]].
      - unfold os_remove in Hrm. destruct (fs !! path); [done|discriminate].
      - unfold os_remove in Hrm. by rewrite Hnone in Hrm. }
    assert (Hrid : update_rows set_deleted [rid] (hashvalues conn) !! rid
                   = Some (set_deleted r0)).
    { rewrite update_rows_lookup.
      rewrite bool_decide_eq_true_2 by (by apply list_elem_of_singleton).
      destruct (Hrows rid r0 Hr0) as [E'|[E' _]]; by rewrite E'. }
    split; [|split].
    + by rewrite update_rows_length.
    + intros i r Hr. destruct (decide (i = rid)) as [->|Hne].
      * rewrite Hr0 in Hr. injection Hr as <-. right.
        split; [done|]. split; [done|]. rewrite Hp0. split; [done|].
        rewrite (os_remove_lookup _ _ _ path Hrm). by rewrite decide_True.
      * rewrite update_rows_lookup.
        rewrite bool_decide_eq_false_2 by (by rewrite list_elem_of_singleton).
        destruct (Hrows i r Hr) as [E'|(E' & Hpend & Hhad' & Hgone)];
          rewrite E'; simpl; [by left|right].
        split; [done|]. split; [done|]. split; [done|].
        rewrite (os_remove_lookup _ _ _ (hv_path r) Hrm). by case_decide.
    + intros q. rewrite (os_remove_lookup _ _ _ q Hrm).
      case_decide as Hq.
      * right. split; [done|]. exists rid, r0. by rewrite <- Hq.
      * destruct (Hfiles q) as [E'|(E' & i & r & Hr & Hp & Hpend & Hi)]; [by left|].
        right. split; [done|]. exists i, r. split; [done|]. split; [done|].
        split; [done|]. destruct (decide (i = rid)) as [->|Hne].
        -- rewrite Hr0 in Hr. injection Hr as <-. done.
        -- rewrite update_rows_lookup.
           rewrite bool_decide_eq_false_2 by (by rewrite list_elem_of_singleton).
           by rewrite Hi.
Qed.

Lemma del_candidates_pending hv0 fs0 hv fs h :
  del_sync hv0 fs0 hv fs ->
  forall i p, In (i, p) (del_to_delete hv h) ->
    exists r, hv0 !! i = Some r /\ hv_path r = p /\ pending_delete r = true.
Proof.
  intros (Hlen & Hrows & _) i p Hin.
  apply in_del_to_delete in Hin as (r' & Hin & Hpend & ->).
  apply in_tail, in_del_visible in Hin as [Hr' _].
  destruct (lookup_lt_is_Some_2 hv0 i) as [r0 Hr0].
  { rewrite <- Hlen. by eapply lookup_lt_Some. }
  exists r0. split; [done|].
  destruct (Hrows i r0 Hr0) as [E|[E _]]; rewrite E in Hr'; injection Hr' as <-.
  - done.
  - by rewrite pending_set_deleted in Hpend.
Qed.

Lemma del_group_sync dry_run total h hv0 fs0 st :
  del_sync hv0 fs0 (hashvalues (del_conn st)) (del_fs st) ->
  let st' := (del_group dry_run total h st).2 in
  del_sync hv0 fs0 (hashvalues (del_conn st')) (del_fs st').
Proof.
  intros Hinv. unfold del_group.
  destruct (del_visible (hashvalues (del_conn st)) h) eqn:Ev; simpl; [done|].
  destruct (del_files dry_run _ (del_conn st) (del_fs st) (del_deleted_count st))
    as [[[evs conn'] fs'] n'] eqn:E. simpl.
  eapply del_files_sync in E; [exact E| |exact Hinv].
  by eapply del_candidates_pending.
Qed.

Lemma del_loop_sync dry_run cancel_event total last_hash hv0 fs0 :
  forall hash_rows k st evs st' stopped,
    del_loop dry_run cancel_event total last_hash k hash_rows st
      = (evs, st', stopped) ->
    del_sync hv0 fs0 (hashvalues (del_conn st)) (del_fs st) ->
    del_sync hv0 fs0 (hashvalues (del_conn st')) (del_fs st').
Proof.
  induction hash_rows as [|h rest IH]; intros k st evs st' stopped Hrun Hinv.
  - simpl in Hrun. by injection Hrun as <- <- <-.
  - simpl in Hrun. destruct (is_cancelled cancel_event k).
    { by injection Hrun as <- <- <-. }
    destruct (del_start_skipping st).
    { eapply IH; [exact Hrun|done]. }
    pose proof (del_group_sync dry_run total h hv0 fs0 st Hinv) as H.
    destruct (del_group dry_run total h st) as [evs1 st1].
    destruct (del_loop dry_run cancel_event total last_hash (S k) rest st1)
      as [[evs2 st2] stopped2] eqn:Hloop.
    injection Hrun as <- <- <-. eapply IH; [exact Hloop|exact H].
Qed.

(** X13.  Flags and files move together in [delete_duplicates_generator],
    whatever its flags and its outcome.  A record is changed only by
    [deleted] being set, and then it was flagged [duplicate = 1] and
    [deleted = 0] before the run, its file existed and is gone; a failed
    removal therefore leaves the record as it was.  And a file is gone only
    if it is the file of a record that was so flagged and now has
    [deleted] set; every other file is as it was. *)
Theorem deleter_flags_exactly_the_removed_files
  (db_path : string) (db : database) (fs : gmap string file)
  (resume : bool) (cancel_event : option (nat -> bool)) (dry_run : bool) :
  let r := delete_duplicates_generator db_path (Some db) fs resume cancel_event
             dry_run in
  exists db',
    del_db r = Some db' /\
    length (hashvalues db') = length (hashvalues db) /\
    (forall i row, hashvalues db !! i = Some row ->
       hashvalues db' !! i = Some row \/
       (hashvalues db' !! i = Some (set_deleted row) /\
        hv_duplicate row = Some 1 /\ hv_deleted row = 0 /\
        is_Some (fs !! hv_path row) /\
        del_files_after r !! hv_path row = None)) /\
    (forall p,
       del_files_after r !! p = fs !! p \/
       (del_files_after r !! p = None /\
        exists i row,
          hashvalues db !! i = Some row /\ hv_path row = p /\
          hv_duplicate row = Some 1 /\ hv_deleted row = 0 /\
          hashvalues db' !! i = Some (set_deleted row))).
Proof.
  intros r.
  assert (Hpend : forall row, pending_delete row = true ->
                    hv_duplicate row = Some 1 /\ hv_deleted row = 0).
  { intros row H. unfold pending_delete, is_duplicate in H.
    apply andb_true_iff in H as [H1 H2]. apply bool_decide_eq_true in H1.
    by apply Z.eqb_eq in H2. }
  assert (H : exists db', del_db r = Some db' /\
                del_sync (hashvalues db) fs (hashvalues db') (del_files_after r)).
  { destruct (delete_duplicates_inv db_path db fs resume cancel_event dry_run)
      as [(Hdb & Hfs & _)|H]; fold r in Hdb, Hfs || fold r in H.
    - exists db. split; [done|]. rewrite Hfs. apply del_sync_refl.
    - destruct H as (conn1 & last & processed & skipping & evs & st & stopped & pre
                     & post & db' & Hhv & _ & Hloop & _ & _ & _ & Hdb & Hhv' & Hfs & _).
      exists db'. split; [done|]. rewrite Hhv', Hfs.
      eapply del_loop_sync; [exact Hloop|]. simpl. rewrite Hhv. apply del_sync_refl. }
  destruct H as (db' & Hdb & Hlen & Hrows & Hfiles).
  exists db'. split; [done|]. split; [done|]. split.
  - intros i row Hrow.
    destruct (Hrows i row Hrow) as [|(E & Hp & Hhad & Hgone)]; [by left|right].
    destruct (Hpend row Hp). done.
  - intros p. destruct (Hfiles p) as [|(E & i & row & Hrow & Hpath & Hp & Hi)];
      [by left|right].
    split; [done|]. exists i, row. destruct (Hpend row Hp). done.
Qed.

(** ** Further properties of the helpers on the tables *)

(** *** [insert_or_update_hashvalue] and [get_hash_for_path] *)

Lemma find_rowid_none path hv :
  forall k, find_rowid path k hv = None ->
    forall r, In r hv -> String.eqb (hv_path r) path = false.
Proof.
  induction hv as [|r0 hv IH]; intros k H r Hin; simpl in *; [done|].
  destruct (String.eqb (hv_path r0) path) eqn:E; [done|].
  destruct Hin as [<-|Hin]; [done|]. by eapply IH.
Qed.





Lemma paths_update_rows f ids hv :
  (forall r, hv_path (f r) = hv_path r) ->
  map hv_path (update_rows f ids hv) = map hv_path hv.
Proof.
  intros Hf. apply list_eq. intros i.
  rewrite !list_lookup_fmap, update_rows_lookup.
  destruct (hv !! i) as [r|]; [|done]. simpl. case_bool_decide; by rewrite ?Hf.
Qed.

Lemma paths_insert_or_update conn path filehash :
  NoDup (map hv_path (hashvalues conn)) ->
  NoDup (map hv_path (hashvalues (insert_or_update_hashvalue conn path filehash))).
Proof.
  intros Hnd. unfold insert_or_update_hashvalue.
  destruct (find_rowid path 0 (hashvalues conn)) as [rid|] eqn:Hrid; simpl.
  - by rewrite paths_update_rows.
  - rewrite map_app. simpl. apply NoDup_app. split; [done|]. split.
    + intros q Hq Hq'. apply list_elem_of_singleton in Hq' as ->.
      apply list_elem_of_In, in_map_iff in Hq as (r & Hp & Hr).
      pose proof (find_rowid_none _ _ _ Hrid r Hr) as Hne.
      apply String.eqb_neq in Hne. done.
    + apply NoDup_singleton.
Qed.


(** ** Further properties of [group_files_generator] *)

Lemma fg_evolves_refl g : fg_evolves g g.
Proof. by repeat split. Qed.

Lemma fg_evolves_trans g1 g2 g3 :
  fg_evolves g1 g2 -> fg_evolves g2 g3 -> fg_evolves g1 g3.
Proof.
  intros (H1 & H2 & H3 & H4 & H5 & H6) (K1 & K2 & K3 & K4 & K5 & K6).
  repeat split; try congruence. auto.
Qed.

Lemma fg_db_rel_refl conn : fg_db_rel conn conn.
Proof.
  split; [|done]. intros i g Hg. exists g. split; [done|apply fg_evolves_refl].
Qed.

Lemma fg_db_rel_trans c1 c2 c3 :
  fg_db_rel c1 c2 -> fg_db_rel c2 c3 -> fg_db_rel c1 c3.
Proof.
  intros (H1 & H2 & H3 & H4 & H5) (K1 & K2 & K3 & K4 & K5).
  split; [|split; [|split; [|split]]]; auto.
  - intros i g Hg. destruct (H1 i g Hg) as (g2 & Hg2 & He).
    destruct (K1 i g2 Hg2) as (g3 & Hg3 & He'). exists g3.
    split; [done|]. by eapply fg_evolves_trans.
  - intros key Hk. by rewrite K5, H5.
Qed.

(** An update of rows of [filegroups] in place. *)
Lemma fg_db_rel_map (f : fgrow -> fgrow) conn :
  (forall g, fg_evolves g (f g)) ->
  (forall g, (fg_copied g = 1 <-> is_Some (fg_destinationpath g)) ->
             (fg_copied (f g) = 1 <-> is_Some (fg_destinationpath (f g)))) ->
  fg_db_rel conn (with_filegroups conn (map f (filegroups conn))).
Proof.
  intros Hev Hdest. split; [|split; [|split; [|split]]]; simpl; try done.
  - intros i g Hg. exists (f g). split; [|apply Hev].
    by rewrite list_lookup_fmap, Hg.
  - intros Hnd. rewrite map_map.
    rewrite (map_ext (fun g => fg_originpath (f g)) fg_originpath); [done|].
    intros g. apply Hev.
  - intros H g Hg. apply in_map_iff in Hg as (g0 & <- & Hg0). apply Hdest. by apply H.
Qed.

Lemma fg_db_rel_update_copied conn originpath destinationpath :
  fg_db_rel conn (update_filegroup_copied conn originpath destinationpath).
Proof.
  apply fg_db_rel_map; intros g; destruct (String.eqb (fg_originpath g) originpath);
    try apply fg_evolves_refl; done.
Qed.

Lemma fg_db_rel_set_duplicate conn originpath :
  fg_db_rel conn (set_filegroup_duplicate conn originpath).
Proof.
  apply fg_db_rel_map; intros g; destruct (String.eqb (fg_originpath g) originpath);
    try apply fg_evolves_refl; done.
Qed.

Lemma existsb_originpath fg originpath :
  existsb (fun g => String.eqb (fg_originpath g) originpath) fg = true <->
  In originpath (map fg_originpath fg).
Proof.
  rewrite existsb_exists, in_map_iff. split.
  - intros (g & Hg & E). apply String.eqb_eq in E. by exists g.
  - intros (g & E & Hg). exists g. split; [done|]. by apply String.eqb_eq.
Qed.

Lemma fg_db_rel_insert conn originpath filename extension filehash now :
  fg_db_rel conn
    (insert_filegroup_entry conn originpath filename extension filehash now).1.
Proof.
  unfold insert_filegroup_entry.
  destruct (existsb _ (filegroups conn)) eqn:E; [apply fg_db_rel_refl|]. simpl.
  split; [|split; [|split; [|split]]]; simpl; try done.
  - intros i g Hg. exists g. split; [by apply lookup_app_l_Some|apply fg_evolves_refl].
  - intros Hnd. rewrite map_app. simpl. apply NoDup_app. split; [done|]. split.
    + intros q Hq Hq'. apply list_elem_of_singleton in Hq' as ->.
      apply list_elem_of_In, existsb_originpath in Hq. by rewrite Hq in E.
    + apply NoDup_singleton.
  - intros H g Hg. apply in_app_iff in Hg as [Hg|[<-|[]]]; [by apply H|].
    simpl. split; [done|]. by intros [? ?].
Qed.

Lemma insert_filegroup_entry_recorded conn originpath filename extension filehash now :
  exists i g,
    filegroups (insert_filegroup_entry conn originpath filename extension filehash now).1
      !! i = Some g /\
    fg_originpath g = originpath /\
    (~ In originpath (map fg_originpath (filegroups conn)) ->
     fg_filename g = filename /\ fg_extension g = extension /\
     fg_created_at g = now).
Proof.
  unfold insert_filegroup_entry.
  destruct (existsb _ (filegroups conn)) eqn:E; simpl.
  - apply existsb_originpath in E. pose proof E as E'.
    apply in_map_iff in E as (g & Hp & Hg).
    apply list_elem_of_In, list_elem_of_lookup in Hg as [i Hi].
    exists i, g. done.
  - exists (length (filegroups conn)). eexists. split.
    + rewrite lookup_app_r by done. rewrite Nat.sub_diag. reflexivity.
    + done.
Qed.

Lemma fg_db_rel_set_metadata conn key value :
  String.prefix "fg_" key = true ->
  fg_db_rel conn (set_metadata conn key value).
Proof.
  intros Hk. split; [|split; [|split; [|split]]]; try done.
  - intros i g Hg. exists g. split; [done|apply fg_evolves_refl].
  - intros key' Hk'. apply metadata_set_metadata_ne. intros ->. congruence.
Qed.

Lemma fg_db_rel_insert_or_update conn path filehash :
  fg_db_rel conn (insert_or_update_hashvalue conn path filehash).
Proof.
  split; [|split; [|split; [|split]]].
  - rewrite filegroups_insert_or_update. apply fg_db_rel_refl.
  - by rewrite filegroups_insert_or_update.
  - by rewrite filegroups_insert_or_update.
  - apply paths_insert_or_update.
  - intros key _. unfold insert_or_update_hashvalue.
    by destruct (find_rowid path 0 (hashvalues conn)).
Qed.

Lemma fg_db_rel_mark_duplicate conn hash_value :
  fg_db_rel conn (mark_hashvalues_duplicate conn hash_value).
Proof.
  split; [|split; [|split; [|split]]]; simpl; try done.
  - apply fg_db_rel_refl.
  - intros Hnd. rewrite map_map.
    rewrite (map_ext _ hv_path); [done|].
    intros r. by destruct (bool_decide _ && is_unmarked r).
Qed.

Lemma fg_db_rel_obtain_hash conn fs originpath stored :
  fg_db_rel conn (fg_obtain_hash conn fs originpath stored).1.
Proof.
  unfold fg_obtain_hash. destruct (Py.truthy stored); [apply fg_db_rel_refl|].
  destruct (Py.truthy (get_hash_for_path conn originpath)); [apply fg_db_rel_refl|].
  destruct (compute_md5 fs originpath) as [h|]; [|apply fg_db_rel_refl].
  destruct (Py.truthy (Some h)); [|apply fg_db_rel_refl].
  apply fg_db_rel_insert_or_update.
Qed.

(** Chains of writes, last write first. *)
Ltac fg_rel :=
  repeat first
    [ assumption
    | apply fg_db_rel_refl
    | eapply fg_db_rel_trans;
      [|first [ apply fg_db_rel_set_metadata; reflexivity
              | apply fg_db_rel_update_copied
              | apply fg_db_rel_set_duplicate
              | apply fg_db_rel_mark_duplicate
              | apply fg_db_rel_insert_or_update ]] ].

Lemma fg_entry_rel dest_dir copy_duplicates dry_run processed total entry st :
  let st' := (fg_entry dest_dir copy_duplicates dry_run processed total entry st).2 in
  fg_db_rel (fgs_conn st) (fgs_conn st') /\
  (dry_run = true -> fgs_fs st' = fgs_fs st).
Proof.
  unfold fg_entry, fg_checkpoint.
  pose proof (fg_db_rel_obtain_hash (fgs_conn st) (fgs_fs st)
                (fg_originpath entry) (fg_hash entry)) as Hrel.
  destruct (fg_obtain_hash _ _ _ _) as [conn filehash]. simpl in Hrel.
  destruct (fg_is_duplicate conn filehash && negb copy_duplicates).
  { simpl. split; [fg_rel|done]. }
  destruct dry_run.
  - destruct (path_exists (fgs_fs st) _); simpl; (split; [fg_rel|done]).
  - destruct (safe_copy (fgs_fs st) (fg_originpath entry) _) as [fs copied].
    destruct copied; [|destruct (path_exists fs _)]; simpl; (split; [|done]).
    + destruct filehash as [h|]; [destruct (Py.truthy (Some h))|]; fg_rel.
    + fg_rel.
    + fg_rel.
Qed.

Lemma fg_loop_rel dest_dir copy_duplicates dry_run cancel_event processed total :
  forall rows k st evs st' stopped,
    fg_loop dest_dir copy_duplicates dry_run cancel_event processed total k rows st
      = (evs, st', stopped) ->
    fg_db_rel (fgs_conn st) (fgs_conn st') /\
    (dry_run = true -> fgs_fs st' = fgs_fs st).
Proof.
  induction rows as [|entry rest IH]; intros k st evs st' stopped Hrun;
    simpl in Hrun.
  - injection Hrun as <- <- <-. split; [apply fg_db_rel_refl|done].
  - destruct (is_cancelled cancel_event k).
    { injection Hrun as <- <- <-. simpl. split; [fg_rel|done]. }
    pose proof (fg_entry_rel dest_dir copy_duplicates dry_run processed total
                  entry st) as [Hrel1 Hfs1].
    destruct (fg_entry _ _ _ _ _ entry st) as [evs1 st1].
    destruct (fg_loop _ _ _ _ _ _ (S k) rest st1) as [[evs2 st2] stopped2] eqn:Hloop.
    injection Hrun as <- <- <-. simpl in *.
    destruct (IH _ _ _ _ _ Hloop) as [Hrel2 Hfs2].
    split; [by eapply fg_db_rel_trans|]. intros Hd. by rewrite Hfs2, Hfs1.
Qed.

Lemma fg_evolves_lookup conn conn' i g :
  fg_db_rel conn conn' -> filegroups conn !! i = Some g ->
  exists g', filegroups conn' !! i = Some g' /\ fg_evolves g g'.
Proof. intros [H _]. apply H. Qed.

Lemma fg_scan_rel cancel_event grouping_mode now :
  forall files k conn,
    let r := fg_scan cancel_event grouping_mode now k files conn in
    fg_db_rel conn r.1.2 /\
    (r.2 = false ->
     forall p, In p files ->
       exists i g,
         filegroups r.1.2 !! i = Some g /\ fg_originpath g = p /\
         (~ In p (map fg_originpath (filegroups conn)) ->
          fg_filename g = PathName.basename p /\
          fg_extension g = get_extension_variant p (fg_mode grouping_mode) /\
          fg_created_at g = now)).
Proof.
  induction files as [|path rest IH]; intros k conn; simpl.
  - split; [apply fg_db_rel_refl|]. by intros _ p [].
  - destruct (is_cancelled cancel_event k); simpl.
    { split; [fg_rel|done]. }
    set (filehash := if Py.truthy (get_hash_for_path conn path)
                     then get_hash_for_path conn path else None).
    destruct (insert_filegroup_entry_recorded conn path (PathName.basename path)
                (get_extension_variant path (fg_mode grouping_mode)) filehash now)
      as (i0 & g0 & Hi0 & Hp0 & Hnew0).
    pose proof (fg_db_rel_insert conn path (PathName.basename path)
                  (get_extension_variant path (fg_mode grouping_mode)) filehash now)
      as Hrel0.
    set (conn' := (insert_filegroup_entry conn path _ _ filehash now).1) in *.
    destruct (IH (S k) conn') as [Hrel Hall]. split.
    { by eapply fg_db_rel_trans. }
    intros Hstop p Hp.
    assert (Hhead : exists i g,
              filegroups (fg_scan cancel_event grouping_mode now (S k) rest conn').1.2
                !! i = Some g /\ fg_originpath g = path /\
              (~ In path (map fg_originpath (filegroups conn)) ->
               fg_filename g = PathName.basename path /\
               fg_extension g = get_extension_variant path (fg_mode grouping_mode) /\
               fg_created_at g = now)).
    { destruct (fg_evolves_lookup _ _ i0 g0 Hrel Hi0)
        as (g' & Hi' & E1 & E2 & E3 & _ & E5 & _).
      exists i0, g'. split; [done|]. split; [congruence|].
      intros Hnot. destruct (Hnew0 Hnot) as (? & ? & ?). repeat split; congruence. }
    destruct (String.eqb_spec p path) as [->|Hne]; [exact Hhead|].
    destruct Hp as [->|Hp]; [done|].
    destruct (Hall Hstop p Hp) as (i & g & Hi & Hpath & Hnew).
    exists i, g. split; [done|]. split; [done|]. intros Hnot. apply Hnew.
    intros Hin. apply Hnot. subst conn'. unfold insert_filegroup_entry in Hin.
    destruct (existsb _ (filegroups conn)); [done|]. simpl in Hin.
    rewrite map_app, in_app_iff in Hin. simpl in Hin.
    destruct Hin as [|[|[]]]; [done|congruence].
Qed.

Lemma fg_process_rel dest_dir copy_duplicates resume dry_run cancel_event k head
  conn fs :
  let r := fg_process dest_dir copy_duplicates resume dry_run cancel_event k head
             conn fs in
  exists db', fgr_db r = Some db' /\ fg_db_rel conn db' /\
              (dry_run = true -> fgr_fs r = fs).
Proof.
  unfold fg_process.
  destruct (length (List.filter _ (filegroups conn)) =? 0)%nat.
  { exists conn. split; [done|]. split; [apply fg_db_rel_refl|done]. }
  destruct (if resume then get_metadata_int conn "fg_processed_count" else Some 0)
    as [processed|].
  2:{ exists conn. split; [done|]. split; [apply fg_db_rel_refl|done]. }
  destruct (fg_loop _ _ _ _ _ _ k _ _) as [[evs st] stopped] eqn:Hloop.
  apply fg_loop_rel in Hloop as [Hrel Hfs]. simpl in Hrel, Hfs.
  assert (Hrel0 : fg_db_rel conn (fgs_conn st)).
  { eapply fg_db_rel_trans; [|exact Hrel]. fg_rel. }
  destruct stopped; simpl; eexists; (split; [reflexivity|]); (split; [|done]); fg_rel.
Qed.

#[local] Arguments fg_process : simpl never.

(** What a run leaves, whatever its flags and outcome. *)
Lemma group_files_generator_rel origin_dir dest_dir dir dest_available db fs now
  grouping_mode copy_duplicates resume cancel_event dry_run :
  let r := group_files_generator origin_dir dest_dir dir dest_available (Some db)
             fs now grouping_mode copy_duplicates resume cancel_event dry_run in
  exists db',
    fgr_db r = Some db' /\ fg_db_rel db db' /\
    (dry_run = true -> fgr_fs r = fs) /\
    (resume = false -> fgr_outcome r = Completed ->
     exists t, dir = Some t /\
       forall p, In p (file_list_all origin_dir t) ->
         exists g,
           In g (filegroups db') /\ fg_originpath g = p /\
           (~ In p (map fg_originpath (filegroups db)) ->
            fg_filename g = PathName.basename p /\
            fg_extension g = get_extension_variant p (fg_mode grouping_mode) /\
            fg_created_at g = now)).
Proof.
  unfold group_files_generator.
  destruct dir as [t|].
  2:{ exists db. split; [done|]. split; [apply fg_db_rel_refl|]. by split. }
  destruct dest_available.
  2:{ exists db. split; [done|]. split; [apply fg_db_rel_refl|]. by split. }
  simpl. destruct resume; simpl.
  { match goal with |- context [fg_process ?a ?b ?c ?d ?e ?f ?g ?h ?i] =>
      destruct (fg_process_rel a b c d e f g h i) as (db' & Hdb & Hrel & Hfs)
    end.
    exists db'. split; [done|]. split; [done|]. split; [done|]. by intros [=]. }
  pose proof (fg_scan_rel cancel_event grouping_mode now
                (file_list_all origin_dir t) 0 db) as [Hrel Hall].
  destruct (fg_scan cancel_event grouping_mode now 0 _ db)
    as [[evs conn1] stopped]. simpl in Hrel, Hall.
  destruct stopped.
  { exists conn1. split; [done|]. split; [done|]. split; [done|]. by intros _ [=]. }
  match goal with |- context [fg_process ?a ?b ?c ?d ?e ?f ?g ?h ?i] =>
    destruct (fg_process_rel a b c d e f g h i) as (db' & Hdb & Hrel' & Hfs)
  end.
  exists db'. split; [done|].
  assert (Hrel2 : fg_db_rel conn1 db').
  { eapply fg_db_rel_trans; [|exact Hrel']. fg_rel. }
  split; [by eapply fg_db_rel_trans|]. split; [done|].
  intros _ _. exists t. split; [done|]. intros p Hp.
  destruct (Hall eq_refl p Hp) as (i & g & Hi & Hpath & Hnew).
  destruct (fg_evolves_lookup _ _ i g Hrel2 Hi)
    as (g' & Hi' & E1 & E2 & E3 & _ & E5 & _).
  exists g'. split; [apply list_elem_of_In, list_elem_of_lookup; by exists i|].
  split; [congruence|]. intros Hnot. destruct (Hnew Hnot) as (? & ? & ?).
  repeat split; congruence.
Qed.

(** X17.  Whatever its flags and its outcome, a run of
    [group_files_generator] keeps every entry of [filegroups] at its place
    with its origin path, file name, key, hash and creation time, and never
    resets [copied] from 1; unique origin paths stay unique; if the
    destination was set exactly on the entries flagged copied, it still is;
    and unique paths in [hashvalues] stay unique. *)
Theorem copier_keeps_entry_invariants
  (origin_dir dest_dir : string) (dir : option tree) (dest_available : bool)
  (db : database) (fs : gmap string file) (now grouping_mode : string)
  (copy_duplicates resume : bool) (cancel_event : option (nat -> bool))
  (dry_run : bool) :
  let r := group_files_generator origin_dir dest_dir dir dest_available (Some db)
             fs now grouping_mode copy_duplicates resume cancel_event dry_run in
  exists db',
    fgr_db r = Some db' /\
    (forall i g, filegroups db !! i = Some g ->
       exists g', filegroups db' !! i = Some g' /\ fg_evolves g g') /\
    (NoDup (map fg_originpath (filegroups db)) ->
     NoDup (map fg_originpath (filegroups db'))) /\
    (dest_iff_copied (filegroups db) -> dest_iff_copied (filegroups db')) /\
    (NoDup (map hv_path (hashvalues db)) -> NoDup (map hv_path (hashvalues db'))).
Proof.
  intros r.
  destruct (group_files_generator_rel origin_dir dest_dir dir dest_available db fs
              now grouping_mode copy_duplicates resume cancel_event dry_run)
    as (db' & Hdb & (H1 & H2 & H3 & H4 & _) & _).
  exists db'. done.
Qed.

(** X18.  A run of [group_files_generator] writes no metadata key other
    than keys starting with [fg_]: every other key reads as before, among
    them [last_operation] and [operation_state], which the other jobs and
    the Resume button go by. *)
Theorem copier_writes_only_its_own_metadata
  (origin_dir dest_dir : string) (dir : option tree) (dest_available : bool)
  (db : database) (fs : gmap string file) (now grouping_mode : string)
  (copy_duplicates resume : bool) (cancel_event : option (nat -> bool))
  (dry_run : bool) :
  let r := group_files_generator origin_dir dest_dir dir dest_available (Some db)
             fs now grouping_mode copy_duplicates resume cancel_event dry_run in
  exists db',
    fgr_db r = Some db' /\
    (forall key, String.prefix "fg_" key = false ->
       metadata db' !! key = metadata db !! key) /\
    get_metadata db' "last_operation" None = get_metadata db "last_operation" None /\
    get_metadata db' "operation_state" None = get_metadata db "operation_state" None.
Proof.
  intros r.
  destruct (group_files_generator_rel origin_dir dest_dir dir dest_available db fs
              now grouping_mode copy_duplicates resume cancel_event dry_run)
    as (db' & Hdb & (_ & _ & _ & _ & H) & _).
  exists db'. split; [done|]. split; [done|].
  unfold get_metadata. by rewrite !H.
Qed.


(** X20.  After a fresh run of [group_files_generator] that completes,
    every file of the origin tree has an entry in [filegroups] under its
    path; and if the path had no entry before the run, the entry carries the
    base name of the path, the key of the grouping mode chosen and the clock
    reading of the run. *)
Theorem copier_scan_records_every_file
  (origin_dir dest_dir : string) (dir : option tree) (dest_available : bool)
  (db : database) (fs : gmap string file) (now grouping_mode : string)
  (copy_duplicates : bool) (cancel_event : option (nat -> bool)) (dry_run : bool) :
  let r := group_files_generator origin_dir dest_dir dir dest_available (Some db)
             fs now grouping_mode copy_duplicates false cancel_event dry_run in
  fgr_outcome r = Completed ->
  exists t db',
    dir = Some t /\ fgr_db r = Some db' /\
    forall p, In p (file_list_all origin_dir t) ->
      exists g,
        In g (filegroups db') /\ fg_originpath g = p /\
        (~ In p (map fg_originpath (filegroups db)) ->
         fg_filename g = PathName.basename p /\
         fg_extension g = get_extension_variant p (fg_mode grouping_mode) /\
         fg_created_at g = now).
Proof.
  intros r Hdone.
  destruct (group_files_generator_rel origin_dir dest_dir dir dest_available db fs
              now grouping_mode copy_duplicates false cancel_event dry_run)
    as (db' & Hdb & _ & _ & H).
  destruct (H eq_refl Hdone) as (t & -> & Hall). by exists t, db'.
Qed.

Lemma copier_scan_records_every_file_witness :
  let r := group_files_generator "/o" "/dest" (Some same_name_tree) true
             (Some same_name_db) same_name_fs "2025-01-01T00:00:00+00:00"
             "Group by Extension" true false None false in
  exists t db',
    Some same_name_tree = Some t /\ fgr_db r = Some db' /\
    forall p, In p (file_list_all "/o" t) ->
      exists g,
        In g (filegroups db') /\ fg_originpath g = p /\
        (~ In p (map fg_originpath (filegroups same_name_db)) ->
         fg_filename g = PathName.basename p /\
         fg_extension g = get_extension_variant p (fg_mode "Group by Extension") /\
         fg_created_at g = "2025-01-01T00:00:00+00:00").
Proof.
  apply (copier_scan_records_every_file "/o" "/dest" (Some same_name_tree) true
           same_name_db same_name_fs "2025-01-01T00:00:00+00:00"
           "Group by Extension" true None false).
  vm_compute. reflexivity.
Defined.

(** *** The event stream *)

Lemma fg_entry_no_terminal dest_dir copy_duplicates dry_run processed total entry st :
  terminal_events
    (fg_entry dest_dir copy_duplicates dry_run processed total entry st).1 = [].
Proof.
  unfold fg_entry. destruct (fg_obtain_hash _ _ _ _) as [conn filehash].
  destruct (fg_is_duplicate conn filehash && negb copy_duplicates); [done|].
  destruct (if dry_run then _ else _) as [fs copied].
  destruct copied; [done|]. by destruct (path_exists fs _).
Qed.

Lemma fg_loop_no_terminal dest_dir copy_duplicates dry_run cancel_event processed
  total :
  forall rows k st,
    terminal_events
      (fg_loop dest_dir copy_duplicates dry_run cancel_event processed total k
         rows st).1.1 = [].
Proof.
  induction rows as [|entry rest IH]; intros k st; simpl; [done|].
  destruct (is_cancelled cancel_event k); [done|].
  pose proof (fg_entry_no_terminal dest_dir copy_duplicates dry_run processed total
                entry st) as H1.
  destruct (fg_entry _ _ _ _ _ entry st) as [evs1 st1].
  specialize (IH (S k) st1).
  destruct (fg_loop _ _ _ _ _ _ (S k) rest st1) as [[evs2 st2] stopped].
  simpl in *. by rewrite terminal_events_app, H1, IH.
Qed.

Lemma fg_loop_cancel_last dest_dir copy_duplicates dry_run cancel_event processed
  total :
  forall rows k st evs st',
    fg_loop dest_dir copy_duplicates dry_run cancel_event processed total k rows st
      = (evs, st', true) ->
    exists evs0, evs = evs0 ++ [EStatus "cancelled"].
Proof.
  induction rows as [|entry rest IH]; intros k st evs st' E; simpl in E; [done|].
  destruct (is_cancelled cancel_event k).
  { injection E as <- _. by exists [ELog "FileGrouper cancelled by user"]. }
  destruct (fg_entry _ _ _ _ _ entry st) as [evs1 st1].
  destruct (fg_loop _ _ _ _ _ _ (S k) rest st1) as [[evs2 st2] stopped2] eqn:E2.
  injection E as <- _ ->. destruct (IH _ _ _ _ E2) as [evs0 ->].
  exists (evs1 ++ evs0). by rewrite app_assoc.
Qed.

Lemma fg_scan_events cancel_event grouping_mode now :
  forall files k conn,
    let r := fg_scan cancel_event grouping_mode now k files conn in
    terminal_events r.1.1 = [] /\
    (r.2 = true -> exists evs0, r.1.1 = evs0 ++ [EStatus "cancelled"]).
Proof.
  induction files as [|path rest IH]; intros k conn; simpl; [done|].
  destruct (is_cancelled cancel_event k); [|apply IH].
  simpl. split; [done|]. intros _. by exists [ELog "FileGrouper cancelled during build"].
Qed.

#[local] Arguments fg_process : simpl nomatch.

Lemma fg_process_events dest_dir copy_duplicates resume dry_run cancel_event k head
  conn fs :
  terminal_events head = [] ->
  let r := fg_process dest_dir copy_duplicates resume dry_run cancel_event k head
             conn fs in
  match fgr_outcome r with
  | Completed =>
      terminal_events (fgr_events r) = [EDone] /\
      exists evs, fgr_events r = evs ++ [EDone]
  | Failed => False
  | Cancelled =>
      terminal_events (fgr_events r) = [] /\
      exists evs, fgr_events r = evs ++ [EStatus "cancelled"]
  | Raised => terminal_events (fgr_events r) = []
  end.
Proof.
  intros Hhead. unfold fg_process.
  destruct (length (List.filter _ (filegroups conn)) =? 0)%nat.
  { cbn [fgr_outcome fgr_events]. rewrite terminal_events_app, Hhead. split; [done|].
    apply ends_with_app. by eexists [_; _]. }
  destruct (if resume then get_metadata_int conn "fg_processed_count" else Some 0)
    as [processed|]; [|done].
  match goal with |- context [fg_loop ?a ?b ?c ?d ?e ?f ?g ?h ?i] =>
    pose proof (fg_loop_no_terminal a b c d e f h g i) as Hloop;
    destruct (fg_loop a b c d e f g h i) as [[evs st] stopped] eqn:E
  end.
  simpl in Hloop. destruct stopped; cbn [fgr_outcome fgr_events].
  - split.
    { by rewrite !terminal_events_app, Hhead, Hloop. }
    apply ends_with_app. by eapply fg_loop_cancel_last.
  - split.
    { by rewrite !terminal_events_app, Hhead, Hloop. }
    do 2 apply ends_with_app. by eexists [_; _].
Qed.

#[local] Arguments fg_process : simpl never.

(** X21.  The event stream of [group_files_generator]: [done] is the only
    terminal event and the last event of a run that completes (a copy that
    fails is reported by a [log] event); a run that fails leaves database
    and files as they were and yields an [error] event followed by
    [status error], and nothing else; a cancelled run, in the scan or in
    the processing loop, has no terminal event and ends with
    [status cancelled]. *)
Theorem copier_event_contract
  (origin_dir dest_dir : string) (dir : option tree) (dest_available : bool)
  (db : option database) (fs : gmap string file) (now grouping_mode : string)
  (copy_duplicates resume : bool) (cancel_event : option (nat -> bool))
  (dry_run : bool) :
  let r := group_files_generator origin_dir dest_dir dir dest_available db fs now
             grouping_mode copy_duplicates resume cancel_event dry_run in
  match fgr_outcome r with
  | Completed =>
      terminal_events (fgr_events r) = [EDone] /\
      exists evs, fgr_events r = evs ++ [EDone]
  | Failed =>
      fgr_db r = db /\ fgr_fs r = fs /\
      (exists msg, fgr_events r = [EError msg; EStatus "error"])
  | Cancelled =>
      terminal_events (fgr_events r) = [] /\
      exists evs, fgr_events r = evs ++ [EStatus "cancelled"]
  | Raised => terminal_events (fgr_events r) = []
  end.
Proof.
  unfold group_files_generator. destruct dir as [t|].
  2:{ simpl. split; [done|]. split; [done|]. by eexists. }
  destruct dest_available; simpl.
  2:{ split; [done|]. split; [done|]. by eexists. }
  destruct db as [conn|].
  2:{ split; [done|]. split; [done|]. by eexists. }
  destruct resume; simpl.
  { match goal with |- context [fg_process ?a ?b ?c ?d ?e ?f ?g ?h ?i] =>
      pose proof (fg_process_events a b c d e f g h i eq_refl) as H
    end.
    cbv zeta in H. by destruct (fgr_outcome _). }
  pose proof (fg_scan_events cancel_event grouping_mode now
                (file_list_all origin_dir t) 0 conn) as [Hterm Hlast].
  destruct (fg_scan cancel_event grouping_mode now 0 _ conn)
    as [[evs conn1] stopped]. simpl in Hterm, Hlast.
  destruct stopped.
  { cbn [fgr_outcome fgr_events]. split.
    - unfold terminal_events in *. simpl. exact Hterm.
    - apply (ends_with_app [_; _; _]). by apply Hlast. }
  match goal with |- context [fg_process ?a ?b ?c ?d ?e ?f ?g ?h ?i] =>
    pose proof (fg_process_events a b c d e f g h i eq_refl) as H
  end.
  cbv zeta in H. by destruct (fgr_outcome _).
Qed.

(** ** Names and classification keys *)

Lemma contains_char (c : ascii) (s : string) :
  Py.contains (String c "") s = true <-> In c (list_ascii_of_string s).
Proof.
  induction s as [|x s IH]; simpl; [done|].
  rewrite orb_true_iff, IH. destruct (ascii_dec c x) as [->|Hne].
  - split; [by left|]. intros _. left. by destruct s.
  - split; [intros [|]; [done|by right]|intros [|]; [congruence|by right]].
Qed.

Lemma contains_char_false (c : ascii) (s : string) :
  Py.contains (String c "") s = false <-> ~ In c (list_ascii_of_string s).
Proof. rewrite <- contains_char. by destruct (Py.contains _ s). Qed.

Lemma split_last_none c l : PathName.split_last c l = None -> ~ In c l.
Proof.
  induction l as [|y l IH]; simpl; [by intros _ []|].
  destruct (PathName.split_last c l) as [[a' b']|]; [done|].
  destruct (Ascii.eqb_spec y c) as [->|Hne]; [done|].
  intros _ [|Hin]; [done|]. by apply IH.
Qed.

Lemma split_last_tail_free c l :
  forall a b, PathName.split_last c l = Some (a, b) -> ~ In c b.
Proof.
  induction l as [|x l IH]; intros a b H; simpl in H; [done|].
  destruct (PathName.split_last c l) as [[a' b']|] eqn:E.
  - injection H as _ <-. exact (IH _ _ eq_refl).
  - destruct (Ascii.eqb x c); [|done]. injection H as _ <-.
    by apply split_last_none.
Qed.

Lemma basename_no_separator (path : string) :
  ~ In "/"%char (list_ascii_of_string (PathName.basename path)).
Proof.
  unfold PathName.basename.
  destruct (PathName.split_last "/" (list_ascii_of_string path)) as [[a b]|] eqn:E.
  - rewrite list_ascii_of_string_of_list_ascii. by eapply split_last_tail_free.
  - by apply split_last_none.
Qed.

Lemma lower_ascii_dot (x : ascii) : PathName.lower_ascii x = "."%char -> x = "."%char.
Proof.
  destruct x as [[] [] [] [] [] [] [] []]; vm_compute; congruence.
Qed.

Lemma lower_list (s : string) :
  list_ascii_of_string (PathName.lower s)
  = map PathName.lower_ascii (list_ascii_of_string s).
Proof. induction s as [|x s IH]; simpl; [done|]. by rewrite IH. Qed.

Lemma lstrip_dots_list (s : string) :
  ~ In "."%char (list_ascii_of_string s) -> PathName.lstrip_dots s = s.
Proof.
  destruct s as [|x s]; simpl; [done|].
  destruct (Ascii.eqb_spec x ".") as [->|]; [|done]. intros H. destruct H. by left.
Qed.

(** The suffix of a name, lower-cased and without its dot: not empty and
    free of dots. *)
Lemma suffix_key (path : string) :
  let ext := PathName.lower (PathName.suffix path) in
  ext = "" \/
  (PathName.lstrip_dots ext <> "" /\
   ~ In "."%char (list_ascii_of_string (PathName.lstrip_dots ext))).
Proof.
  unfold PathName.suffix.
  destruct (PathName.split_last "." _) as [[[|a0 a] [|b0 b]]|] eqn:E; try by left.
  right. apply split_last_tail_free in E.
  change (PathName.lower (string_of_list_ascii ("."%char :: b0 :: b)))
    with (String (PathName.lower_ascii ".")
            (PathName.lower (string_of_list_ascii (b0 :: b)))).
  change (PathName.lower_ascii ".") with "."%char.
  cbn [PathName.lstrip_dots]. rewrite Ascii.eqb_refl.
  assert (Hfree : ~ In "."%char
                    (list_ascii_of_string
                       (PathName.lower (string_of_list_ascii (b0 :: b))))).
  { rewrite lower_list, list_ascii_of_string_of_list_ascii, in_map_iff.
    intros (x & Hx & Hin). apply lower_ascii_dot in Hx as ->. done. }
  rewrite lstrip_dots_list by done. split; [done|exact Hfree].
Qed.

Lemma replace_char_list (c : ascii) (s : string) :
  list_ascii_of_string (PathName.replace_char c s)
  = map (fun x => if Ascii.eqb x c then "_"%char else x) (list_ascii_of_string s).
Proof. induction s as [|x s IH]; simpl; [done|]. by rewrite IH. Qed.

Lemma replace_char_empty (c : ascii) (s : string) :
  PathName.replace_char c s = "" -> s = "".
Proof. by destruct s. Qed.

(** X16.  The key [get_extension_variant] returns is never empty, in any
    mode; after the two replacements made by [group_files_generator] it is
    still not empty and contains neither a separator nor a colon; the file
    name taken by [os.path.basename] contains no separator; and in mode
    [ext] the key contains no dot.  So the two components appended to the
    destination folder are single path components. *)
Theorem classification_key_is_a_folder_name (path mode : string) :
  let key := get_extension_variant path mode in
  let safe_ext := PathName.replace_char ":" (PathName.replace_char "/" key) in
  key <> "" /\ safe_ext <> "" /\
  Py.contains "/" safe_ext = false /\
  Py.contains ":" safe_ext = false /\
  Py.contains "/" (PathName.basename path) = false /\
  (mode = "ext" -> Py.contains "." key = false).
Proof.
  intros key safe_ext.
  assert (Hkey : key <> "").
  { subst key. unfold get_extension_variant.
    destruct (String.eqb mode "filename").
    - destruct (String.eqb_spec (PathName.stem path) ""); [done|done].
    - destruct (suffix_key path) as [->|[Hne _]]; [done|]. cbv zeta in Hne.
      destruct (String.eqb (PathName.lower (PathName.suffix path)) ""); [done|].
      by destruct (String.eqb mode "ext"). }
  split; [done|]. split.
  { intros E. by do 2 apply replace_char_empty in E. }
  split; [|split; [|split]].
  - apply contains_char_false. subst safe_ext.
    rewrite !replace_char_list, map_map, in_map_iff. intros (x & Hx & _).
    destruct (Ascii.eqb_spec x "/") as [E|Hne]; [by vm_compute in Hx|].
    destruct (Ascii.eqb x ":"); [by vm_compute in Hx|done].
  - apply contains_char_false. subst safe_ext.
    rewrite replace_char_list, in_map_iff. intros (x & Hx & _).
    destruct (Ascii.eqb_spec x ":") as [E|Hne]; [by vm_compute in Hx|done].
  - apply contains_char_false, basename_no_separator.
  - intros ->. apply contains_char_false. subst key. unfold get_extension_variant.
    simpl. destruct (suffix_key path) as [->|[_ Hfree]].
    + simpl. vm_compute. intuition discriminate.
    + cbv zeta in Hfree.
      destruct (String.eqb (PathName.lower (PathName.suffix path)) ""); [|done].
      vm_compute. intuition discriminate.
Qed.

(** ** The destination check of [App.run_filegroup] *)




(** ** Further properties of [delete_empty_folders_generator] *)

Lemma pr_walk_unfold cancel_event rmdir_fails dry_run total_dirs root files dirs st :
  pr_walk cancel_event rmdir_fails dry_run total_dirs root (Node files dirs) st =
  let '(evs, dirs', st', stopped) :=
    pr_below (pr_walk cancel_event rmdir_fails dry_run total_dirs) root dirs st in
  if stopped then (evs, Node files dirs', st', true)
  else if is_cancelled cancel_event (pr_polls st') then
    (evs ++ [EStatus "Cancelled by user."; EDone], Node files dirs', st', true)
  else
    let '(evs2, dirs'', st'') :=
      pr_body rmdir_fails dry_run total_dirs root dirs'
        (PrState (S (pr_polls st')) (pr_processed st') (pr_deleted_count st')) in
    (evs ++ evs2, Node files dirs'', st'', false).
Proof. reflexivity. Qed.

Lemma count_dirs_node files dirs :
  count_dirs (Node files dirs) = (length dirs + dirs_count dirs)%nat.
Proof. reflexivity. Qed.

Lemma file_at_node files dirs ds f :
  file_at (Node files dirs) ds f <->
  (ds = [] /\ In f files) \/
  (exists d ds', ds = d :: ds' /\ files_below dirs d ds' f).
Proof.
  split.
  - inversion 1; subst; [by left|]. right. do 2 eexists. split; [done|]. by eexists.
  - intros [[-> Hf]|(d & ds' & -> & sub & Hin & Hat)]; [by constructor|].
    by econstructor.
Qed.

Lemma is_empty_dir_spec t : is_empty_dir t = true -> t = Node [] [].
Proof. by destruct t as [[|??] [|??]]. Qed.

Lemma files_below_cons d0 sub0 l d ds f :
  files_below ((d0, sub0) :: l) d ds f <->
  (d = d0 /\ file_at sub0 ds f) \/ files_below l d ds f.
Proof.
  unfold files_below. simpl. split.
  - intros (sub & [[= -> ->]|Hin] & Hat); [by left|right; by exists sub].
  - intros [[-> Hat]|(sub & Hin & Hat)]; [exists sub0|exists sub]; auto.
Qed.

Lemma counted_shift (first total : Z) (n : nat) :
  forall m a,
    map (fun i => (first + Z.of_nat i, total)) (seq (a + n) m)
    = map (fun i => (first + Z.of_nat n + Z.of_nat i, total)) (seq a m).
Proof.
  induction m as [|m IH]; intros a; simpl; [done|]. f_equal.
  - f_equal. lia.
  - apply (IH (S a)).
Qed.

Lemma counted_app (first total : Z) (n m : nat) :
  counted first total (n + m)
  = counted first total n ++ counted (first + Z.of_nat n) total m.
Proof.
  unfold counted. rewrite seq_app, map_app. f_equal. apply (counted_shift _ _ n m 1).
Qed.

(** *** The body of the loop *)

Lemma pr_body_spec rmdir_fails dry_run total_dirs root :
  forall dirs st evs dirs' st',
    pr_body rmdir_fails dry_run total_dirs root dirs st = (evs, dirs', st') ->
    (forall d ds f, files_below dirs' d ds f <-> files_below dirs d ds f) /\
    dirs_count dirs' = dirs_count dirs /\
    (length dirs' <= length dirs)%nat /\
    (forall p, In p dirs' -> In p dirs) /\
    (dry_run = true -> dirs' = dirs) /\
    (dry_run = false ->
     pr_deleted_count st'
       = pr_deleted_count st + Z.of_nat (length dirs - length dirs')) /\
    pr_polls st' = pr_polls st /\
    pr_processed st' = pr_processed st + Z.of_nat (length dirs) /\
    progress_values evs = counted (pr_processed st) total_dirs (length dirs) /\
    (dry_run = false -> (forall p, rmdir_fails p = false) ->
     forallb (fun p => negb (is_empty_dir (snd p))) dirs' = true).
Proof.
  induction dirs as [|[d sub] rest IH]; intros st evs dirs' st' Hrun; simpl in Hrun.
  - injection Hrun as <- <- <-. repeat split; try done; simpl; lia.
  - set (step := if is_empty_dir sub then _ else _) in Hrun.
    destruct step as [[evs1 kept] deleted_count] eqn:Hstep.
    destruct (pr_body rmdir_fails dry_run total_dirs root rest _)
      as [[evs2 rest'] st2] eqn:Hrest.
    injection Hrun as <- <- <-.
    apply IH in Hrest
      as (Hfiles & Hcount & Hlen & Hsub & Hdry & Hdel & Hpolls & Hproc & Hprog & Hne).
    simpl in Hdel, Hpolls, Hproc, Hprog.
    assert (Hcase :
      (kept = [(d, sub)] /\ progress_values evs1 = [] /\
       (dry_run = false -> deleted_count = pr_deleted_count st) /\
       (dry_run = false -> (forall p, rmdir_fails p = false) ->
        is_empty_dir sub = false)) \/
      (kept = [] /\ progress_values evs1 = [] /\ sub = Node [] [] /\
       dry_run = false /\ deleted_count = pr_deleted_count st + 1)).
    { subst step. destruct (is_empty_dir sub) eqn:He.
      - destruct dry_run.
        + injection Hstep as <- <- <-. left. by repeat split.
        + destruct (rmdir_fails (OsPath.join root d)) eqn:Hf.
          * injection Hstep as <- <- <-. left. repeat split; try done.
            intros _ Hno. by rewrite Hno in Hf.
          * injection Hstep as <- <- <-. right. repeat split; try done.
            by apply is_empty_dir_spec.
      - injection Hstep as <- <- <-. left. by repeat split. }
    assert (Hprog' : progress_values (evs1 ++ [EProgress (pr_processed st + 1) total_dirs]
                                        ++ evs2)
                     = counted (pr_processed st) total_dirs (S (length rest))).
    { rewrite !progress_values_app, Hprog.
      change (S (length rest)) with (1 + length rest)%nat. rewrite counted_app.
      destruct Hcase as [(_ & -> & _)|(_ & -> & _)]; reflexivity. }
    destruct Hcase as [(-> & _ & Hd & Hn)|(-> & _ & -> & -> & ->)]; simpl.
    + split.
      { intros d0 ds f. rewrite !files_below_cons, Hfiles. tauto. }
      split; [by rewrite Hcount|]. split; [lia|]. split.
      { intros p [|]; auto. }
      split; [intros Hd'; by rewrite Hdry|]. split.
      { intros Hd'. rewrite Hdel, Hd by done. lia. }
      split; [done|]. split; [lia|]. split; [exact Hprog'|].
      intros Hd' Hno. by rewrite Hn, Hne.
    + split.
      { intros d0 ds f. rewrite files_below_cons, Hfiles. split; [tauto|].
        intros [[_ Hat]|]; [|done]. inversion Hat; subst; simpl in *; done. }
      split; [by rewrite Hcount|]. split; [lia|]. split; [auto|].
      split; [done|]. split.
      { intros _. rewrite Hdel by done. lia. }
      split; [done|]. split; [lia|]. split; [exact Hprog'|].
      intros _ Hno. by apply Hne.
Qed.

(** *** The walk below the sub-directories *)

Lemma pr_below_cons walk root p l st :
  pr_below walk root (p :: l) st =
  let '(evs1, sub', st1, stopped1) := walk (OsPath.join root (fst p)) (snd p) st in
  if stopped1 then (evs1, (fst p, sub') :: l, st1, true)
  else
    let '(evs2, l'', st2, stopped2) := pr_below walk root l st1 in
    (evs1 ++ evs2, (fst p, sub') :: l'', st2, stopped2).
Proof. reflexivity. Qed.

Lemma pr_below_spec cancel_event rmdir_fails dry_run total_dirs root :
  forall l,
    Forall (fun p => pr_walk_ok cancel_event rmdir_fails dry_run total_dirs (snd p)) l ->
    forall st evs l' st' stopped,
      pr_below (pr_walk cancel_event rmdir_fails dry_run total_dirs) root l st
        = (evs, l', st', stopped) ->
      length l' = length l /\
      (forall d ds f, files_below l' d ds f <-> files_below l d ds f) /\
      (dirs_count l' <= dirs_count l)%nat /\
      (dry_run = true -> l' = l) /\
      (dry_run = false ->
       pr_deleted_count st'
         = pr_deleted_count st + Z.of_nat (dirs_count l - dirs_count l')) /\
      (exists n, (n <= dirs_count l)%nat /\
         pr_processed st' = pr_processed st + Z.of_nat n /\
         progress_values evs = counted (pr_processed st) total_dirs n /\
         (stopped = false -> n = dirs_count l)) /\
      (stopped = false -> dry_run = false -> (forall p, rmdir_fails p = false) ->
       forallb (fun p => no_empty_dirs (snd p)) l' = true).
Proof.
  induction 1 as [|[d sub] l Hsub _ IH]; intros st evs l' st' stopped Hrun.
  - injection Hrun as <- <- <- <-.
    split; [done|]. split; [done|]. split; [done|]. split; [done|].
    split; [intros _; simpl; lia|]. split; [|done].
    exists 0%nat. split; [done|]. split; [lia|]. by split.
  - rewrite pr_below_cons in Hrun. simpl in Hrun, Hsub.
    destruct (pr_walk cancel_event rmdir_fails dry_run total_dirs
                (OsPath.join root d) sub st) as [[[evs1 sub'] st1] stopped1] eqn:Hwalk.
    apply Hsub in Hwalk
      as (Hf1 & Hc1 & Hdry1 & Hdel1 & (n1 & Hn1 & Hp1 & Hprog1 & Hall1) & Hclean1).
    destruct stopped1.
    + injection Hrun as <- <- <- <-. simpl.
      split; [done|]. split.
      { intros d0 ds f. rewrite !files_below_cons, Hf1. tauto. }
      split; [lia|]. split; [intros Hd; by rewrite Hdry1|]. split.
      { intros Hd. rewrite Hdel1 by done. f_equal. lia. }
      split; [|done]. exists n1. split; [lia|]. by repeat split.
    + destruct (pr_below _ root l st1) as [[[evs2 l2] st2] stopped2] eqn:Hrest.
      injection Hrun as <- <- <- <-.
      apply IH in Hrest
        as (Hlen & Hf2 & Hc2 & Hdry2 & Hdel2 & (n2 & Hn2 & Hp2 & Hprog2 & Hall2)
            & Hclean2).
      simpl. split; [by rewrite Hlen|]. split.
      { intros d0 ds f. rewrite !files_below_cons, Hf1, Hf2. tauto. }
      split; [lia|]. split; [intros Hd; by rewrite Hdry1, Hdry2|]. split.
      { intros Hd. rewrite Hdel2, Hdel1 by done. lia. }
      split.
      { exists (n1 + n2)%nat. split; [lia|]. split; [lia|]. split.
        - rewrite progress_values_app, Hprog1, Hprog2, Hp1. symmetry.
          apply counted_app.
        - intros Hs. rewrite Hall1, Hall2 by done. done. }
      intros Hs Hd Hno. rewrite Hclean1, Hclean2 by done. done.
Qed.

(** *** The walk *)

Lemma pr_walk_spec cancel_event rmdir_fails dry_run total_dirs (t : tree) :
  pr_walk_ok cancel_event rmdir_fails dry_run total_dirs t.
Proof.
  induction t as [files dirs IH] using tree_rect_nested.
  intros root st evs t' st' stopped Hrun. rewrite pr_walk_unfold in Hrun.
  destruct (pr_below _ root dirs st) as [[[evs1 dirs1] st1] stopped1] eqn:Hbelow.
  apply (pr_below_spec _ _ _ _ _ _ IH) in Hbelow
    as (Hlen & Hf1 & Hc1 & Hdry1 & Hdel1 & (n1 & Hn1 & Hp1 & Hprog1 & Hall1) & Hclean1).
  assert (Hstop : forall evs0,
            progress_values evs0 = progress_values evs1 ->
            (forall ds f, file_at (Node files dirs1) ds f
                          <-> file_at (Node files dirs) ds f) /\
            (count_dirs (Node files dirs1) <= count_dirs (Node files dirs))%nat /\
            (dry_run = true -> Node files dirs1 = Node files dirs) /\
            (dry_run = false ->
             pr_deleted_count st1
               = pr_deleted_count st
                 + Z.of_nat (count_dirs (Node files dirs)
                             - count_dirs (Node files dirs1))) /\
            (exists n, (n <= count_dirs (Node files dirs))%nat /\
               pr_processed st1 = pr_processed st + Z.of_nat n /\
               progress_values evs0 = counted (pr_processed st) total_dirs n /\
               (true = false -> n = count_dirs (Node files dirs))) /\
            (true = false -> dry_run = false -> (forall p, rmdir_fails p = false) ->
             no_empty_dirs (Node files dirs1) = true)).
  { intros evs0 Hevs0. rewrite !count_dirs_node, Hlen. split.
    { intros ds f. rewrite !file_at_node. by setoid_rewrite Hf1. }
    split; [lia|]. split; [intros Hd; by rewrite Hdry1|]. split.
    { intros Hd. rewrite Hdel1 by done. f_equal. lia. }
    split; [|done]. exists n1. split; [lia|]. rewrite Hevs0. by repeat split. }
  destruct stopped1.
  { injection Hrun as <- <- <- <-. by apply Hstop. }
  destruct (is_cancelled cancel_event (pr_polls st1)).
  { injection Hrun as <- <- <- <-. apply Hstop.
    rewrite progress_values_app. simpl. apply app_nil_r. }
  clear Hstop.
  destruct (pr_body rmdir_fails dry_run total_dirs root dirs1 _)
    as [[evs2 dirs2] st2] eqn:Hbody.
  injection Hrun as <- <- <- <-.
  apply pr_body_spec in Hbody
    as (Hf2 & Hc2 & Hlen2 & Hsub2 & Hdry2 & Hdel2 & _ & Hp2 & Hprog2 & Hne2).
  simpl in Hdel2, Hp2, Hprog2. rewrite !count_dirs_node. split.
  { intros ds f. rewrite !file_at_node. setoid_rewrite Hf2. by setoid_rewrite Hf1. }
  split; [lia|]. split; [intros Hd; by rewrite Hdry2, Hdry1|]. split.
  { intros Hd. rewrite Hdel2, Hdel1 by done. lia. }
  split.
  { exists (n1 + length dirs1)%nat. rewrite (Hall1 eq_refl). split; [lia|].
    split; [lia|]. split; [|intros _; lia].
    rewrite progress_values_app, Hprog1, Hprog2, Hp1, (Hall1 eq_refl). symmetry.
    apply counted_app. }
  intros _ Hd Hno. simpl. apply forallb_forall. intros p Hp.
  specialize (Hne2 Hd Hno). specialize (Hclean1 eq_refl Hd Hno).
  rewrite forallb_forall in Hne2, Hclean1.
  by rewrite (Hne2 p Hp), (Hclean1 p (Hsub2 p Hp)).
Qed.

#[local] Arguments pr_walk : simpl never.

(** X23.  Whatever its flags and its outcome, a run of
    [delete_empty_folders_generator] keeps the root and every file, each
    below the same chain of directories, and adds none; directories only
    disappear; and a dry run leaves the tree exactly as it was. *)
Theorem pruner_keeps_every_file
  (startdir : string) (t : tree) (rmdir_fails : string -> bool)
  (cancel_event : option (nat -> bool)) (dry_run : bool) :
  let r := delete_empty_folders_generator startdir (Some t) rmdir_fails cancel_event
             dry_run in
  exists t',
    pr_tree r = Some t' /\
    (forall ds f, file_at t' ds f <-> file_at t ds f) /\
    (count_dirs t' <= count_dirs t)%nat /\
    (dry_run = true -> t' = t).
Proof.
  unfold delete_empty_folders_generator.
  destruct (Z.of_nat (count_dirs t) =? 0); [by exists t|].
  destruct (pr_walk cancel_event rmdir_fails dry_run _ startdir t _)
    as [[[evs t'] st] stopped] eqn:Hwalk.
  apply pr_walk_spec in Hwalk as (Hf & Hc & Hdry & _).
  exists t'. by destruct stopped.
Qed.

(** X24.  After a real run of [delete_empty_folders_generator] that
    completes with no [rmdir] failing, no directory below the root is empty,
    at any depth: a chain of directories holding nothing but each other is
    removed in the one pass. *)
Theorem pruner_leaves_no_empty_directory
  (startdir : string) (t : tree) (cancel_event : option (nat -> bool)) :
  let r := delete_empty_folders_generator startdir (Some t) (fun _ => false)
             cancel_event false in
  pr_outcome r = Completed ->
  exists t', pr_tree r = Some t' /\ no_empty_dirs t' = true.
Proof.
  unfold delete_empty_folders_generator.
  destruct (Z.of_nat (count_dirs t) =? 0) eqn:E.
  { intros _. exists t. split; [done|]. apply Z.eqb_eq in E.
    destruct t as [files [|p dirs]]; [done|]. rewrite count_dirs_node in E.
    simpl in E. lia. }
  destruct (pr_walk cancel_event _ false _ startdir t _)
    as [[[evs t'] st] stopped] eqn:Hwalk.
  apply pr_walk_spec in Hwalk as (_ & _ & _ & _ & _ & Hclean).
  destruct stopped; [done|]. intros _. exists t'. split; [done|]. by apply Hclean.
Qed.

Lemma pruner_leaves_no_empty_directory_witness :
  exists t',
    pr_tree (delete_empty_folders_generator "/r" (Some hollow_tree) (fun _ => false)
               None false) = Some t' /\
    no_empty_dirs t' = true.
Proof.
  apply (pruner_leaves_no_empty_directory "/r" hollow_tree None).
  vm_compute. reflexivity.
Defined.

(** X25.  A run of [delete_empty_folders_generator] that completes yields
    one [progress] event for every directory counted in the first phase,
    numbered from 1 to that count, so that the last one stands for 100
    percent; and the number a real run reports as removed is the number of
    directories that are gone. *)
Theorem pruner_counts_every_directory_once
  (startdir : string) (t : tree) (rmdir_fails : string -> bool)
  (cancel_event : option (nat -> bool)) (dry_run : bool) :
  let r := delete_empty_folders_generator startdir (Some t) rmdir_fails cancel_event
             dry_run in
  pr_outcome r = Completed ->
  exists t',
    pr_tree r = Some t' /\
    progress_values (pr_events r)
      = map (fun i => (Z.of_nat i, Z.of_nat (count_dirs t))) (seq 1 (count_dirs t)) /\
    (dry_run = false -> count_dirs t <> 0%nat ->
     exists evs,
       pr_events r =
         evs ++ [EStatus ("Deletion complete. Removed "
                          +:+ Py.str (Z.of_nat (count_dirs t - count_dirs t'))
                          +:+ " empty folders.");
                 EDone]).
Proof.
  unfold delete_empty_folders_generator.
  destruct (Z.of_nat (count_dirs t) =? 0) eqn:E.
  { intros _. exists t. split; [done|]. apply Z.eqb_eq in E.
    assert (count_dirs t = 0%nat) as -> by lia. split; [done|]. done. }
  destruct (pr_walk cancel_event rmdir_fails dry_run _ startdir t _)
    as [[[evs t'] st] stopped] eqn:Hwalk.
  apply pr_walk_spec in Hwalk
    as (_ & _ & _ & Hdel & (n & _ & _ & Hprog & Hall) & _).
  destruct stopped; [done|]. intros _. exists t'. split; [done|].
  cbn [pr_events]. split.
  - rewrite !progress_values_app, Hprog, (Hall eq_refl). simpl.
    rewrite app_nil_r. reflexivity.
  - intros Hd _. rewrite (Hdel Hd). simpl.
    eexists (_ :: _ :: _ :: evs). rewrite <- !app_comm_cons. reflexivity.
Qed.

Lemma pruner_counts_every_directory_once_witness :
  let r := delete_empty_folders_generator "/r" (Some hollow_tree) (fun _ => false)
             None false in
  exists t',
    pr_tree r = Some t' /\
    progress_values (pr_events r)
      = map (fun i => (Z.of_nat i, Z.of_nat (count_dirs hollow_tree)))
            (seq 1 (count_dirs hollow_tree)) /\
    (false = false -> count_dirs hollow_tree <> 0%nat ->
     exists evs,
       pr_events r =
         evs ++ [EStatus ("Deletion complete. Removed "
                          +:+ Py.str (Z.of_nat (count_dirs hollow_tree - count_dirs t'))
                          +:+ " empty folders.");
                 EDone]).
Proof.
  apply (pruner_counts_every_directory_once "/r" hollow_tree (fun _ => false) None
           false).
  vm_compute. reflexivity.
Defined.

(** ** Resume *)

(** *** Cancel, then Resume *)

Lemma gs_loop_cancelled fs cancel_event total :
  forall files k st evs st',
    gs_loop fs cancel_event total k files st = (evs, st', true) ->
    metadata (gs_conn st') !! "last_operation" = Some "generate_sql".
Proof.
  induction files as [|filepath rest IH]; intros k st evs st' E; simpl in E; [done|].
  destruct (is_cancelled cancel_event k).
  { injection E as _ <-. cbn [gs_conn gmd_conn del_conn]. by meta_simpl. }
  destruct (gs_step fs total filepath st) as [evs1 st1].
  destruct (gs_loop fs cancel_event total (S k) rest st1)
    as [[evs2 st2] stopped2] eqn:E2.
  injection E as _ <- ->. by eapply IH.
Qed.

Lemma gmd_loop_cancelled cancel_event total last_hash :
  forall hash_rows k st evs st',
    gmd_loop cancel_event total last_hash k hash_rows st = (evs, st', true) ->
    metadata (gmd_conn st') !! "last_operation" = Some "calculate_duplicates".
Proof.
  induction hash_rows as [|h rest IH]; intros k st evs st' E; simpl in E; [done|].
  destruct (is_cancelled cancel_event k).
  { injection E as _ <-. cbn [gs_conn gmd_conn del_conn]. by meta_simpl. }
  destruct (gmd_start_skipping st); [by eapply IH|].
  destruct (gmd_group total h st) as [evs1 st1].
  destruct (gmd_loop cancel_event total last_hash (S k) rest st1)
    as [[evs2 st2] stopped2] eqn:E2.
  injection E as _ <- ->. by eapply IH.
Qed.

Lemma del_loop_cancelled dry_run cancel_event total last_hash :
  forall hash_rows k st evs st',
    del_loop dry_run cancel_event total last_hash k hash_rows st = (evs, st', true) ->
    metadata (del_conn st') !! "last_operation" = Some "delete_duplicates".
Proof.
  induction hash_rows as [|h rest IH]; intros k st evs st' E; simpl in E; [done|].
  destruct (is_cancelled cancel_event k).
  { injection E as _ <-. cbn [gs_conn gmd_conn del_conn]. by meta_simpl. }
  destruct (del_start_skipping st); [by eapply IH|].
  destruct (del_group dry_run total h st) as [evs1 st1].
  destruct (del_loop dry_run cancel_event total last_hash (S k) rest st1)
    as [[evs2 st2] stopped2] eqn:E2.
  injection E as _ <- ->. by eapply IH.
Qed.

Lemma resume_choice_of_last_operation conn op :
  metadata conn !! "last_operation" = Some op ->
  resume_choice_of conn =
    if bool_decide (op = "generate_sql") then ChooseGenerateSql
    else if bool_decide (op = "calculate_duplicates") then ChooseCalculateDuplicates
    else if bool_decide (op = "delete_duplicates") then ChooseDeleteDuplicates
    else ChooseNothing.
Proof.
  intros H. unfold resume_choice_of, get_metadata. rewrite H.
  repeat case_bool_decide; congruence.
Qed.

Lemma generate_sql_cancelled start_dir dir fs db resume cancel_event :
  let r := generate_sql start_dir dir fs (Some db) resume cancel_event in
  gs_outcome r = Cancelled ->
  exists db', gs_db r = Some db' /\
    metadata db' !! "last_operation" = Some "generate_sql".
Proof.
  unfold generate_sql.
  destruct dir as [t|]; [|done].
  destruct (Z.of_nat (length (file_list start_dir t)) =? 0); [done|].
  destruct (gs_prepare db resume _) as [[conn1 processed]|]; [|done].
  destruct (gs_initial_row_counter conn1) as [rc|]; [|done].
  destruct (gs_loop fs cancel_event _ 0 _ _) as [[evs st] stopped] eqn:Hloop.
  destruct stopped; [|done]. intros _. exists (gs_conn st). split; [done|].
  by eapply gs_loop_cancelled.
Qed.

Lemma generate_and_mark_duplicates_cancelled db_path db resume cancel_event :
  let r := generate_and_mark_duplicates db_path (Some db) resume cancel_event in
  gmd_outcome r = Cancelled ->
  exists db', gmd_db r = Some db' /\
    metadata db' !! "last_operation" = Some "calculate_duplicates".
Proof.
  unfold generate_and_mark_duplicates.
  destruct (Z.of_nat (length (gmd_hash_rows (hashvalues db))) =? 0); [done|].
  set (prepared := if resume then _ else _).
  destruct prepared as [[[[conn1 last_hash] processed] resuming]|]; [|done].
  destruct (gmd_loop cancel_event _ last_hash 0 _ _) as [[evs st] stopped] eqn:Hloop.
  destruct stopped; [|done]. intros _. exists (gmd_conn st). split; [done|].
  by eapply gmd_loop_cancelled.
Qed.

Lemma delete_duplicates_cancelled db_path db fs resume cancel_event dry_run :
  let r := delete_duplicates_generator db_path (Some db) fs resume cancel_event
             dry_run in
  del_outcome r = Cancelled ->
  exists db', del_db r = Some db' /\
    metadata db' !! "last_operation" = Some "delete_duplicates".
Proof.
  unfold delete_duplicates_generator.
  destruct (Z.of_nat (length (del_hash_rows (hashvalues db))) =? 0); [done|].
  set (prepared := if resume then _ else _).
  destruct prepared as [[[[conn1 last_hash] processed] resuming]|]; [|done].
  destruct (del_loop dry_run cancel_event _ last_hash 0 _ _)
    as [[evs st] stopped] eqn:Hloop.
  destruct stopped; [|done]. intros _. exists (del_conn st). split; [done|].
  by eapply del_loop_cancelled.
Qed.

(** X26.  Cancel, then Resume.  After a cancelled run of [generate_sql],
    of [generate_and_mark_duplicates] or of [delete_duplicates_generator],
    [App.resume_action] starts the same job on the database the run left,
    with [resume=True] (the deleter after its confirmation dialog, and not
    in dry-run mode).  A run of [group_files_generator], cancelled or not,
    leaves the choice of [resume_action] as it was. *)
Theorem resume_action_resumes_the_cancelled_job
  (startdir dbpath : string) (dir : option tree) (fs : gmap string file)
  (db : database) (resume confirmed : bool) (c c' : option (nat -> bool)) :
  (let r := generate_sql startdir dir fs (Some db) resume c in
   gs_outcome r = Cancelled ->
   resume_action startdir dbpath dir fs (gs_db r) confirmed c'
   = ResumedGenerateSql (generate_sql startdir dir fs (gs_db r) true c')) /\
  (let r := generate_and_mark_duplicates dbpath (Some db) resume c in
   gmd_outcome r = Cancelled ->
   resume_action startdir dbpath dir fs (gmd_db r) confirmed c'
   = ResumedCalculateDuplicates
       (generate_and_mark_duplicates dbpath (gmd_db r) true c')) /\
  (forall dry_run,
   let r := delete_duplicates_generator dbpath (Some db) fs resume c dry_run in
   del_outcome r = Cancelled ->
   resume_action startdir dbpath dir (del_files_after r) (del_db r) confirmed c'
   = if confirmed
     then ResumedDeleteDuplicates
            (delete_duplicates_generator dbpath (del_db r) (del_files_after r)
               true c' false)
     else ResumeDenied) /\
  (forall origin_dir dest_dir dest_tree dest_available now grouping_mode
          copy_duplicates dry_run,
   let r := group_files_generator origin_dir dest_dir dest_tree dest_available
              (Some db) fs now grouping_mode copy_duplicates resume c dry_run in
   exists db', fgr_db r = Some db' /\ resume_choice_of db' = resume_choice_of db).
Proof.
  split; [|split; [|split]].
  - intros r Hc.
    destruct (generate_sql_cancelled startdir dir fs db resume c Hc)
      as (db' & Hdb & Hop). fold r in Hdb. rewrite Hdb. unfold resume_action.
    by rewrite (resume_choice_of_last_operation _ _ Hop).
  - intros r Hc.
    destruct (generate_and_mark_duplicates_cancelled dbpath db resume c Hc)
      as (db' & Hdb & Hop). fold r in Hdb. rewrite Hdb. unfold resume_action.
    by rewrite (resume_choice_of_last_operation _ _ Hop).
  - intros dry_run r Hc.
    destruct (delete_duplicates_cancelled dbpath db fs resume c dry_run Hc)
      as (db' & Hdb & Hop). fold r in Hdb. rewrite Hdb. unfold resume_action.
    by rewrite (resume_choice_of_last_operation _ _ Hop).
  - intros origin_dir dest_dir dest_tree dest_available now grouping_mode
      copy_duplicates dry_run r.
    destruct (group_files_generator_rel origin_dir dest_dir dest_tree dest_available
                db fs now grouping_mode copy_duplicates resume c dry_run)
      as (db' & Hdb & (_ & _ & _ & _ & H) & _).
    exists db'. split; [done|]. unfold resume_choice_of, get_metadata.
    by rewrite H.
Qed.
